(** * Meowzon OCR extractor: a shallow embedding of the extraction pipeline

    The development follows the Python sources module by module:
    [data_extractor.py], [image_processor.py], [ocr_engine.py],
    [ai_providers.py], [extractor.py] and [analytics.py].

    Conventions of the embedding.
    - Text is a [string] whose characters are read as code points below
      256; the character classes below are Python's, restricted to that
      range.
    - A Python [float] is an exact rational ([Q]); rounding is not modelled.
    - A [Dict[str, List[str]]] is a [gmap string (list string)]; [d.get(k)]
      is [d !! k].
    - Library calls whose code is not part of the repository (Tesseract,
      OpenCV filters, [datetime], [str] on non-string JSON values) are
      parameters of the functions that use them. *)

From Stdlib Require Import ZArith QArith Qminmax Ascii String List Lia Lqa.
From stdpp Require Import base option list gmap strings.

Local Open Scope string_scope.

(** ** Python strings *)

Module PyStr.

Definition code (c : ascii) : N := N_of_ascii c.

Definition between (lo hi : N) (c : ascii) : bool :=
  ((lo <=? code c) && (code c <=? hi))%N.

(** [\d] on code points below 256. *)
Definition is_digit (c : ascii) : bool := between 48 57 c.

(** [str.isspace] and [\s]: TAB..CR, FS..US, space, NEL, NBSP. *)
Definition is_space (c : ascii) : bool :=
  between 9 13 c || between 28 32 c || (code c =? 133)%N || (code c =? 160)%N.

(** [str.isupper] of one character: A-Z and the Latin-1 capitals. *)
Definition is_upper (c : ascii) : bool :=
  between 65 90 c || between 192 214 c || between 216 222 c.

Definition is_ascii_upper (c : ascii) : bool := between 65 90 c.
Definition is_ascii_lower (c : ascii) : bool := between 97 122 c.

(** [str.lower] of one character. *)
Definition lower_char (c : ascii) : ascii :=
  if is_upper c then ascii_of_N (code c + 32) else c.

(** Case folding used by [re.IGNORECASE] on ASCII letters. *)
Definition fold_char (c : ascii) : ascii :=
  if is_ascii_upper c then ascii_of_N (code c + 32) else c.

Definition swap_ascii_case (c : ascii) : ascii :=
  if is_ascii_upper c then ascii_of_N (code c + 32)
  else if is_ascii_lower c then ascii_of_N (code c - 32)
  else c.

Fixpoint lower (s : string) : string :=
  match s with
  | EmptyString => EmptyString
  | String c s' => String (lower_char c) (lower s')
  end.

Fixpoint lstrip (s : string) : string :=
  match s with
  | EmptyString => EmptyString
  | String c s' => if is_space c then lstrip s' else s
  end.

(** [rstrip] drops the trailing run of whitespace: a character is kept
    when something that is not whitespace follows or it is not
    whitespace itself. *)
Fixpoint rstrip (s : string) : string :=
  match s with
  | EmptyString => EmptyString
  | String c s' =>
      match rstrip s' with
      | EmptyString => if is_space c then EmptyString else String c EmptyString
      | t => String c t
      end
  end.

(** [s.strip()] *)
Definition strip (s : string) : string := rstrip (lstrip s).

(** [s.split(sep)] for a one-character separator: never empty. *)
Fixpoint split (sep : ascii) (s : string) : list string :=
  match s with
  | EmptyString => [EmptyString]
  | String c s' =>
      if Ascii.eqb c sep then EmptyString :: split sep s'
      else match split sep s' with
           | [] => [String c EmptyString]
           | w :: ws => String c w :: ws
           end
  end.

(** [sep.join(l)] *)
Fixpoint join (sep : string) (l : list string) : string :=
  match l with
  | [] => EmptyString
  | [x] => x
  | x :: rest => x ++ sep ++ join sep rest
  end.

Fixpoint starts_with (p s : string) : bool :=
  match p, s with
  | EmptyString, _ => true
  | String a p', String b s' => Ascii.eqb a b && starts_with p' s'
  | String _ _, EmptyString => false
  end.

(** [p in s] *)
Fixpoint contains (p s : string) : bool :=
  starts_with p s ||
  match s with
  | EmptyString => false
  | String _ s' => contains p s'
  end.

(** [s.replace(c, '')] for a one-character [c]. *)
Fixpoint remove_char (c : ascii) (s : string) : string :=
  match s with
  | EmptyString => EmptyString
  | String a s' =>
      if Ascii.eqb a c then remove_char c s' else String a (remove_char c s')
  end.

(** Truthiness of a list: [if l:]. *)
Definition truthy {A} (l : list A) : bool :=
  match l with [] => false | _ => true end.

End PyStr.

(** ** The fragment of Python's [re] used by the extractor

    A backtracking matcher: [ends r s] lists, in the order in which the
    engine tries them, the remainders of [s] after a match of [r] at its
    head.  The first element is the match Python reports. *)

Module Re.
Import PyStr.

Inductive regex : Type :=
| Eps
| Lit (c : ascii)
| Cls (p : ascii -> bool)
| Dot
| Bol
| Eol
| Seq (r1 r2 : regex)
| Alt (r1 r2 : regex)
| Rep (lo : nat) (hi : option nat) (greedy : bool) (r : regex).

Definition newline : ascii := "010"%char.

Definition lit_matches (ic : bool) (c a : ascii) : bool :=
  if ic then Ascii.eqb (fold_char c) (fold_char a) else Ascii.eqb c a.

Definition cls_matches (ic : bool) (p : ascii -> bool) (a : ascii) : bool :=
  p a || (ic && p (swap_ascii_case a)).

(** Iteration of a loop body [step]; every body of the patterns below
    consumes at least one character, so [fuel] above the length of the
    subject plus [lo] is never exhausted. *)
Fixpoint rep_ends (step : string -> list string) (fuel lo : nat)
    (hi : option nat) (greedy : bool) (s : string) : list string :=
  match fuel with
  | O => match lo with O => [s] | S _ => [] end
  | S fuel' =>
      let more :=
        match hi with
        | Some O => []
        | _ => flat_map (rep_ends step fuel' (Nat.pred lo) (Nat.pred <$> hi) greedy)
                        (step s)
        end in
      match lo with
      | S _ => more
      | O => if greedy then more ++ [s] else s :: more
      end
  end.

(** [whole] is the length of the subject, so that [^] can tell the start. *)
Fixpoint ends (ic : bool) (whole : nat) (r : regex) (s : string) {struct r}
    : list string :=
  match r with
  | Eps => [s]
  | Lit c =>
      match s with
      | String a s' => if lit_matches ic c a then [s'] else []
      | EmptyString => []
      end
  | Cls p =>
      match s with
      | String a s' => if cls_matches ic p a then [s'] else []
      | EmptyString => []
      end
  | Dot =>
      match s with
      | String a s' => if Ascii.eqb a newline then [] else [s']
      | EmptyString => []
      end
  | Bol => if Nat.eqb (String.length s) whole then [s] else []
  | Eol =>
      match s with
      | EmptyString => [s]
      | String a EmptyString => if Ascii.eqb a newline then [s] else []
      | _ => []
      end
  | Seq r1 r2 => flat_map (ends ic whole r2) (ends ic whole r1 s)
  | Alt r1 r2 => ends ic whole r1 s ++ ends ic whole r2 s
  | Rep lo hi g r' =>
      rep_ends (ends ic whole r') (S (String.length s + lo)) lo hi g s
  end.

(** The text consumed between [s] and its suffix [rest]. *)
Definition consumed (s rest : string) : string :=
  substring 0 (String.length s - String.length rest) s.

(** A pattern with at most one capturing group: [pre (grp) post]. *)
Record pattern : Type := Pattern {
  pre : regex;
  grp : option regex;
  post : regex;
  ignorecase : bool
}.

(** The match at the head of [s]: what [findall] reports for it (the
    group when there is one, the whole match otherwise) and the rest. *)
Definition match_here (p : pattern) (whole : nat) (s : string)
    : option (string * string) :=
  match grp p with
  | None =>
      (fun rest => (consumed s rest, rest)) <$>
        head (ends (ignorecase p) whole (Seq (pre p) (post p)) s)
  | Some g =>
      head (flat_map (fun s1 =>
              flat_map (fun s2 =>
                map (fun s3 => (consumed s1 s2, s3))
                    (ends (ignorecase p) whole (post p) s2))
                (ends (ignorecase p) whole g s1))
              (ends (ignorecase p) whole (pre p) s))
  end.

(** [re.match(p, s)] as a boolean. *)
Definition py_match (p : pattern) (s : string) : bool :=
  bool_decide (is_Some (match_here p (String.length s) s)).

(** [re.search(p, s)] as a boolean: a match at some position. *)
Fixpoint search_from (p : pattern) (whole : nat) (s : string) : bool :=
  bool_decide (is_Some (match_here p whole s)) ||
  match s with
  | EmptyString => false
  | String _ s' => search_from p whole s'
  end.

Definition search (p : pattern) (s : string) : bool :=
  search_from p (String.length s) s.

(** [re.findall(p, s)]: leftmost matches, resumed after each one.  None
    of the patterns below matches the empty string; after a match that
    consumed nothing the scan moves on by one character. *)
Fixpoint findall_from (fuel : nat) (p : pattern) (whole : nat) (s : string)
    : list string :=
  match fuel with
  | O => []
  | S fuel' =>
      let skip :=
        match s with
        | EmptyString => []
        | String _ s' => findall_from fuel' p whole s'
        end in
      match match_here p whole s with
      | Some (x, rest) =>
          if Nat.ltb (String.length rest) (String.length s)
          then x :: findall_from fuel' p whole rest
          else x :: skip
      | None => skip
      end
  end.

Definition findall (p : pattern) (s : string) : list string :=
  findall_from (S (String.length s)) p (String.length s) s.

(** [re.sub(p, '', s)] *)
Fixpoint sub_from (fuel : nat) (p : pattern) (whole : nat) (s : string)
    : string :=
  match fuel with
  | O => s
  | S fuel' =>
      let keep :=
        match s with
        | EmptyString => EmptyString
        | String c s' => String c (sub_from fuel' p whole s')
        end in
      match match_here p whole s with
      | Some (_, rest) =>
          if Nat.ltb (String.length rest) (String.length s)
          then sub_from fuel' p whole rest
          else keep
      | None => keep
      end
  end.

Definition sub_empty (p : pattern) (s : string) : string :=
  sub_from (S (String.length s)) p (String.length s) s.

(** Shorthands for writing patterns. *)
Definition digit : regex := Cls is_digit.
Definition space : regex := Cls is_space.
Definition times (n : nat) (r : regex) : regex := Rep n (Some n) true r.
Definition upto (lo hi : nat) (r : regex) : regex := Rep lo (Some hi) true r.
Definition star (r : regex) : regex := Rep 0 None true r.
Definition plus (r : regex) : regex := Rep 1 None true r.
Definition plus_lazy (r : regex) : regex := Rep 1 None false r.
Definition at_least (n : nat) (r : regex) : regex := Rep n None true r.
Definition opt (r : regex) : regex := Rep 0 (Some 1) true r.
Definition seqs (l : list regex) : regex := fold_right Seq Eps l.
Definition alts (l : list regex) : regex :=
  match l with
  | [] => Eps
  | r :: rest => fold_left Alt rest r
  end.
Fixpoint lits (s : string) : regex :=
  match s with
  | EmptyString => Eps
  | String c s' => Seq (Lit c) (lits s')
  end.
Definition one_of (s : string) : regex :=
  Cls (fun a => existsb (Ascii.eqb a) (list_ascii_of_string s)).
(** Every match of [r] consumes at least one character. *)
Fixpoint consumes (r : regex) : bool :=
  match r with
  | Lit _ | Cls _ | Dot => true
  | Eps | Bol | Eol => false
  | Seq r1 r2 => consumes r1 || consumes r2
  | Alt r1 r2 => consumes r1 && consumes r2
  | Rep lo _ _ r' => Nat.ltb 0 lo && consumes r'
  end.

(** Every loop body inside [r] consumes at least one character. *)
Fixpoint loops_consume (r : regex) : bool :=
  match r with
  | Seq r1 r2 | Alt r1 r2 => loops_consume r1 && loops_consume r2
  | Rep _ _ _ r' => consumes r' && loops_consume r'
  | _ => true
  end.

(** [r] has neither [^] nor [$]. *)
Fixpoint anchor_free (r : regex) : bool :=
  match r with
  | Bol | Eol => false
  | Seq r1 r2 | Alt r1 r2 => anchor_free r1 && anchor_free r2
  | Rep _ _ _ r' => anchor_free r'
  | _ => true
  end.

(** The positions of a subject, as the texts that start there. *)
Fixpoint suffixes (s : string) : list string :=
  s :: match s with
       | EmptyString => []
       | String _ s' => suffixes s'
       end.

Definition whole (r : regex) : pattern := Pattern r None Eps false.
Definition whole_i (r : regex) : pattern := Pattern r None Eps true.

End Re.

(** ** data_extractor.py: [DataExtractor] *)

Module DataExtractor.
Import PyStr Re.

(** [\d{3}-\d{7}-\d{7}] *)
Definition ORDER_ID : regex :=
  seqs [times 3 digit; Lit "-"; times 7 digit; Lit "-"; times 7 digit].
Definition ORDER_ID_PATTERN : pattern := whole ORDER_ID.

(** [\$\d{1,3}(?:,\d{3})*(?:\.\d{2})?] *)
Definition PRICE : regex :=
  seqs [Lit "$"; upto 1 3 digit;
        star (Seq (Lit ",") (times 3 digit));
        opt (Seq (Lit ".") (times 2 digit))].
Definition PRICE_PATTERN : pattern := whole PRICE.

(** [(?:Jan|Feb|...|Dec)[a-z]*\.?\s+\d{1,2},?\s+\d{4}], used with
    [re.IGNORECASE] *)
Definition DATE_PATTERN : pattern :=
  whole_i (seqs [alts (map lits ["Jan"; "Feb"; "Mar"; "Apr"; "May"; "Jun";
                                 "Jul"; "Aug"; "Sep"; "Oct"; "Nov"; "Dec"]);
                 star (Cls is_ascii_lower); opt (Lit ".");
                 plus space; upto 1 2 digit; opt (Lit ",");
                 plus space; times 4 digit]).

(** [(?:Order Total|Grand Total|Total|Subtotal)[\s:]*(\$...)], used with
    [re.IGNORECASE] *)
Definition TOTAL_PATTERN : pattern :=
  Pattern (Seq (alts (map lits ["Order Total"; "Grand Total"; "Total"; "Subtotal"]))
               (star (Cls (fun a => is_space a || Ascii.eqb a ":"))))
          (Some PRICE) Eps true.

(** [(?:Qty|Quantity)[\.:]?\s*(\d+)], used with [re.IGNORECASE] *)
Definition QUANTITY_PATTERN : pattern :=
  Pattern (seqs [alts [lits "Qty"; lits "Quantity"]; opt (one_of ".:");
                 star space])
          (Some (plus digit)) Eps true.

(** [Sold by[:\s]*(.+?)(?:\n|$)] *)
Definition SELLER_PATTERN : pattern :=
  Pattern (Seq (lits "Sold by")
               (star (Cls (fun a => Ascii.eqb a ":" || is_space a))))
          (Some (plus_lazy Dot)) (Alt (Lit newline) Eol) false.

(** [(?:Tracking|Track)[:\s]*([A-Z0-9]{10,})], used with [re.IGNORECASE] *)
Definition TRACKING_PATTERN : pattern :=
  Pattern (Seq (alts [lits "Tracking"; lits "Track"])
               (star (Cls (fun a => Ascii.eqb a ":" || is_space a))))
          (Some (at_least 10 (Cls (fun a => is_ascii_upper a || is_digit a))))
          Eps true.

(** [\$[\d,]+\.?\d*|\d{3}-\d{7}.*], the noise removed from an item line *)
Definition ITEM_NOISE_PATTERN : pattern :=
  whole (Alt (seqs [Lit "$"; plus (Cls (fun a => is_digit a || Ascii.eqb a ","));
                    opt (Lit "."); star digit])
             (seqs [times 3 digit; Lit "-"; times 7 digit; star Dot])).

(** [list(set(l))]: the elements without repetition, in the order of the
    set. *)
Definition list_of_set (l : list string) : list string :=
  elements (list_to_set l : gset string).

Definition extract_order_ids (text : string) : list string :=
  list_of_set (findall ORDER_ID_PATTERN text).

Definition extract_prices (text : string) : list string :=
  findall PRICE_PATTERN text.

Definition extract_totals (text : string) : list string :=
  findall TOTAL_PATTERN text.

Definition extract_quantities (text : string) : list string :=
  findall QUANTITY_PATTERN text.

Definition extract_sellers (text : string) : list string :=
  let sellers := findall SELLER_PATTERN text in
  let cleaned :=
    map strip (filter (fun s => 2 < String.length (strip s)) sellers) in
  list_of_set cleaned.

Definition extract_tracking_numbers (text : string) : list string :=
  list_of_set (findall TRACKING_PATTERN text).

Definition skip_keywords : list string :=
  ["total"; "shipping"; "tax"; "qty"; "quantity"; "sold by";
   "order"; "delivery"; "arrives"; "return"; "refund";
   "customer"; "account"; "payment"; "credit"; "gift"].

(** [line.strip() for line in text.split('\n') if line.strip()] *)
Definition stripped_lines (text : string) : list string :=
  map strip (filter (fun line => negb (String.eqb (strip line) ""))
                    (split newline text)).

(** [re.sub(..., '', line).strip()] *)
Definition clean_line (line : string) : string :=
  strip (sub_empty ITEM_NOISE_PATTERN line).

Definition has_skip_keyword (clean : string) : bool :=
  existsb (fun keyword => contains keyword (lower clean)) skip_keywords.

Definition starts_upper (clean : string) : bool :=
  match clean with
  | EmptyString => false
  | String c _ => is_upper c
  end.

(** The first loop of [extract_items]: the candidate item of each line. *)
Fixpoint item_candidates (lines : list string) : list string :=
  match lines with
  | [] => []
  | line :: rest =>
      let clean := clean_line line in
      if Nat.ltb (String.length clean) 15 then item_candidates rest
      else if has_skip_keyword clean then item_candidates rest
      else if starts_upper clean then clean :: item_candidates rest
      else item_candidates rest
  end.

(** The second loop: [seen] is the set, [unique_items] the list so far. *)
Definition unique_step (st : gset string * list string) (item : string)
    : gset string * list string :=
  let '(seen, unique_items) := st in
  if bool_decide (item ∈ seen) then st
  else ({[item]} ∪ seen, (unique_items ++ [item])%list).

Definition extract_items (text : string) : list string :=
  let lines := stripped_lines text in
  let items := item_candidates lines in
  snd (fold_left unique_step items (∅, [])).

Section Dates.
(** [datetime.strptime(s, '%b %d %Y').strftime('%Y-%m-%d')], [None] when
    [strptime] raises. *)
Variable strptime_b_d_Y : string -> option string.

Definition normalize_date (date_str : string) : string :=
  match strptime_b_d_Y (remove_char "," date_str) with
  | Some iso => iso
  | None => date_str
  end.

Definition extract_dates (text : string) : list string :=
  map normalize_date (findall DATE_PATTERN text).

Definition extract_all (text : string) : gmap string (list string) :=
  <["items" := extract_items text]>
  (<["tracking_numbers" := extract_tracking_numbers text]>
  (<["sellers" := extract_sellers text]>
  (<["quantities" := extract_quantities text]>
  (<["totals" := extract_totals text]>
  (<["dates" := extract_dates text]>
  (<["prices" := extract_prices text]>
  (<["order_ids" := extract_order_ids text]> ∅))))))).
End Dates.

End DataExtractor.

(** ** data_extractor.py: [DataValidator] *)

Module DataValidator.
Import PyStr Re.

(** [dict.get(k)] used as a condition: the key is there and its list is
    not empty. *)
Definition get_truthy (d : gmap string (list string)) (k : string) : bool :=
  match d !! k with
  | Some l => truthy l
  | None => false
  end.

(** [d[k]] where the code has already checked the key. *)
Definition items_of (d : gmap string (list string)) (k : string) : list string :=
  default [] (d !! k).

(** [bool(re.match(r'^\d{3}-\d{7}-\d{7}$', order_id))] after the guard on
    the empty string *)
Definition validate_order_id (order_id : string) : bool :=
  if String.eqb order_id "" then false
  else py_match (whole (seqs [Bol; DataExtractor.ORDER_ID; Eol])) order_id.

Definition calculate_confidence (extracted_data : gmap string (list string))
    (ocr_confidence : Q) : Q :=
  let score := (ocr_confidence * (4 # 10))%Q in
  let score :=
    if get_truthy extracted_data "order_ids" then
      match items_of extracted_data "order_ids" with
      | first :: _ => if validate_order_id first then (score + 25)%Q else score
      | [] => score
      end
    else score in
  let score :=
    if get_truthy extracted_data "items" then
      (score + inject_Z (Z.min (Z.of_nat (length (items_of extracted_data "items")) * 5) 20))%Q
    else score in
  let score :=
    if get_truthy extracted_data "totals" then (score + 10)%Q else score in
  let score :=
    if get_truthy extracted_data "dates" then (score + 5)%Q else score in
  Qmin score 100.

(** [bool(re.match(r'^\$\d{1,3}(?:,\d{3})*(?:\.\d{2})?$', price))] after the
    guard on the empty string *)
Definition validate_price (price : string) : bool :=
  if String.eqb price "" then false
  else py_match (whole (seqs [Bol; DataExtractor.PRICE; Eol])) price.

(** The entries of the issue list, for the messages "No order ID found",
    "Invalid order ID format", "No items found" and
    "Invalid price formats: [...]". *)
Inductive Issue : Type :=
| NoOrderIdFound
| InvalidOrderIdFormat
| NoItemsFound
| InvalidPriceFormats (invalid_prices : list string).

Definition validate_extraction (extracted_data : gmap string (list string))
    : bool * list Issue :=
  let issues : list Issue := [] in
  let issues :=
    if negb (get_truthy extracted_data "order_ids")
    then (issues ++ [NoOrderIdFound])%list
    else match items_of extracted_data "order_ids" with
         | first :: _ =>
             if negb (validate_order_id first)
             then (issues ++ [InvalidOrderIdFormat])%list
             else issues
         | [] => issues
         end in
  let issues :=
    if negb (get_truthy extracted_data "items")
    then (issues ++ [NoItemsFound])%list
    else issues in
  let issues :=
    if get_truthy extracted_data "prices" then
      let invalid_prices :=
        List.filter (fun p => negb (validate_price p))
                    (items_of extracted_data "prices") in
      if truthy invalid_prices
      then (issues ++ [InvalidPriceFormats invalid_prices])%list
      else issues
    else issues in
  (Nat.eqb (length issues) 0, issues).

End DataValidator.

(** ** image_processor.py: [ImageProcessor] *)

Module ImageProcessor.
Import PyStr Re.

(** An image is its rows of pixels; [image.shape[:2]] is (height, width). *)
Definition Image : Type := list (list Z).

Definition shape (image : Image) : Z * Z :=
  (Z.of_nat (length image), Z.of_nat (length (hd [] image))).

(** [l[a:b]] with Python's treatment of negative and overlong bounds. *)
Definition clip (len i : Z) : Z :=
  if (i <? 0)%Z then Z.max (i + len) 0 else Z.min i len.

Definition py_slice {A} (l : list A) (a b : Z) : list A :=
  let len := Z.of_nat (length l) in
  let a' := clip len a in
  let b' := clip len b in
  firstn (Z.to_nat (b' - a')) (skipn (Z.to_nat a') l).

(** [image[y0:y1, x0:x1]] *)
Definition crop_rect (image : Image) (y0 y1 x0 x1 : Z) : Image :=
  map (fun row => py_slice row x0 x1) (py_slice image y0 y1).

(** [int(x)]: truncation towards zero. *)
Definition int_of (x : Q) : Z := Z.quot (Qnum x) (Zpos (Qden x)).

(** One entry of [config.crop_strategies]. *)
Record CropStrategy : Type := {
  name : string;
  top : Q;
  bottom : Q;
  left : Q;
  right : Q
}.

Definition apply_crop (image : Image) (crop_params : CropStrategy)
    : option Image :=
  let '(height, width) := shape image in
  let start_y := int_of (inject_Z height * top crop_params) in
  let end_y := (height - int_of (inject_Z height * bottom crop_params))%Z in
  let start_x := int_of (inject_Z width * left crop_params) in
  let end_x := (width - int_of (inject_Z width * right crop_params))%Z in
  if ((end_y <=? start_y) || (end_x <=? start_x))%Z then None
  else if ((end_y - start_y <? 50) || (end_x - start_x <? 50))%Z then None
  else Some (crop_rect image start_y end_y start_x end_x).

(** [bool(re.search(r'\d{3}-\d{7}-\d{7}', text))] *)
Definition _has_order_id (text : string) : bool :=
  search DataExtractor.ORDER_ID_PATTERN text.

(** [conf + 100 if self._has_order_id(text) else conf] *)
Definition score_of (text : string) (conf : Q) : Q :=
  if _has_order_id text then (conf + 100)%Q else conf.

(** [a > b] on confidences *)
Definition Qgtb (a b : Q) : bool := negb (Qle_bool a b).

(** [conf >= threshold_confidence and self._has_order_id(text)] *)
Definition very_confident (threshold_confidence : Q) (text : string) (conf : Q)
    : bool :=
  Qle_bool threshold_confidence conf && _has_order_id text.

(** The local variables of [find_best_crop], and the images handed to
    [ocr_function] so far. *)
Record SearchState : Type := {
  best_color : Image;
  best_text : string;
  best_conf : Q;
  best_processed : Image;
  best_crop_params : option CropStrategy;
  score : Q;
  ocr_calls : list Image
}.

Section FindBestCrop.
(** [ocr_function(image) -> (text, confidence, processed)] *)
Variable ocr_function : Image -> string * Q * Image.

(** One iteration of the [for] loop; the boolean is [break]. *)
Definition try_crop (image : Image) (threshold_confidence : Q)
    (st : SearchState) (crop_dict : CropStrategy) : SearchState * bool :=
  match apply_crop image crop_dict with
  | None => (st, false)
  | Some cropped =>
      let '(text, conf, processed) := ocr_function cropped in
      let calls := (ocr_calls st ++ [cropped])%list in
      let crop_score := score_of text conf in
      if Qgtb crop_score (score st) then
        ({| best_color := cropped;
            best_text := text;
            best_conf := conf;
            best_processed := processed;
            best_crop_params := Some crop_dict;
            score := crop_score;
            ocr_calls := calls |},
         very_confident threshold_confidence text conf)
      else
        ({| best_color := best_color st;
            best_text := best_text st;
            best_conf := best_conf st;
            best_processed := best_processed st;
            best_crop_params := best_crop_params st;
            score := score st;
            ocr_calls := calls |},
         false)
  end.

Fixpoint crop_loop (image : Image) (threshold_confidence : Q)
    (crop_strategies : list CropStrategy) (st : SearchState) : SearchState :=
  match crop_strategies with
  | [] => st
  | crop_dict :: rest =>
      let '(st', break) := try_crop image threshold_confidence st crop_dict in
      if break then st' else crop_loop image threshold_confidence rest st'
  end.

(** The state after the full-image attempt. *)
Definition full_image_state (image : Image) : SearchState :=
  let '(text, conf, processed) := ocr_function image in
  {| best_color := image;
     best_text := text;
     best_conf := conf;
     best_processed := processed;
     best_crop_params := None;
     score := score_of text conf;
     ocr_calls := [image] |}.

(** The final state of [find_best_crop]. *)
Definition find_best_crop_state (crop_strategies : list CropStrategy)
    (image : Image) (threshold_confidence : Q) : SearchState :=
  let st := full_image_state image in
  if very_confident threshold_confidence (best_text st) (best_conf st)
  then st
  else crop_loop image threshold_confidence crop_strategies st.

(** The returned tuple
    [(best_color, best_text, best_conf, best_processed, best_crop_params)]. *)
Definition find_best_crop (crop_strategies : list CropStrategy)
    (image : Image) (threshold_confidence : Q)
    : Image * string * Q * Image * option CropStrategy :=
  let st := find_best_crop_state crop_strategies image threshold_confidence in
  (best_color st, best_text st, best_conf st, best_processed st,
   best_crop_params st).
End FindBestCrop.

End ImageProcessor.

(** ** config.py: the options read by the functions below *)

Module Config.
Import ImageProcessor.

Record ExtractorConfig : Type := {
  ai_mode : string;
  tesseract_confidence_threshold : Q;
  upscale_factor : Q;
  crop_strategies : list CropStrategy
}.

Definition default_crop_strategies : list CropStrategy :=
  [ {| name := "No Bottom 20%"; top := 0; bottom := 2 # 10; left := 0; right := 0 |};
    {| name := "No Top 20%"; top := 2 # 10; bottom := 0; left := 0; right := 0 |};
    {| name := "No Top 15%"; top := 15 # 100; bottom := 0; left := 0; right := 0 |};
    {| name := "Center 80%"; top := 1 # 10; bottom := 1 # 10; left := 1 # 10; right := 1 # 10 |};
    {| name := "Tight Center"; top := 1 # 10; bottom := 1 # 10; left := 5 # 100; right := 5 # 100 |} ].

Definition default_config : ExtractorConfig :=
  {| ai_mode := "never";
     tesseract_confidence_threshold := 70;
     upscale_factor := 2;
     crop_strategies := default_crop_strategies |}.

Definition with_ai_mode (mode : string) (config : ExtractorConfig)
    : ExtractorConfig :=
  {| ai_mode := mode;
     tesseract_confidence_threshold := tesseract_confidence_threshold config;
     upscale_factor := upscale_factor config;
     crop_strategies := crop_strategies config |}.

End Config.

(** ** ocr_engine.py: [OCREngine] *)

Module OCREngine.
Import PyStr ImageProcessor.

(** An entry of [data['conf']] as pytesseract hands it over: a number it
    could convert, or the text of the cell. *)
Inductive ConfValue : Type :=
| ConfInt (n : Z)
| ConfStr (s : string).

(** [cv2.bitwise_not] on 8-bit pixels *)
Definition bitwise_not (image : Image) : Image :=
  map (map (fun p => (255 - p)%Z)) image.

(** [np.mean] of a non-empty list of integers *)
Definition mean (l : list Z) : Q :=
  (inject_Z (fold_right Z.add 0%Z l) / inject_Z (Z.of_nat (length l)))%Q.

Section Engine.
(** [pytesseract.image_to_data(...)['conf']] and
    [pytesseract.image_to_string(...)]; [None] when the call raises. *)
Variable image_to_data_conf : Image -> option (list ConfValue).
Variable image_to_string : Image -> option string.
(** [int(s)] on a string; [None] when it raises. *)
Variable int_of_str : string -> option Z.
(** Grey conversion, median blur, upscaling by the given factor and
    adaptive thresholding (OpenCV). *)
Variable adaptive_threshold : Q -> Image -> Image.

(** [c != '-1'] *)
Definition not_minus_one (c : ConfValue) : bool :=
  match c with
  | ConfStr s => negb (String.eqb s "-1")
  | ConfInt _ => true
  end.

(** [int(c)] *)
Definition int_of_conf (c : ConfValue) : option Z :=
  match c with
  | ConfInt n => Some n
  | ConfStr s => int_of_str s
  end.

(** [[int(c) for c in data['conf'] if c != '-1']]; [None] when some
    [int(c)] raises. *)
Definition kept_confidences (conf : list ConfValue) : option (list Z) :=
  mapM int_of_conf (filter not_minus_one conf).

(** The body of the [try]; [None] is an exception. *)
Definition ocr_try (image : Image) : option (string * Q) :=
  data_conf ← image_to_data_conf image;
  confidences ← kept_confidences data_conf;
  let mean_conf := if truthy confidences then mean confidences else 0%Q in
  text ← image_to_string image;
  Some (strip text, mean_conf).

Definition _ocr_with_confidence (image : Image) : string * Q :=
  match ocr_try image with
  | Some r => r
  | None => ("", 0%Q)
  end.

Definition preprocess_image (upscale_factor : Q) (image : Image)
    : string * Q * Image :=
  let thresh := adaptive_threshold upscale_factor image in
  let inv_thresh := bitwise_not thresh in
  let '(text_normal, conf_normal) := _ocr_with_confidence thresh in
  let '(text_inv, conf_inv) := _ocr_with_confidence inv_thresh in
  if Qle_bool conf_inv conf_normal
  then (text_normal, conf_normal, thresh)
  else (text_inv, conf_inv, inv_thresh).
End Engine.

(** The reasons [ImageValidator.validate_image] gives, for the messages
    "Failed to load image ...", "Image too small: WxH ..." and
    "Image too large: WxH ...". *)
Inductive ImageError : Type :=
| LoadFailed
| TooSmall (width height : Z)
| TooLarge (width height : Z).

(** [ImageValidator.validate_image]; the argument is [None] when
    [cv2.imread] returned [None]. *)
Definition validate_image (image : option Image) : bool * option ImageError :=
  match image with
  | None => (false, Some LoadFailed)
  | Some image =>
      let '(height, width) := shape image in
      if ((height <? 100) || (width <? 100))%Z
      then (false, Some (TooSmall width height))
      else if ((height >? 10000) || (width >? 10000))%Z
      then (false, Some (TooLarge width height))
      else (true, None)
  end.

End OCREngine.

(** ** ai_providers.py: [AIProvider._normalize_to_lists] *)

Module AIProvider.
Import PyStr.

(** What [json.loads] returns. *)
#[warnings="-register-all"]
Inductive json : Type :=
| JNull
| JBool (b : bool)
| JInt (n : Z)
| JFloat (x : Q)
| JStr (s : string)
| JArr (l : list json)
| JObj (fields : list (string * json)).

(** Truthiness of a parsed value. *)
Definition json_truthy (v : json) : bool :=
  match v with
  | JNull => false
  | JBool b => b
  | JInt n => negb (n =? 0)%Z
  | JFloat x => negb (Qeq_bool x 0)
  | JStr s => negb (String.eqb s "")
  | JArr l => truthy l
  | JObj fields => truthy fields
  end.

(** [d.get(k)] on a parsed object; of two members with one name
    [json.loads] keeps the later. *)
Fixpoint obj_get (fields : list (string * json)) (k : string) : option json :=
  match fields with
  | [] => None
  | (k', v) :: rest =>
      match obj_get rest k with
      | Some v' => Some v'
      | None => if String.eqb k' k then Some v else None
      end
  end.

(** [d.get(k)] used as a condition, giving the value when it is truthy. *)
Definition get_if_truthy (fields : list (string * json)) (k : string)
    : option json :=
  match obj_get fields k with
  | Some v => if json_truthy v then Some v else None
  | None => None
  end.

(** [result[k].append(x)] *)
Definition append_to (k : string) (x : string)
    (result : gmap string (list string)) : gmap string (list string) :=
  <[k := (default [] (result !! k) ++ [x])%list]> result.

(** [result[k].extend(xs)] *)
Definition extend_to (k : string) (xs : list string)
    (result : gmap string (list string)) : gmap string (list string) :=
  <[k := (default [] (result !! k) ++ xs)%list]> result.

Definition empty_result : gmap string (list string) :=
  <["items" := []]>
  (<["tracking_numbers" := []]>
  (<["sellers" := []]>
  (<["quantities" := []]>
  (<["totals" := []]>
  (<["dates" := []]>
  (<["prices" := []]>
  (<["order_ids" := []]> ∅))))))).

Section Normalize.
(** [str(v)] *)
Variable py_str : json -> string.

(** [if data.get(field): result[key].append(str(data[field]))] *)
Definition copy_field (data : list (string * json)) (field key : string)
    (result : gmap string (list string)) : gmap string (list string) :=
  match get_if_truthy data field with
  | Some v => append_to key (py_str v) result
  | None => result
  end.

(** The body of [for item in items_data]. *)
Definition add_item (result : gmap string (list string)) (item : json)
    : gmap string (list string) :=
  match item with
  | JObj fields =>
      copy_field fields "price" "prices"
        (copy_field fields "quantity" "quantities"
          (copy_field fields "name" "items" result))
  | _ => result
  end.

(** [data.get(k, [])] when it is a list, nothing otherwise. *)
Definition list_field (data : list (string * json)) (k : string) : list json :=
  match obj_get data k with
  | Some (JArr l) => l
  | _ => []
  end.

(** [_normalize_to_lists(data)]; [None] when [data] has no [get], which
    raises. *)
Definition _normalize_to_lists (data : json)
    : option (gmap string (list string)) :=
  match data with
  | JObj fields =>
      let result := empty_result in
      let result := copy_field fields "order_id" "order_ids" result in
      let result := copy_field fields "order_date" "dates" result in
      let result := copy_field fields "total" "totals" result in
      let result := copy_field fields "seller" "sellers" result in
      let result := copy_field fields "tracking_number" "tracking_numbers" result in
      let result := fold_left add_item (list_field fields "items") result in
      let result :=
        extend_to "prices"
          (map py_str (filter (fun p => json_truthy p)
                              (list_field fields "other_prices")))
          result in
      Some result
  | _ => None
  end.
End Normalize.

(** [re.search(r'\{.*\}', content, re.DOTALL).group()]: from the first
    opening brace to the last closing brace after it. *)
Fixpoint after_first_open (s : string) : option string :=
  match s with
  | EmptyString => None
  | String c s' => if Ascii.eqb c "{" then Some s' else after_first_open s'
  end.

Fixpoint up_to_last_close (s : string) : option string :=
  match s with
  | EmptyString => None
  | String c s' =>
      match up_to_last_close s' with
      | Some t => Some (String c t)
      | None => if Ascii.eqb c "}" then Some (String c EmptyString) else None
      end
  end.

Definition brace_span (content : string) : option string :=
  match after_first_open content with
  | Some rest =>
      match up_to_last_close rest with
      | Some inner => Some (String "{" inner)
      | None => None
      end
  | None => None
  end.

(** The first part of [_parse_json_response]: the content without its
    code fence; [None] when [lines[-1]] raises IndexError. *)
Definition strip_code_fence (content : string) : option string :=
  let content := strip content in
  if starts_with "```" content then
    let lines := split Re.newline content in
    let lines :=
      if starts_with "```" (hd EmptyString lines) then tl lines else lines in
    match last lines with
    | None => None
    | Some final =>
        let lines :=
          if String.eqb (strip final) "```" then removelast lines else lines in
        Some (join (String Re.newline EmptyString) lines)
    end
  else Some content.

Section ParseJson.
(** [json.loads]; [None] when it raises JSONDecodeError. *)
Variable json_loads : string -> option json.

(** The second part: [json.loads], and on failure a second attempt on
    the braces found in the text. *)
Definition loads_or_search (content : string) : option json :=
  match json_loads content with
  | Some data => Some data
  | None =>
      match brace_span content with
      | Some found => json_loads found
      | None => None
      end
  end.

(** [_parse_json_response(content)]; the outer [None] is the IndexError. *)
Definition _parse_json_response (content : string) : option (option json) :=
  match strip_code_fence content with
  | Some content => Some (loads_or_search content)
  | None => None
  end.
End ParseJson.

(** What one round of [requests.post], [raise_for_status] and
    [response.json()] in [OllamaProvider.extract] gives: the message
    content, a string, or the exception, named by the handler that
    catches it (a content that is not a string makes [strip] raise and
    counts as [OtherError]). *)
Inductive Reply : Type :=
| Content (content : string)
| ConnectionError
| RequestTimeout
| OtherError (text : string).

(** How one pass through the [try] block ends. *)
Inductive Attempt : Type :=
| Returned (data : option (gmap string (list string))) (status : string)
| TimedOut
| Failed (text : string).

(** [type(v).__name__] *)
Definition type_name (v : json) : string :=
  match v with
  | JNull => "NoneType"
  | JBool _ => "bool"
  | JInt _ => "int"
  | JFloat _ => "float"
  | JStr _ => "str"
  | JArr _ => "list"
  | JObj _ => "dict"
  end.

(** The text of the AttributeError of [data.get] on a value that is not
    a dict. *)
Definition no_get_text (v : json) : string :=
  "'" ++ type_name v ++ "' object has no attribute 'get'".

Section Ollama.
Variable py_str : json -> string.
Variable json_loads : string -> option json.
(** The reply to the request of each attempt. *)
Variable post : nat -> Reply.
Variable max_retries : Z.

(** The [try] block of one attempt with its [return]s; the IndexError of
    [_parse_json_response] and the AttributeError of
    [_normalize_to_lists] fall to [except Exception]. *)
Definition attempt_once (reply : Reply) : Attempt :=
  match reply with
  | Content content =>
      match _parse_json_response json_loads content with
      | None => Failed "list index out of range"
      | Some None => Returned None "Ollama JSON Parse Failed"
      | Some (Some data) =>
          if json_truthy data then
            match _normalize_to_lists py_str data with
            | Some normalized => Returned (Some normalized) "Ollama Success"
            | None => Failed (no_get_text data)
            end
          else Returned None "Ollama JSON Parse Failed"
      end
  | ConnectionError =>
      Returned None "Ollama Not Running (start with 'ollama serve')"
  | RequestTimeout => TimedOut
  | OtherError text => Failed text
  end.

(** [for attempt in range(self.max_retries)], from [attempt] on with
    [remaining] rounds left; [slept] collects the arguments of
    [time.sleep]. *)
Fixpoint extract_from (attempt remaining : nat) (slept : list Z)
    : option (gmap string (list string)) * string * list Z :=
  match remaining with
  | O => (None, "Ollama Failed After Retries", slept)
  | S remaining' =>
      match attempt_once (post attempt) with
      | Returned data status => (data, status, slept)
      | TimedOut =>
          if (Z.of_nat attempt <? max_retries - 1)%Z
          then extract_from (S attempt) remaining'
                 (slept ++ [2 ^ Z.of_nat attempt])%Z%list
          else (None, "Ollama Timeout", slept)
      | Failed text =>
          if (Z.of_nat attempt <? max_retries - 1)%Z
          then extract_from (S attempt) remaining'
                 (slept ++ [2 ^ Z.of_nat attempt])%Z%list
          else (None, "Ollama Error: " ++ substring 0 50 text, slept)
      end
  end.

(** [OllamaProvider.extract] once the image is encoded: the data, the
    status and the sleeps. *)
Definition extract : option (gmap string (list string)) * string * list Z :=
  extract_from 0 (Z.to_nat max_retries) [].
End Ollama.

End AIProvider.

(** ** extractor.py: [MeowzonExtractor] *)

Module MeowzonExtractor.
Import PyStr Config.

Definition _should_use_ai (config : ExtractorConfig)
    (extracted : gmap string (list string)) (ocr_conf : Q) : bool :=
  if String.eqb (ai_mode config) "always" then true
  else if String.eqb (ai_mode config) "never" then false
  else if ImageProcessor.Qgtb (tesseract_confidence_threshold config) ocr_conf then true
  else if negb (DataValidator.get_truthy extracted "order_ids") then true
  else if negb (DataValidator.get_truthy extracted "items") then true
  else false.

(** The value stored under [key] by one iteration of the loop of
    [_merge_results]. *)
Definition merged_value (ai_data : gmap string (list string)) (key : string)
    (ocr_values : list string) : list string :=
  let ai_values := default [] (ai_data !! key) in
  if truthy ai_values then ai_values
  else if truthy ocr_values then ocr_values
  else [].

(** [for key in ocr_data.keys(): merged[key] = ...] *)
Definition _merge_results (ocr_data ai_data : gmap string (list string))
    : gmap string (list string) :=
  map_imap (fun key ocr_values => Some (merged_value ai_data key ocr_values))
           ocr_data.

(** The ["Order IDs"] cell of a result row. *)
Definition order_ids_cell (extracted : gmap string (list string)) : string :=
  join " | " (default [] (extracted !! "order_ids")).

(** The status chosen in [process_single_file]. *)
Definition status_of (extracted : gmap string (list string)) : string :=
  if DataValidator.get_truthy extracted "order_ids" then "Success"
  else if DataValidator.get_truthy extracted "items" then "Review Required"
  else "Failed".

(** What [process_single_file] computes for an image that loaded: the
    entries of the result dictionary before they are joined into cells. *)
Record Processed : Type := {
  status : string;
  overall_confidence : Q;
  ai_used : bool;
  ai_status : string;
  tesseract_confidence : Q;
  crop_used : string;
  extracted_fields : gmap string (list string);
  validation_issues : list DataValidator.Issue
}.

Section ProcessSingleFile.
(** [datetime] parsing, [self.ocr_engine.extract_text] and [round(x, 1)]. *)
Variable strptime_b_d_Y : string -> option string.
Variable extract_text
  : ImageProcessor.Image -> string * Q * ImageProcessor.Image.
Variable round1 : Q -> Q.
(** [self.ai_processor], when one was initialised: [extract] applied to
    the temporary copy of the best crop. *)
Variable ai_processor
  : option (ImageProcessor.Image -> option (gmap string (list string)) * string).

(** The AI step: the fields after it, whether AI data was used, and the
    status string. *)
Definition ai_step (use_ai : bool) (best_color : ImageProcessor.Image)
    (extracted : gmap string (list string))
    : gmap string (list string) * bool * string :=
  match use_ai, ai_processor with
  | true, Some extract =>
      match extract best_color with
      | (Some ai_data, ai_status) =>
          if negb (bool_decide (ai_data = ∅))
          then (_merge_results extracted ai_data, true, ai_status)
          else (extracted, false, ai_status)
      | (None, ai_status) => (extracted, false, ai_status)
      end
  | _, _ => (extracted, false, "")
  end.

Definition process_loaded_image (config : ExtractorConfig)
    (image : ImageProcessor.Image) : Processed :=
  let '(best_color, ocr_text, ocr_conf, best_processed, crop_params) :=
    ImageProcessor.find_best_crop extract_text (crop_strategies config) image
      (tesseract_confidence_threshold config) in
  let crop_name :=
    match crop_params with
    | Some crop_dict => ImageProcessor.name crop_dict
    | None => "Full Image"
    end in
  let extracted := DataExtractor.extract_all strptime_b_d_Y ocr_text in
  let use_ai := _should_use_ai config extracted ocr_conf in
  let '(extracted, used, ai_status) := ai_step use_ai best_color extracted in
  let overall := DataValidator.calculate_confidence extracted ocr_conf in
  let '(is_valid, issues) := DataValidator.validate_extraction extracted in
  {| status := status_of extracted;
     overall_confidence := round1 overall;
     ai_used := used;
     ai_status := ai_status;
     tesseract_confidence := round1 ocr_conf;
     crop_used := crop_name;
     extracted_fields := extracted;
     validation_issues := issues |}.
End ProcessSingleFile.

End MeowzonExtractor.

(** ** analytics.py: [DuplicateDetector.merge_duplicates]

    The data frame is the list of its rows, indexed 0, 1, ... as
    [pd.DataFrame(results)] builds it.  A row comes from one of the two
    dictionaries [process_single_file] returns: the full record, or the
    short one of a file that failed, whose other cells are NaN. *)

Module DuplicateDetector.
Import PyStr.

Inductive Row : Type :=
| FullRow (file_name : string) (order_ids : string)
          (tesseract_confidence : Q) (is_duplicate : option bool)
| ShortRow (file_name : string) (is_duplicate : option bool).

Definition file_name_of (r : Row) : string :=
  match r with
  | FullRow f _ _ _ => f
  | ShortRow f _ => f
  end.

Definition confidence_of (r : Row) : Q :=
  match r with
  | FullRow _ _ c _ => c
  | ShortRow _ _ => 0%Q
  end.

Definition is_duplicate_of (r : Row) : option bool :=
  match r with
  | FullRow _ _ _ d => d
  | ShortRow _ d => d
  end.

(** ['Order IDs' in df.columns]: some row has the cell. *)
Definition has_order_ids_column (df : list Row) : bool :=
  existsb (fun r => match r with FullRow _ _ _ _ => true | ShortRow _ _ => false end) df.

(** [df['Order IDs'].str.split('|').str[0]]; [None] is NaN. *)
Definition first_order_id (r : Row) : option string :=
  match r with
  | FullRow _ order_ids _ _ => head (split "|" order_ids)
  | ShortRow _ _ => None
  end.

(** Group keys in the order in which [groupby] yields them: each key
    once, sorted; NaN keys are dropped. *)
Fixpoint insert_sorted (k : string) (l : list string) : list string :=
  match l with
  | [] => [k]
  | k' :: rest =>
      if String.eqb k k' then l
      else if String.ltb k k' then k :: l
      else k' :: insert_sorted k rest
  end.

Definition group_keys (df : list Row) : list string :=
  fold_right insert_sorted [] (omap first_order_id df).

(** The rows of one group, in the order of the frame. *)
Definition group_of (df : list Row) (key : string) : list Row :=
  filter (fun r => bool_decide (first_order_id r = Some key)) df.

(** [group.loc[group['Tesseract Confidence (%)'].idxmax()]]: the first row
    with the greatest confidence. *)
Fixpoint idxmax_row (best : Row) (rest : list Row) : Row :=
  match rest with
  | [] => best
  | r :: rest' =>
      if ImageProcessor.Qgtb (confidence_of r) (confidence_of best)
      then idxmax_row r rest'
      else idxmax_row best rest'
  end.

(** [best_row['File Name'] = filenames; best_row['is_duplicate'] = True] *)
Definition mark_merged (filenames : string) (best_row : Row) : Row :=
  match best_row with
  | FullRow _ order_ids c _ => FullRow filenames order_ids c (Some true)
  | ShortRow _ _ => ShortRow filenames (Some true)
  end.

(** The body of [for order_id, group in grouped]. *)
Definition merge_group (group : list Row) : list Row :=
  match group with
  | [] => []
  | [r] => [r]
  | r :: rest =>
      let best_row := idxmax_row r rest in
      let filenames := join " + " (map file_name_of group) in
      [mark_merged filenames best_row]
  end.

Definition merge_duplicates (df : list Row) : list Row :=
  if negb (has_order_ids_column df) then df
  else flat_map (fun key => merge_group (group_of df key)) (group_keys df).

(** [str(row['Order IDs'])]: the cell, or ['nan'] for NaN. *)
Definition order_ids_text (r : Row) : string :=
  match r with
  | FullRow _ order_ids _ _ => order_ids
  | ShortRow _ _ => "nan"
  end.

(** The key under which [get_duplicate_groups] files a row, if any:
    [order_ids[0].strip()] when [order_ids[0]] is neither empty nor
    ['nan']. *)
Definition group_key (r : Row) : option string :=
  match split "|" (order_ids_text r) with
  | first :: _ =>
      if negb (String.eqb first "") && negb (String.eqb first "nan")
      then Some (strip first)
      else None
  | [] => None
  end.

(** The body of the loop over the rows. *)
Definition add_to_group (duplicates : gmap string (list string)) (r : Row)
    : gmap string (list string) :=
  match group_key r with
  | Some order_id =>
      <[order_id := (default [] (duplicates !! order_id)
                     ++ [file_name_of r])%list]> duplicates
  | None => duplicates
  end.

Definition get_duplicate_groups (df : list Row) : gmap string (list string) :=
  if negb (has_order_ids_column df) then ∅
  else filter (fun kv => 1 < length kv.2)
              (fold_left add_to_group df ∅).

(** [df['is_duplicate'] = value] on one row. *)
Definition set_is_duplicate (value : bool) (r : Row) : Row :=
  match r with
  | FullRow f order_ids c _ => FullRow f order_ids c (Some value)
  | ShortRow f _ => ShortRow f (Some value)
  end.

(** [df.duplicated(subset=['_first_order_id'], keep='first')]: a row is
    marked when an earlier row has the same key; NaN keys count as
    equal. *)
Fixpoint duplicated (seen keys : list (option string)) : list bool :=
  match keys with
  | [] => []
  | k :: rest => bool_decide (k ∈ seen) :: duplicated (k :: seen) rest
  end.

Definition find_duplicates (df : list Row) : list Row :=
  if negb (has_order_ids_column df) then map (set_is_duplicate false) df
  else zip_with set_is_duplicate (duplicated [] (map first_order_id df)) df.

End DuplicateDetector.

(** ** The statements under verification, in the specification's words *)

Module Claims.
Import PyStr DataValidator.

(** *** Confidence formula *)

Definition bonus (present : bool) (points : Q) : Q :=
  if present then points else 0%Q.

(** [min(5 * number of items, 20)] when there are items. *)
Definition item_points (items : list string) : Q :=
  bonus (truthy items) (inject_Z (Z.min (5 * Z.of_nat (length items)) 20)).

(** A valid order id is present among the order ids. *)
Definition some_id_valid (d : gmap string (list string)) : bool :=
  existsb validate_order_id (items_of d "order_ids").

(** The order id the code looks at, the first one, is valid. *)
Definition first_id_valid (d : gmap string (list string)) : bool :=
  match items_of d "order_ids" with
  | first :: _ => validate_order_id first
  | [] => false
  end.

(** The sum before clamping, for a given reading of "a valid order id is
    present". *)
Definition raw_sum (id_ok : bool) (d : gmap string (list string)) (c : Q) : Q :=
  ((4 # 10) * c + bonus id_ok 25 + item_points (items_of d "items")
   + bonus (truthy (items_of d "totals")) 10
   + bonus (truthy (items_of d "dates")) 5)%Q.

Definition clamp (x : Q) : Q := Qmax 0 (Qmin x 100).

(** The formula as the specification states it. *)
Definition confidence_as_stated (d : gmap string (list string)) (c : Q) : Q :=
  clamp (raw_sum (some_id_valid d) d c).

(** Two order ids, of which only the second is well formed. *)
Definition second_id_valid : gmap string (list string) :=
  {["order_ids" := ["x"; "123-4567890-1234567"]]}.

(** A complete extraction: one id, five items, a total and a date. *)
Definition complete_order : gmap string (list string) :=
  <["dates" := ["2024-01-05"]]>
  (<["totals" := ["$12.00"]]>
  (<["items" := ["A"; "B"; "C"; "D"; "E"]]>
  {["order_ids" := ["123-4567890-1234567"]]})).

(** *** Crop search *)

(** A [height] x [width] image of zero pixels. *)
Definition blank (height width : nat) : ImageProcessor.Image :=
  repeat (repeat 0%Z width) height.

(** A recognizer that reads the same text with the same confidence from
    every image. *)
Definition ocr_constant (text : string) (conf : Q)
    : ImageProcessor.Image -> string * Q * ImageProcessor.Image :=
  fun image => (text, conf, image).

(** A recognizer that is sure of an id-less text on images of 100 rows
    and reads an order id, with confidence 0, from anything smaller. *)
Definition ocr_id_only_when_cropped
    : ImageProcessor.Image -> string * Q * ImageProcessor.Image :=
  fun image =>
    if Nat.eqb (length image) 100
    then ("Your Orders", 100%Q, image)
    else ("Order # 123-4567890-1234567", 0%Q, image).

(** Early exit as the specification states it, for the full image: its
    SCORE meets the threshold and an id was found. *)
Definition exits_on_score
    (ocr_function : ImageProcessor.Image -> string * Q * ImageProcessor.Image)
    (crop_strategies : list ImageProcessor.CropStrategy)
    (image : ImageProcessor.Image) (threshold : Q) : Prop :=
  let '(text, conf, _) := ocr_function image in
  ImageProcessor._has_order_id text = true ->
  (threshold <= ImageProcessor.score_of text conf)%Q ->
  ImageProcessor.ocr_calls
    (ImageProcessor.find_best_crop_state ocr_function crop_strategies image
       threshold) = [image].

(** "A candidate with an order id always outranks one without", for
    confidences in the 0-100 range. *)
Definition id_always_outranks (with_id without_id : string) (c1 c2 : Q) : Prop :=
  ImageProcessor._has_order_id with_id = true ->
  ImageProcessor._has_order_id without_id = false ->
  (0 <= c1 /\ c1 <= 100)%Q -> (0 <= c2 /\ c2 <= 100)%Q ->
  (ImageProcessor.score_of without_id c2 < ImageProcessor.score_of with_id c1)%Q.

(** The score kept in the state is the score of the kept candidate. *)
Definition score_consistent (st : ImageProcessor.SearchState) : Prop :=
  ImageProcessor.score st
  = ImageProcessor.score_of (ImageProcessor.best_text st)
                            (ImageProcessor.best_conf st).

(** The candidate kept in a state: what [find_best_crop] would return. *)
Definition kept (st : ImageProcessor.SearchState)
    : ImageProcessor.Image * string * Q * ImageProcessor.Image
      * option ImageProcessor.CropStrategy * Q :=
  (ImageProcessor.best_color st, ImageProcessor.best_text st,
   ImageProcessor.best_conf st, ImageProcessor.best_processed st,
   ImageProcessor.best_crop_params st, ImageProcessor.score st).

(** The crop of [image] by [crop_dict], when it is usable, does not
    score above [bound]. *)
Definition crop_never_beats
    (ocr_function : ImageProcessor.Image -> string * Q * ImageProcessor.Image)
    (image : ImageProcessor.Image) (bound : Q)
    (crop_dict : ImageProcessor.CropStrategy) : Prop :=
  forall cropped,
    ImageProcessor.apply_crop image crop_dict = Some cropped ->
    (ImageProcessor.score_of (ocr_function cropped).1.1 (ocr_function cropped).1.2
     <= bound)%Q.

(** *** Field sets, escalation and merge *)

Definition FIELD_KEYS : list string :=
  ["order_ids"; "prices"; "dates"; "totals"; "quantities"; "sellers";
   "tracking_numbers"; "items"].

(** All eight keys are present, and nothing else. *)
Definition is_field_set (d : gmap string (list string)) : Prop :=
  dom d = (list_to_set FIELD_KEYS : gset string).

(** The three signals of the hybrid policy. *)
Definition hybrid_condition (threshold : Q) (d : gmap string (list string))
    (ocr_conf : Q) : Prop :=
  (ocr_conf < threshold)%Q \/ items_of d "order_ids" = []
  \/ items_of d "items" = [].

(** The specification's merge: the AI list when non-empty, otherwise the
    local list, otherwise empty. *)
Definition merged_as_stated (local_values ai_values : list string)
    : list string :=
  match ai_values, local_values with
  | _ :: _, _ => ai_values
  | [], _ :: _ => local_values
  | [], [] => []
  end.

Definition local_only_ids : gmap string (list string) :=
  <["items" := []]> (<["tracking_numbers" := []]> (<["sellers" := []]>
  (<["quantities" := []]> (<["totals" := []]> (<["dates" := []]>
  (<["prices" := []]> (<["order_ids" := ["A"]]> ∅))))))).

Definition ai_only_items : gmap string (list string) :=
  <["items" := ["Widget"]]> (<["tracking_numbers" := []]> (<["sellers" := []]>
  (<["quantities" := []]> (<["totals" := []]> (<["dates" := []]>
  (<["prices" := []]> (<["order_ids" := []]> ∅))))))).

(** *** Item lines *)

(** The stop keywords the specification lists. *)
Definition stated_stop_keywords : list string :=
  ["total"; "shipping"; "tax"; "qty"; "sold by"; "order"; "delivery";
   "return"; "refund"; "customer"; "payment"; "credit"; "gift"].

(** A cleaned line is an item, for a minimum length and a keyword list. *)
Definition is_item (min_length : nat) (keywords : list string)
    (clean : string) : Prop :=
  (min_length <= String.length clean)%nat
  /\ DataExtractor.starts_upper clean = true
  /\ forall keyword, keyword ∈ keywords -> contains keyword (lower clean) = false.

(** The lines [extract_items] returns for [text], for a given rule:
    the cleaned forms of its non-blank lines that pass the rule. *)
Definition returns_exactly (rule : string -> Prop) (text : string) : Prop :=
  forall item,
    item ∈ DataExtractor.extract_items text
    <-> exists raw,
          raw ∈ split Re.newline text /\ strip raw <> ""
          /\ item = DataExtractor.clean_line (strip raw) /\ rule item.

(** The rule as the specification states it: cleaned length exceeding 15
    and none of the thirteen listed keywords. *)
Definition items_as_stated (text : string) : Prop :=
  returns_exactly (is_item 16 stated_stop_keywords) text.

(** De-duplication in first-seen order: [acc] holds the items seen. *)
Fixpoint first_seen (acc items : list string) : list string :=
  match items with
  | [] => acc
  | item :: rest =>
      if bool_decide (item ∈ acc) then first_seen acc rest
      else first_seen (acc ++ [item])%list rest
  end.

(** [result] lists [items] in the order of their first occurrences:
    whatever stands before the first occurrence of an element of the
    result stands before it in the result as well. *)
Definition in_first_seen_order (items result : list string) : Prop :=
  forall before item after,
    result = (before ++ item :: after)%list ->
    exists seen_before later,
      items = (seen_before ++ item :: later)%list
      /\ (item ∉ seen_before)
      /\ forall other, other ∈ seen_before -> other ∈ before.

(** *** Duplicate consolidation and recognition confidence *)

(** The result rows of two screenshots in which no order id was found:
    their ["Order IDs"] cell is the empty string. *)
Definition two_idless_rows : list DuplicateDetector.Row :=
  [DuplicateDetector.FullRow "a.png"
     (MeowzonExtractor.order_ids_cell (<["order_ids" := []]> ∅)) 60 None;
   DuplicateDetector.FullRow "b.png"
     (MeowzonExtractor.order_ids_cell (<["order_ids" := []]> ∅)) 90 None].

(** Two screenshots of one order; the second shows a further order id. *)
Definition same_first_id_rows : list DuplicateDetector.Row :=
  [DuplicateDetector.FullRow "a.png"
     (MeowzonExtractor.order_ids_cell
        {["order_ids" := ["111-1111111-1111111"]]}) 60 None;
   DuplicateDetector.FullRow "b.png"
     (MeowzonExtractor.order_ids_cell
        {["order_ids" := ["111-1111111-1111111"; "222-2222222-2222222"]]})
     90 None].

(** The specification's example: three records of one order with
    confidences 60, 90 and 75, and a fourth without order id. *)
Definition three_duplicates_and_one_idless : list DuplicateDetector.Row :=
  [DuplicateDetector.FullRow "a.png" "111-1111111-1111111" 60 None;
   DuplicateDetector.FullRow "b.png" "111-1111111-1111111" 90 None;
   DuplicateDetector.FullRow "c.png" "111-1111111-1111111" 75 None;
   DuplicateDetector.FullRow "d.png" "" 80 None].

(** An engine that reports one token of unknown confidence, as the
    integer -1, and one token of confidence 90. *)
Definition conf_with_integer_sentinel
    : ImageProcessor.Image -> option (list OCREngine.ConfValue) :=
  fun _ => Some [OCREngine.ConfInt (-1); OCREngine.ConfInt 90].

(** The same tokens, the unknown confidence being the string ['-1']. *)
Definition conf_with_string_sentinel
    : ImageProcessor.Image -> option (list OCREngine.ConfValue) :=
  fun _ => Some [OCREngine.ConfStr "-1"; OCREngine.ConfInt 90].

Definition text_order : ImageProcessor.Image -> option string :=
  fun _ => Some "Order".

Definition int_of_str_raises : string -> option Z := fun _ => None.

End Claims.

(** ** Sample inputs *)

Module Samples.

(** A recognized text with an order id and one item line. *)
Definition order_with_item_text : string :=
  String.append "Order # 123-4567890-1234567"
    (String Re.newline "Super Deluxe Gadget 3000").

(** A [strptime] that rejects everything. *)
Definition strptime_rejects : string -> option string := fun _ => None.

(** [str] on the values that are strings already. *)
Definition str_of_strings : AIProvider.json -> string :=
  fun v => match v with AIProvider.JStr s => s | _ => "" end.

(** An AI answer that gives only the order id. *)
Definition ai_answer_with_id : AIProvider.json :=
  AIProvider.JObj [("order_id", AIProvider.JStr "999-7654321-7654321");
                   ("items", AIProvider.JArr [])].

(** A JSON reader that knows the empty object only. *)
Definition reads_empty_object (s : string) : option AIProvider.json :=
  if String.eqb s "{}" then Some (AIProvider.JObj []) else None.

(** A recognizer that reads the sample text from every image. *)
Definition reads_sample_text
    : ImageProcessor.Image -> string * Q * ImageProcessor.Image :=
  fun image => (order_with_item_text, 80%Q, image).

(** Every row of the image has [width] pixels. *)
Definition rectangular (image : ImageProcessor.Image) : Prop :=
  Forall (fun row => length row = length (hd [] image)) image.

(** The margins of a strategy are not negative. *)
Definition margins_nonneg (crop_params : ImageProcessor.CropStrategy) : Prop :=
  (0 <= ImageProcessor.top crop_params)%Q
  /\ (0 <= ImageProcessor.bottom crop_params)%Q
  /\ (0 <= ImageProcessor.left crop_params)%Q
  /\ (0 <= ImageProcessor.right crop_params)%Q.

(** The candidate kept in a search state is genuine: it is what the
    recognizer reads from the kept image, that image was recognized, and
    it is the full image or the crop of the kept strategy. *)
Definition genuine_candidate
    (ocr_function : ImageProcessor.Image -> string * Q * ImageProcessor.Image)
    (crop_strategies : list ImageProcessor.CropStrategy)
    (image : ImageProcessor.Image) (st : ImageProcessor.SearchState) : Prop :=
  ocr_function (ImageProcessor.best_color st)
  = (ImageProcessor.best_text st, ImageProcessor.best_conf st,
     ImageProcessor.best_processed st)
  /\ ImageProcessor.best_color st ∈ ImageProcessor.ocr_calls st
  /\ match ImageProcessor.best_crop_params st with
     | None => ImageProcessor.best_color st = image
     | Some crop_dict =>
         crop_dict ∈ crop_strategies
         /\ ImageProcessor.apply_crop image crop_dict
            = Some (ImageProcessor.best_color st)
     end.

(** A confidence cell is the string ['-1'] or an integer from [lo] to
    100. *)
Definition conf_cell_in_range (lo : Z) (c : OCREngine.ConfValue) : Prop :=
  match c with
  | OCREngine.ConfStr s => s = "-1"
  | OCREngine.ConfInt n => (lo <= n <= 100)%Z
  end.

End Samples.

(** * Properties *)

Import PyStr Re.

(** ** The matcher never runs out of fuel *)

Section Fuel.
Import DataExtractor.

Lemma flat_map_agree {A B} (f g : A -> list B) (l : list A) :
  (forall x, In x l -> f x = g x) -> flat_map f l = flat_map g l.
Proof.
  induction l as [|a l IH]; intros H; simpl; [reflexivity|].
  rewrite (H a), IH; [reflexivity | | left; reflexivity].
  intros x Hx. apply H. right. exact Hx.
Qed.

Lemma rep_ends_le (step : string -> list string) :
  (forall s s', In s' (step s) -> String.length s' <= String.length s) ->
  forall fuel lo hi greedy s s',
    In s' (rep_ends step fuel lo hi greedy s) ->
    String.length s' <= String.length s.
Proof.
  intros Hstep. induction fuel as [|fuel IH]; intros lo hi greedy s s' Hin.
  - simpl in Hin. destruct lo; simpl in Hin; [|contradiction].
    destruct Hin as [<-|[]]. reflexivity.
  - simpl in Hin.
    assert (Hmore : In s' (flat_map (rep_ends step fuel (Nat.pred lo)
                                       (Nat.pred <$> hi) greedy) (step s)) ->
                    String.length s' <= String.length s).
    { intros H. apply in_flat_map in H as (s1 & H1 & H2).
      apply Hstep in H1. apply IH in H2. lia. }
    assert (Hmore' : In s' match hi with
                           | Some O => []
                           | _ => flat_map (rep_ends step fuel (Nat.pred lo)
                                              (Nat.pred <$> hi) greedy) (step s)
                           end ->
                     String.length s' <= String.length s).
    { destruct hi as [[|n]|]; [intros [] | exact Hmore | exact Hmore]. }
    destruct lo; [|exact (Hmore' Hin)].
    destruct greedy.
    + apply in_app_or in Hin as [H|[<-|[]]]; [exact (Hmore' H) | reflexivity].
    + destruct Hin as [<-|H]; [reflexivity | exact (Hmore' H)].
Qed.

Lemma ends_le (ic : bool) (n : nat) (r : regex) :
  forall s s', In s' (ends ic n r s) -> String.length s' <= String.length s.
Proof.
  induction r as [| c | p | | | | r1 IH1 r2 IH2 | r1 IH1 r2 IH2 | lo hi g r IH];
    intros s s' Hin; [simpl in Hin .. |].
  - destruct Hin as [<-|[]]. reflexivity.
  - destruct s as [|a s]; [contradiction|].
    destruct (lit_matches ic c a); [|contradiction].
    destruct Hin as [<-|[]]. simpl. lia.
  - destruct s as [|a s]; [contradiction|].
    destruct (cls_matches ic p a); [|contradiction].
    destruct Hin as [<-|[]]. simpl. lia.
  - destruct s as [|a s]; [contradiction|].
    destruct (Ascii.eqb a newline); [contradiction|].
    destruct Hin as [<-|[]]. simpl. lia.
  - destruct (Nat.eqb (String.length s) n); [|contradiction].
    destruct Hin as [<-|[]]. reflexivity.
  - destruct s as [|a [|b s]]; try contradiction.
    + destruct Hin as [<-|[]]. reflexivity.
    + destruct (Ascii.eqb a newline); [|contradiction].
      destruct Hin as [<-|[]]. reflexivity.
  - apply in_flat_map in Hin as (s1 & H1 & H2).
    apply IH1 in H1. apply IH2 in H2. lia.
  - apply in_app_or in Hin as [H|H]; [apply IH1 | apply IH2]; exact H.
  - eapply rep_ends_le; [exact IH | exact Hin].
Qed.

Lemma ends_lt (ic : bool) (n : nat) (r : regex) :
  consumes r = true ->
  forall s s', In s' (ends ic n r s) -> String.length s' < String.length s.
Proof.
  induction r as [| c | p | | | | r1 IH1 r2 IH2 | r1 IH1 r2 IH2 | lo hi g r IH];
    intros Hc s s' Hin; simpl in Hc; try discriminate;
    [simpl in Hin .. |].
  - destruct s as [|a s]; [contradiction|].
    destruct (lit_matches ic c a); [|contradiction].
    destruct Hin as [<-|[]]. simpl. lia.
  - destruct s as [|a s]; [contradiction|].
    destruct (cls_matches ic p a); [|contradiction].
    destruct Hin as [<-|[]]. simpl. lia.
  - destruct s as [|a s]; [contradiction|].
    destruct (Ascii.eqb a newline); [contradiction|].
    destruct Hin as [<-|[]]. simpl. lia.
  - apply in_flat_map in Hin as (s1 & H1 & H2).
    pose proof (ends_le ic n r1 _ _ H1). pose proof (ends_le ic n r2 _ _ H2).
    apply orb_true_iff in Hc as [Hc|Hc].
    + specialize (IH1 Hc _ _ H1). lia.
    + specialize (IH2 Hc _ _ H2). lia.
  - apply andb_true_iff in Hc as [Hc1 Hc2].
    apply in_app_or in Hin as [H|H]; [apply IH1 | apply IH2]; assumption.
  - apply andb_true_iff in Hc as [Hlo Hc]. apply Nat.ltb_lt in Hlo.
    destruct lo as [|lo]; [lia|].
    change (In s' (rep_ends (ends ic n r) (S (String.length s + S lo)) (S lo)
                     hi g s)) in Hin.
    simpl in Hin.
    assert (Hmore : In s' (flat_map
                      (rep_ends (ends ic n r) (String.length s + S lo) lo
                         (Nat.pred <$> hi) g) (ends ic n r s))).
    { destruct hi as [[|h]|]; [contradiction | exact Hin | exact Hin]. }
    apply in_flat_map in Hmore as (s1 & H1 & H2).
    specialize (IH Hc _ _ H1).
    apply (rep_ends_le _ (ends_le ic n r)) in H2. lia.
Qed.

(** Any fuel above the length of the subject plus [lo] gives the same
    iteration of a consuming body. *)
Lemma rep_ends_fuel (step : string -> list string) :
  (forall s s', In s' (step s) -> String.length s' < String.length s) ->
  forall fuel fuel' lo hi greedy s,
    String.length s + lo < fuel -> String.length s + lo < fuel' ->
    rep_ends step fuel lo hi greedy s = rep_ends step fuel' lo hi greedy s.
Proof.
  intros Hstep. induction fuel as [|fuel IH]; intros fuel' lo hi greedy s H1 H2;
    [lia|].
  destruct fuel' as [|fuel']; [lia|]. simpl.
  assert (Hmore : flat_map (rep_ends step fuel (Nat.pred lo) (Nat.pred <$> hi)
                              greedy) (step s)
                  = flat_map (rep_ends step fuel' (Nat.pred lo)
                                (Nat.pred <$> hi) greedy) (step s)).
  { apply flat_map_agree. intros s1 Hs1. apply Hstep in Hs1.
    apply IH; lia. }
  rewrite Hmore. reflexivity.
Qed.

Lemma ends_rep_fuel (ic : bool) (n : nat) (lo : nat) (hi : option nat)
    (greedy : bool) (r : regex) (s : string) (fuel : nat) :
  consumes r = true -> String.length s + lo < fuel ->
  ends ic n (Rep lo hi greedy r) s
  = rep_ends (ends ic n r) fuel lo hi greedy s.
Proof.
  intros Hc Hfuel.
  change (rep_ends (ends ic n r) (S (String.length s + lo)) lo hi greedy s
          = rep_ends (ends ic n r) fuel lo hi greedy s).
  apply rep_ends_fuel; [apply ends_lt; exact Hc | lia | lia].
Qed.

(** Every loop of every pattern of the extractor has a consuming body. *)
Lemma patterns_loops_consume :
  forallb (fun p => loops_consume (pre p)
                    && from_option loops_consume true (grp p)
                    && loops_consume (post p))
    [ORDER_ID_PATTERN; PRICE_PATTERN; DATE_PATTERN; TOTAL_PATTERN;
     QUANTITY_PATTERN; SELLER_PATTERN; TRACKING_PATTERN; ITEM_NOISE_PATTERN]
  = true.
Proof. vm_compute. reflexivity. Qed.

(** The scans stop before their fuel does. *)
Lemma findall_from_fuel (p : pattern) (n : nat) :
  forall fuel fuel' s,
    String.length s < fuel -> String.length s < fuel' ->
    findall_from fuel p n s = findall_from fuel' p n s.
Proof.
  induction fuel as [|fuel IH]; intros fuel' s H1 H2; [lia|].
  destruct fuel' as [|fuel']; [lia|]. simpl.
  assert (Hskip : match s with
                  | EmptyString => []
                  | String _ s' => findall_from fuel p n s'
                  end
                  = match s with
                    | EmptyString => []
                    | String _ s' => findall_from fuel' p n s'
                    end).
  { destruct s as [|c s']; [reflexivity|]. simpl in H1, H2. apply IH; lia. }
  rewrite Hskip.
  destruct (match_here p n s) as [[x rest]|]; [|reflexivity].
  destruct (Nat.ltb (String.length rest) (String.length s)) eqn:E;
    [|reflexivity].
  apply Nat.ltb_lt in E. f_equal. apply IH; lia.
Qed.

Lemma sub_from_fuel (p : pattern) (n : nat) :
  forall fuel fuel' s,
    String.length s < fuel -> String.length s < fuel' ->
    sub_from fuel p n s = sub_from fuel' p n s.
Proof.
  induction fuel as [|fuel IH]; intros fuel' s H1 H2; [lia|].
  destruct fuel' as [|fuel']; [lia|]. simpl.
  assert (Hkeep : match s with
                  | EmptyString => EmptyString
                  | String c s' => String c (sub_from fuel p n s')
                  end
                  = match s with
                    | EmptyString => EmptyString
                    | String c s' => String c (sub_from fuel' p n s')
                    end).
  { destruct s as [|c s']; [reflexivity|]. simpl in H1, H2.
    f_equal. apply IH; lia. }
  rewrite Hkeep.
  destruct (match_here p n s) as [[x rest]|]; [|reflexivity].
  destruct (Nat.ltb (String.length rest) (String.length s)) eqn:E;
    [|reflexivity].
  apply Nat.ltb_lt in E. apply IH; lia.
Qed.

(** The order-id validity examples of the specification; [$] also
    accepts one final newline. *)
Example validate_order_id_examples :
  DataValidator.validate_order_id "123-4567890-1234567" = true
  /\ DataValidator.validate_order_id "12-4567890-1234567" = false
  /\ DataValidator.validate_order_id
       (String.append "123-4567890-1234567" (String newline "")) = true.
Proof. repeat split; vm_compute; reflexivity. Qed.

End Fuel.

Local Open Scope Q_scope.

(** ** Confidence score *)

Section Confidence.
Import DataValidator Claims.

Lemma get_truthy_items_of (d : gmap string (list string)) (k : string) :
  get_truthy d k = truthy (items_of d k).
Proof.
  unfold get_truthy, items_of. destruct (d !! k) as [l|]; reflexivity.
Qed.

Lemma item_points_bounds (items : list string) :
  0 <= item_points items /\ item_points items <= 20.
Proof.
  unfold item_points, bonus. destruct (truthy items).
  - split.
    + change 0 with (inject_Z 0). rewrite <- Zle_Qle. lia.
    + change 20 with (inject_Z 20). rewrite <- Zle_Qle. lia.
  - split; discriminate.
Qed.

Lemma bonus_bounds (b : bool) (p : Q) : 0 <= p -> 0 <= bonus b p /\ bonus b p <= p.
Proof.
  intros Hp. unfold bonus. destruct b; split; auto using Qle_refl.
Qed.

Lemma calculate_confidence_unfold (d : gmap string (list string)) (c : Q) :
  calculate_confidence d c == Qmin (raw_sum (first_id_valid d) d c) 100.
Proof.
  unfold calculate_confidence, raw_sum, first_id_valid, item_points, bonus.
  rewrite !get_truthy_items_of.
  rewrite (Z.mul_comm 5).
  destruct (items_of d "order_ids") as [|first ids]; simpl truthy; cbv iota;
    [| destruct (validate_order_id first)];
    destruct (truthy (items_of d "items"));
    destruct (truthy (items_of d "totals"));
    destruct (truthy (items_of d "dates"));
    apply Q.min_compat; try reflexivity; ring.
Qed.

Lemma raw_sum_nonneg (b : bool) (d : gmap string (list string)) (c : Q) :
  0 <= c -> 0 <= raw_sum b d c.
Proof.
  intros Hc. unfold raw_sum.
  pose proof (item_points_bounds (items_of d "items")) as [Hi _].
  pose proof (bonus_bounds b 25) as [H1 _]; [discriminate|].
  pose proof (bonus_bounds (truthy (items_of d "totals")) 10) as [H2 _];
    [discriminate|].
  pose proof (bonus_bounds (truthy (items_of d "dates")) 5) as [H3 _];
    [discriminate|].
  lra.
Qed.

Lemma raw_sum_mono (b : bool) (d : gmap string (list string)) (c c' : Q) :
  c <= c' -> raw_sum b d c <= raw_sum b d c'.
Proof. intros Hc. unfold raw_sum. lra. Qed.

(** C1 (amended).  For every extracted-data mapping and every
    ocrConfidence in [0,100] (indeed every non-negative one),
    [calculate_confidence] returns 0.4 * ocrConfidence, plus 25 if the
    FIRST element of order_ids is a valid order id, plus
    min(5 * number of items, 20) if items is non-empty, plus 10 if any
    total is present, plus 5 if any date is present, clamped to [0,100];
    the result lies in [0,100], is monotonic in ocrConfidence for fixed
    field content, and is exactly 100 whenever the raw sum reaches or
    exceeds 100. *)
Theorem calculate_confidence_formula (d : gmap string (list string)) (c c' : Q) :
  0 <= c -> c <= c' ->
  calculate_confidence d c == clamp (raw_sum (first_id_valid d) d c)
  /\ (0 <= calculate_confidence d c /\ calculate_confidence d c <= 100)
  /\ calculate_confidence d c <= calculate_confidence d c'
  /\ (100 <= raw_sum (first_id_valid d) d c -> calculate_confidence d c == 100).
Proof.
  intros Hc0 Hle.
  pose proof (raw_sum_nonneg (first_id_valid d) d c Hc0) as Hraw.
  assert (Hmin : 0 <= Qmin (raw_sum (first_id_valid d) d c) 100).
  { apply Q.min_glb; [exact Hraw | discriminate]. }
  repeat split.
  - rewrite calculate_confidence_unfold. unfold clamp.
    symmetry. apply Q.max_r. exact Hmin.
  - rewrite calculate_confidence_unfold. exact Hmin.
  - rewrite calculate_confidence_unfold. apply Q.le_min_r.
  - rewrite !calculate_confidence_unfold.
    apply Q.min_le_compat_r. apply raw_sum_mono. exact Hle.
  - intros Hbig. rewrite calculate_confidence_unfold.
    apply Q.min_r. exact Hbig.
Qed.

Lemma calculate_confidence_formula_witness :
  (0 <= 50 /\ 50 <= 100)
  /\ (calculate_confidence complete_order 50
        == clamp (raw_sum (first_id_valid complete_order) complete_order 50)
      /\ (0 <= calculate_confidence complete_order 50
          /\ calculate_confidence complete_order 50 <= 100)
      /\ calculate_confidence complete_order 50
          <= calculate_confidence complete_order 100
      /\ (100 <= raw_sum (first_id_valid complete_order) complete_order 50 ->
          calculate_confidence complete_order 50 == 100)).
Proof.
  split.
  - split; unfold Qle; simpl; lia.
  - apply (calculate_confidence_formula complete_order 50 100);
      unfold Qle; simpl; lia.
Defined.

(** The specification's reading, "a valid order id is present among the
    order ids", differs from the code when only a later id is valid: the
    code scores 0, the stated formula 25. *)
Lemma calculate_confidence_first_id_only :
  ~ (calculate_confidence second_id_valid 0
       == confidence_as_stated second_id_valid 0).
Proof. vm_compute. discriminate. Qed.

(** The specification's example: confidence 100, a valid id, five items,
    a total and a date add up to exactly 100. *)
Example calculate_confidence_saturates :
  calculate_confidence complete_order 100 == 100
  /\ raw_sum (first_id_valid complete_order) complete_order 100 == 100.
Proof. split; vm_compute; reflexivity. Qed.

End Confidence.

(** ** Crop search *)

Section CropSearch.
Import ImageProcessor Claims.

Lemma Qgtb_true (a b : Q) : Qgtb a b = true <-> b < a.
Proof.
  unfold Qgtb. rewrite negb_true_iff. split.
  - intros H. apply Qnot_le_lt. intros Hle.
    apply Qle_bool_iff in Hle. congruence.
  - intros H. destruct (Qle_bool a b) eqn:E; [|reflexivity].
    apply Qle_bool_iff in E. exfalso. exact (Qlt_not_le _ _ H E).
Qed.

Lemma Qgtb_false (a b : Q) : Qgtb a b = false <-> a <= b.
Proof.
  unfold Qgtb. rewrite negb_false_iff. apply Qle_bool_iff.
Qed.

Lemma very_confident_true (threshold : Q) (text : string) (conf : Q) :
  very_confident threshold text conf = true
  <-> threshold <= conf /\ _has_order_id text = true.
Proof.
  unfold very_confident. rewrite andb_true_iff, Qle_bool_iff. reflexivity.
Qed.

Variable ocr_function : Image -> string * Q * Image.

Lemma full_image_state_consistent (image : Image) :
  score_consistent (full_image_state ocr_function image).
Proof.
  unfold score_consistent, full_image_state.
  destruct (ocr_function image) as [[text conf] processed]. reflexivity.
Qed.

Lemma try_crop_consistent image threshold st crop_dict :
  score_consistent st ->
  score_consistent (fst (try_crop ocr_function image threshold st crop_dict)).
Proof.
  intros Hst. unfold try_crop.
  destruct (apply_crop image crop_dict) as [cropped|]; [|exact Hst].
  destruct (ocr_function cropped) as [[text conf] processed].
  destruct (Qgtb (score_of text conf) (score st)); [reflexivity | exact Hst].
Qed.

Lemma crop_loop_consistent image threshold crop_strategies st :
  score_consistent st ->
  score_consistent (crop_loop ocr_function image threshold crop_strategies st).
Proof.
  revert st. induction crop_strategies as [|crop_dict rest IH]; intros st Hst.
  - exact Hst.
  - simpl. pose proof (try_crop_consistent image threshold st crop_dict Hst) as H.
    destruct (try_crop ocr_function image threshold st crop_dict) as [st' brk].
    destruct brk; [exact H | apply IH; exact H].
Qed.

(** The running score never decreases. *)
Lemma try_crop_score_le image threshold st crop_dict :
  score st <= score (fst (try_crop ocr_function image threshold st crop_dict)).
Proof.
  unfold try_crop.
  destruct (apply_crop image crop_dict) as [cropped|]; [|apply Qle_refl].
  destruct (ocr_function cropped) as [[text conf] processed].
  destruct (Qgtb (score_of text conf) (score st)) eqn:E; simpl.
  - apply Qgtb_true in E. apply Qlt_le_weak. exact E.
  - apply Qle_refl.
Qed.

Lemma crop_loop_score_le image threshold crop_strategies st :
  score st <= score (crop_loop ocr_function image threshold crop_strategies st).
Proof.
  revert st. induction crop_strategies as [|crop_dict rest IH]; intros st.
  - apply Qle_refl.
  - simpl. pose proof (try_crop_score_le image threshold st crop_dict) as H.
    destruct (try_crop ocr_function image threshold st crop_dict) as [st' brk].
    destruct brk; [exact H |].
    eapply Qle_trans; [exact H | apply IH].
Qed.

Lemma try_crop_params_some image threshold st crop_dict :
  is_Some (best_crop_params st) ->
  is_Some (best_crop_params
             (fst (try_crop ocr_function image threshold st crop_dict))).
Proof.
  intros Hst. unfold try_crop.
  destruct (apply_crop image crop_dict) as [cropped|]; [|exact Hst].
  destruct (ocr_function cropped) as [[text conf] processed].
  destruct (Qgtb (score_of text conf) (score st)); simpl; [eauto | exact Hst].
Qed.

Lemma crop_loop_params_some image threshold crop_strategies st :
  is_Some (best_crop_params st) ->
  is_Some (best_crop_params
             (crop_loop ocr_function image threshold crop_strategies st)).
Proof.
  revert st. induction crop_strategies as [|crop_dict rest IH]; intros st Hst.
  - exact Hst.
  - simpl.
    pose proof (try_crop_params_some image threshold st crop_dict Hst) as H.
    destruct (try_crop ocr_function image threshold st crop_dict) as [st' brk].
    destruct brk; [exact H | apply IH; exact H].
Qed.

(** A crop that does not beat the running best leaves it in place and
    does not stop the loop. *)
Lemma try_crop_not_beaten image threshold st crop_dict :
  crop_never_beats ocr_function image (score st) crop_dict ->
  kept (fst (try_crop ocr_function image threshold st crop_dict)) = kept st
  /\ snd (try_crop ocr_function image threshold st crop_dict) = false.
Proof.
  intros Hle. unfold try_crop, crop_never_beats in *.
  destruct (apply_crop image crop_dict) as [cropped|]; [|split; reflexivity].
  specialize (Hle cropped eq_refl).
  destruct (ocr_function cropped) as [[text conf] processed]. simpl in Hle.
  apply Qgtb_false in Hle. rewrite Hle. split; reflexivity.
Qed.

Lemma crop_loop_not_beaten image threshold crop_strategies st :
  Forall (crop_never_beats ocr_function image (score st)) crop_strategies ->
  kept (crop_loop ocr_function image threshold crop_strategies st) = kept st.
Proof.
  revert st. induction crop_strategies as [|crop_dict rest IH]; intros st Hall.
  - reflexivity.
  - inversion Hall as [|? ? Hhead Hrest]; subst. simpl.
    destruct (try_crop_not_beaten image threshold st crop_dict Hhead)
      as [Hkept Hbrk].
    destruct (try_crop ocr_function image threshold st crop_dict) as [st' brk].
    simpl in Hkept, Hbrk. subst brk.
    rewrite IH; [exact Hkept |].
    assert (Hs : score st' = score st) by (injection Hkept; auto).
    rewrite Hs. exact Hrest.
Qed.

(** Conversely, if no strategy is recorded at the end, none was recorded
    at the start and no usable crop beat the running best. *)
Lemma crop_loop_params_none image threshold crop_strategies st :
  best_crop_params (crop_loop ocr_function image threshold crop_strategies st)
    = None ->
  Forall (crop_never_beats ocr_function image (score st)) crop_strategies.
Proof.
  revert st. induction crop_strategies as [|crop_dict rest IH]; intros st Hnone.
  - constructor.
  - simpl in Hnone.
    pose proof (try_crop_params_some image threshold st crop_dict) as Hsome.
    unfold try_crop in Hnone, Hsome.
    destruct (apply_crop image crop_dict) as [cropped|] eqn:Hcrop.
    + destruct (ocr_function cropped) as [[text conf] processed] eqn:Hocr.
      destruct (Qgtb (score_of text conf) (score st)) eqn:Hgt.
      * exfalso.
        assert (Hs : is_Some (best_crop_params
                  (crop_loop ocr_function image threshold rest
                     {| best_color := cropped; best_text := text;
                        best_conf := conf; best_processed := processed;
                        best_crop_params := Some crop_dict;
                        score := score_of text conf;
                        ocr_calls := (ocr_calls st ++ [cropped])%list |}))).
        { apply crop_loop_params_some. simpl. eauto. }
        destruct (very_confident threshold text conf).
        -- simpl in Hnone. discriminate.
        -- rewrite Hnone in Hs. destruct Hs as [? Hs]. discriminate.
      * constructor.
        -- intros cropped' Hcrop'. rewrite Hcrop in Hcrop'.
           injection Hcrop' as <-. rewrite Hocr. simpl.
           apply Qgtb_false. exact Hgt.
        -- apply IH in Hnone. exact Hnone.
    + constructor.
      * intros cropped' Hcrop'. rewrite Hcrop in Hcrop'. discriminate.
      * apply IH. exact Hnone.
Qed.

Lemma full_image_state_kept (image : Image) :
  best_color (full_image_state ocr_function image) = image
  /\ best_crop_params (full_image_state ocr_function image) = None
  /\ ocr_calls (full_image_state ocr_function image) = [image]
  /\ best_text (full_image_state ocr_function image) = (ocr_function image).1.1
  /\ best_conf (full_image_state ocr_function image) = (ocr_function image).1.2
  /\ best_processed (full_image_state ocr_function image) = (ocr_function image).2.
Proof.
  unfold full_image_state.
  destruct (ocr_function image) as [[text conf] processed].
  repeat split.
Qed.

(** C3 (amended).  [find_best_crop] returns immediately after evaluating
    a candidate whenever that candidate's CONFIDENCE, without the +100
    bonus, meets confidenceThreshold and an order id was found in its
    text: for the full image unconditionally (only the full image is
    recognized, and it is returned with no strategy); for a crop strategy
    when its score also strictly exceeds the running best (that crop is
    returned and none of the remaining strategies is attempted). *)
Theorem early_exit_on_confidence (crop_strategies : list CropStrategy)
    (image : Image) (threshold : Q) (text : string) (conf : Q)
    (processed : Image) :
  threshold <= conf -> _has_order_id text = true ->
  (ocr_function image = (text, conf, processed) ->
     find_best_crop ocr_function crop_strategies image threshold
       = (image, text, conf, processed, None)
     /\ ocr_calls (find_best_crop_state ocr_function crop_strategies image
                     threshold) = [image])
  /\ (forall st crop_dict rest cropped,
        apply_crop image crop_dict = Some cropped ->
        ocr_function cropped = (text, conf, processed) ->
        score st < score_of text conf ->
        crop_loop ocr_function image threshold (crop_dict :: rest) st
        = {| best_color := cropped; best_text := text; best_conf := conf;
             best_processed := processed; best_crop_params := Some crop_dict;
             score := score_of text conf;
             ocr_calls := (ocr_calls st ++ [cropped])%list |}).
Proof.
  intros Hconf Hid.
  assert (Hvc : very_confident threshold text conf = true).
  { apply very_confident_true. split; assumption. }
  split.
  - intros Hocr.
    unfold find_best_crop, find_best_crop_state, full_image_state.
    rewrite Hocr. simpl. rewrite Hvc. simpl. split; reflexivity.
  - intros st crop_dict rest cropped Hcrop Hocr Hgt.
    simpl. unfold try_crop. rewrite Hcrop, Hocr.
    apply Qgtb_true in Hgt. rewrite Hgt, Hvc. reflexivity.
Qed.

(** C10.  The result of [find_best_crop] never scores below the
    full-image attempt; the returned strategy is [None] exactly when no
    crop strategy strictly exceeded the running best (the search stopped
    at the full image, or every usable crop scored at most the full
    image's score), and then the returned image, text, confidence and
    processed image are those of the full-image attempt. *)
Theorem find_best_crop_never_below_full (crop_strategies : list CropStrategy)
    (image : Image) (threshold : Q) :
  let full := full_image_state ocr_function image in
  let full_score := score_of (best_text full) (best_conf full) in
  let '(color, text, conf, processed, params) :=
    find_best_crop ocr_function crop_strategies image threshold in
  full_score <= score_of text conf
  /\ (params = None <->
      very_confident threshold (best_text full) (best_conf full) = true
      \/ Forall (crop_never_beats ocr_function image full_score) crop_strategies)
  /\ (params = None ->
      (color, text, conf, processed)
      = (image, best_text full, best_conf full, best_processed full)).
Proof.
  intros full full_score. unfold find_best_crop, find_best_crop_state.
  fold full.
  pose proof (full_image_state_consistent image) as Hcons. fold full in Hcons.
  destruct (full_image_state_kept image) as (Hcolor & Hparams & _).
  fold full in Hcolor, Hparams.
  destruct (very_confident threshold (best_text full) (best_conf full)) eqn:Hvc.
  - split; [apply Qle_refl|]. split.
    + split; [intros _; left; reflexivity | intros _; exact Hparams].
    + intros _. rewrite Hcolor. reflexivity.
  - assert (Hback : Forall (crop_never_beats ocr_function image full_score)
                      crop_strategies ->
              kept (crop_loop ocr_function image threshold crop_strategies full)
              = kept full).
    { intros Hall. apply crop_loop_not_beaten.
      rewrite Hcons. exact Hall. }
    assert (Hforth : best_crop_params
                (crop_loop ocr_function image threshold crop_strategies full)
                = None ->
              Forall (crop_never_beats ocr_function image full_score)
                crop_strategies).
    { intros Hnone. apply crop_loop_params_none in Hnone.
      rewrite Hcons in Hnone. exact Hnone. }
    split; [|split].
    + pose proof (crop_loop_score_le image threshold crop_strategies full) as Hle.
      rewrite (crop_loop_consistent image threshold crop_strategies full Hcons)
        in Hle.
      rewrite Hcons in Hle. exact Hle.
    + split.
      * intros Hnone. right. apply Hforth. exact Hnone.
      * intros [Habs | Hall]; [discriminate|].
        apply Hback in Hall. unfold kept in Hall.
        injection Hall as _ _ _ _ Hp _. rewrite Hp. exact Hparams.
    + intros Hnone. apply Hforth in Hnone. apply Hback in Hnone.
      unfold kept in Hnone. injection Hnone as Hc Ht Hcf Hpr _ _.
      rewrite Hc, Ht, Hcf, Hpr, Hcolor. reflexivity.
Qed.

End CropSearch.

Section CropSearchExamples.
Import ImageProcessor Claims Config.

(** C7 (amended).  With score = confidence, plus 100 when the text
    contains an order id, and confidences in the 0-100 range, a candidate
    with an order id never scores below a candidate without one, and
    scores strictly above it except in the single tie where the id-bearing
    candidate has confidence 0 and the other confidence 100 (both score
    100); in particular confidence 60 with an id (score 160) outranks
    confidence 95 without (score 95). *)
Theorem order_id_bonus_dominates (with_id without_id : string) (c1 c2 : Q) :
  _has_order_id with_id = true -> _has_order_id without_id = false ->
  0 <= c1 -> c2 <= 100 ->
  score_of without_id c2 <= score_of with_id c1
  /\ (0 < c1 \/ c2 < 100 -> score_of without_id c2 < score_of with_id c1)
  /\ (score_of with_id 60 == 160 /\ score_of without_id 95 == 95
      /\ score_of without_id 95 < score_of with_id 60).
Proof.
  intros Hid Hno Hc1 Hc2. unfold score_of. rewrite Hid, Hno.
  split; [lra|]. split; [intros [H|H]; lra|].
  split; [reflexivity|]. split; [reflexivity|]. reflexivity.
Qed.

Lemma order_id_bonus_dominates_witness :
  (_has_order_id "Order # 123-4567890-1234567" = true
   /\ _has_order_id "Your Orders" = false /\ 0 <= 60 /\ 95 <= 100)
  /\ (score_of "Your Orders" 95 <= score_of "Order # 123-4567890-1234567" 60
      /\ (0 < 60 \/ 95 < 100 ->
          score_of "Your Orders" 95 < score_of "Order # 123-4567890-1234567" 60)
      /\ (score_of "Order # 123-4567890-1234567" 60 == 160
          /\ score_of "Your Orders" 95 == 95
          /\ score_of "Your Orders" 95
              < score_of "Order # 123-4567890-1234567" 60)).
Proof.
  split.
  - split; [vm_compute; reflexivity|]. split; [vm_compute; reflexivity|].
    split; unfold Qle; simpl; lia.
  - apply (order_id_bonus_dominates "Order # 123-4567890-1234567" "Your Orders"
             60 95);
      [vm_compute; reflexivity | vm_compute; reflexivity
      | unfold Qle; simpl; lia | unfold Qle; simpl; lia].
Defined.

(** At confidence 0 with an id against confidence 100 without, both
    candidates score 100: the id does not outrank. *)
Lemma order_id_tie_at_the_edge :
  ~ id_always_outranks "Order # 123-4567890-1234567" "Your Orders" 0 100.
Proof.
  unfold id_always_outranks. intros H.
  assert (Hlt : score_of "Your Orders" 100
                < score_of "Order # 123-4567890-1234567" 0).
  { apply H; [vm_compute; reflexivity | vm_compute; reflexivity
             | split; unfold Qle; simpl; lia | split; unfold Qle; simpl; lia]. }
  vm_compute in Hlt. discriminate.
Qed.

(** The same tie inside the search: every crop shows the order id, with
    confidence 0, and the id-less full image is returned. *)
Example find_best_crop_keeps_idless_full_image :
  find_best_crop ocr_id_only_when_cropped default_crop_strategies
    (blank 100 100) 70
  = (blank 100 100, "Your Orders", 100, blank 100 100, None).
Proof. vm_compute. reflexivity. Qed.

Lemma early_exit_on_confidence_witness :
  (70 <= 80 /\ _has_order_id "Order # 123-4567890-1234567" = true)
  /\ find_best_crop (ocr_constant "Order # 123-4567890-1234567" 80)
       default_crop_strategies (blank 100 100) 70
     = (blank 100 100, "Order # 123-4567890-1234567", 80, blank 100 100, None)
  /\ ocr_calls (find_best_crop_state
                  (ocr_constant "Order # 123-4567890-1234567" 80)
                  default_crop_strategies (blank 100 100) 70)
     = [blank 100 100].
Proof.
  split.
  - split; [unfold Qle; simpl; lia | vm_compute; reflexivity].
  - apply (early_exit_on_confidence
             (ocr_constant "Order # 123-4567890-1234567" 80)
             default_crop_strategies (blank 100 100) 70
             "Order # 123-4567890-1234567" 80 (blank 100 100));
      [unfold Qle; simpl; lia | vm_compute; reflexivity | reflexivity].
Defined.

(** With an order id and confidence 50 the full image scores 150, above
    the threshold 70, yet the search goes on to the crops. *)
Lemma no_exit_on_score_alone :
  ~ exits_on_score (ocr_constant "Order # 123-4567890-1234567" 50)
      default_crop_strategies (blank 100 100) 70.
Proof.
  unfold exits_on_score, ocr_constant. intros H.
  assert (Hcalls : length (ocr_calls (find_best_crop_state
            (fun image => ("Order # 123-4567890-1234567", 50, image))
            default_crop_strategies (blank 100 100) 70)) = 1%nat).
  { rewrite H; [reflexivity | vm_compute; reflexivity
               | vm_compute; discriminate]. }
  vm_compute in Hcalls. discriminate.
Qed.

End CropSearchExamples.

(** ** Escalation policy and merge *)

Section EscalationAndMerge.
Import DataValidator MeowzonExtractor Config Claims.

Lemma truthy_false_iff {A} (l : list A) : truthy l = false <-> l = [].
Proof. destruct l; simpl; split; congruence. Qed.

Lemma hybrid_policy (config : ExtractorConfig)
    (extracted : gmap string (list string)) (ocr_conf : Q) :
  _should_use_ai (with_ai_mode "hybrid" config) extracted ocr_conf = true
  <-> hybrid_condition (tesseract_confidence_threshold config) extracted ocr_conf.
Proof.
  unfold _should_use_ai, hybrid_condition. simpl.
  rewrite !get_truthy_items_of.
  destruct (ImageProcessor.Qgtb (tesseract_confidence_threshold config) ocr_conf)
    eqn:Hthr.
  - apply Qgtb_true in Hthr. split; [intros _; left; exact Hthr | reflexivity].
  - apply Qgtb_false in Hthr.
    destruct (items_of extracted "order_ids") as [|o os]; simpl.
    + split; [intros _; right; left; reflexivity | reflexivity].
    + destruct (items_of extracted "items") as [|i0 irest]; simpl.
      * split; [intros _; right; right; reflexivity | reflexivity].
      * split; [discriminate|].
        intros [Hlt | [Habs | Habs]]; try discriminate.
        exfalso. exact (Qlt_not_le _ _ Hlt Hthr).
Qed.

(** C8.  [_should_use_ai] is false for every input in mode never, true
    for every input in mode always, and in mode hybrid true exactly when
    ocrConfidence is below the configured threshold (70 by default),
    order_ids is empty, or items is empty; two inputs that agree on these
    three signals get the same answer. *)
Theorem should_use_ai_policy (config : ExtractorConfig)
    (extracted : gmap string (list string)) (ocr_conf : Q) :
  _should_use_ai (with_ai_mode "never" config) extracted ocr_conf = false
  /\ _should_use_ai (with_ai_mode "always" config) extracted ocr_conf = true
  /\ (_should_use_ai (with_ai_mode "hybrid" config) extracted ocr_conf = true
      <-> ocr_conf < tesseract_confidence_threshold config
          \/ items_of extracted "order_ids" = []
          \/ items_of extracted "items" = [])
  /\ tesseract_confidence_threshold default_config == 70
  /\ (forall config' extracted' ocr_conf',
        (ocr_conf' < tesseract_confidence_threshold config'
         <-> ocr_conf < tesseract_confidence_threshold config) ->
        (items_of extracted' "order_ids" = []
         <-> items_of extracted "order_ids" = []) ->
        (items_of extracted' "items" = [] <-> items_of extracted "items" = []) ->
        _should_use_ai (with_ai_mode "hybrid" config') extracted' ocr_conf'
        = _should_use_ai (with_ai_mode "hybrid" config) extracted ocr_conf).
Proof.
  split; [reflexivity|]. split; [reflexivity|].
  split; [apply hybrid_policy|]. split; [reflexivity|].
  intros config' extracted' ocr_conf' Hthr Hids Hitems.
  pose proof (hybrid_policy config extracted ocr_conf) as H.
  pose proof (hybrid_policy config' extracted' ocr_conf') as H'.
  unfold hybrid_condition in H, H'.
  destruct (_should_use_ai (with_ai_mode "hybrid" config) extracted ocr_conf);
    destruct (_should_use_ai (with_ai_mode "hybrid" config') extracted' ocr_conf');
    try reflexivity.
  - assert (Habs : false = true); [|discriminate].
    apply H'. rewrite Hthr, Hids, Hitems. apply H. reflexivity.
  - assert (Habs : false = true); [|discriminate].
    apply H. rewrite <- Hthr, <- Hids, <- Hitems. apply H'. reflexivity.
Qed.

(** The specification's end-to-end example: hybrid, threshold 70,
    confidence 80, an order id and an item give false; the same without
    items gives true. *)
Example should_use_ai_example :
  _should_use_ai (with_ai_mode "hybrid" default_config)
    (<["items" := ["Widget"]]> {["order_ids" := ["A"]]}) 80 = false
  /\ _should_use_ai (with_ai_mode "hybrid" default_config)
       (<["items" := []]> {["order_ids" := ["A"]]}) 80 = true.
Proof. split; vm_compute; reflexivity. Qed.

Lemma merged_value_as_stated (ai_data : gmap string (list string))
    (key : string) (ocr_values : list string) :
  merged_value ai_data key ocr_values
  = merged_as_stated ocr_values (items_of ai_data key).
Proof.
  unfold merged_value, merged_as_stated, items_of.
  destruct (default [] (ai_data !! key)); destruct ocr_values; reflexivity.
Qed.

Lemma merge_results_lookup (ocr_data ai_data : gmap string (list string))
    (key : string) :
  _merge_results ocr_data ai_data !! key
  = (fun ocr_values => merged_as_stated ocr_values (items_of ai_data key))
      <$> ocr_data !! key.
Proof.
  unfold _merge_results. rewrite map_lookup_imap.
  destruct (ocr_data !! key) as [ocr_values|]; simpl; [|reflexivity].
  rewrite merged_value_as_stated. reflexivity.
Qed.

Lemma merge_results_dom (ocr_data ai_data : gmap string (list string)) :
  dom (_merge_results ocr_data ai_data) = dom ocr_data.
Proof.
  apply set_eq. intros key. rewrite !elem_of_dom, merge_results_lookup.
  rewrite fmap_is_Some. reflexivity.
Qed.

(** C6.  For local and AI field sets and every field key, the merged
    value for that key is the AI list when it is non-empty, otherwise the
    local list, otherwise empty; an empty AI list never erases a local
    list, the merged value is always one of the two lists and never a
    blend, and the merged mapping is again a field set. *)
Theorem merge_results_per_key (local ai : gmap string (list string))
    (key : string) :
  is_field_set local -> key ∈ FIELD_KEYS ->
  _merge_results local ai !! key
    = Some (merged_as_stated (items_of local key) (items_of ai key))
  /\ (items_of ai key = [] ->
      items_of (_merge_results local ai) key = items_of local key)
  /\ (items_of ai key <> [] ->
      items_of (_merge_results local ai) key = items_of ai key)
  /\ is_field_set (_merge_results local ai).
Proof.
  intros Hlocal Hkey.
  assert (Hin : is_Some (local !! key)).
  { apply elem_of_dom. rewrite Hlocal. apply elem_of_list_to_set. exact Hkey. }
  destruct Hin as [local_values Hlookup].
  assert (Hm : _merge_results local ai !! key
               = Some (merged_as_stated (items_of local key) (items_of ai key))).
  { rewrite merge_results_lookup, Hlookup. simpl.
    unfold items_of at 2. rewrite Hlookup. reflexivity. }
  split; [exact Hm|]. split; [|split].
  - intros Hai. unfold items_of at 1. rewrite Hm. simpl. rewrite Hai.
    unfold merged_as_stated. destruct (items_of local key); reflexivity.
  - intros Hai. unfold items_of at 1. rewrite Hm. simpl.
    unfold merged_as_stated. destruct (items_of ai key); [congruence|reflexivity].
  - unfold is_field_set. rewrite merge_results_dom. exact Hlocal.
Qed.

Lemma local_only_ids_field_set : is_field_set local_only_ids.
Proof. unfold is_field_set. vm_compute. reflexivity. Qed.

Lemma merge_results_per_key_witness :
  (is_field_set local_only_ids /\ "order_ids" ∈ FIELD_KEYS)
  /\ (_merge_results local_only_ids ai_only_items !! "order_ids"
        = Some (merged_as_stated (items_of local_only_ids "order_ids")
                                 (items_of ai_only_items "order_ids"))
      /\ (items_of ai_only_items "order_ids" = [] ->
          items_of (_merge_results local_only_ids ai_only_items) "order_ids"
          = items_of local_only_ids "order_ids")
      /\ (items_of ai_only_items "order_ids" <> [] ->
          items_of (_merge_results local_only_ids ai_only_items) "order_ids"
          = items_of ai_only_items "order_ids")
      /\ is_field_set (_merge_results local_only_ids ai_only_items)).
Proof.
  split.
  - split; [exact local_only_ids_field_set | apply list_elem_of_here].
  - apply (merge_results_per_key local_only_ids ai_only_items "order_ids");
      [exact local_only_ids_field_set | apply list_elem_of_here].
Defined.

(** The specification's example: local order ids ["A"] survive the AI's
    empty list, and the AI's items replace the empty local list. *)
Example merge_results_example :
  _merge_results local_only_ids ai_only_items !! "order_ids" = Some ["A"]
  /\ _merge_results local_only_ids ai_only_items !! "items" = Some ["Widget"].
Proof. split; vm_compute; reflexivity. Qed.

End EscalationAndMerge.

(** ** The eight-key invariant *)

Section FieldSets.
Import DataExtractor AIProvider Claims.

(** Membership of a literal key in [FIELD_KEYS]. *)
Ltac field_key :=
  unfold FIELD_KEYS;
  repeat first [apply list_elem_of_here | apply list_elem_of_further].

Lemma field_set_lookup (d : gmap string (list string)) (k : string) :
  is_field_set d -> k ∈ FIELD_KEYS -> exists l, d !! k = Some l.
Proof.
  intros Hd Hk. apply (elem_of_dom (D:=gset string)).
  rewrite Hd. apply elem_of_list_to_set. exact Hk.
Qed.

Lemma empty_result_field_set : is_field_set empty_result.
Proof. unfold is_field_set. vm_compute. reflexivity. Qed.

Lemma insert_field_set (d : gmap string (list string)) (k : string)
    (l : list string) :
  is_field_set d -> k ∈ FIELD_KEYS -> is_field_set (<[k:=l]> d).
Proof.
  unfold is_field_set. intros Hd Hk. rewrite dom_insert_L, Hd.
  apply set_eq. intros x. rewrite elem_of_union, elem_of_singleton.
  split; [|auto]. intros [->|H]; [|exact H].
  apply elem_of_list_to_set. exact Hk.
Qed.

Section WithStr.
Variable py_str : json -> string.

Lemma copy_field_field_set data field key result :
  is_field_set result -> key ∈ FIELD_KEYS ->
  is_field_set (copy_field py_str data field key result).
Proof.
  intros Hr Hk. unfold copy_field.
  destruct (get_if_truthy data field); [|exact Hr].
  unfold append_to. apply insert_field_set; assumption.
Qed.

Lemma add_item_field_set result item :
  is_field_set result -> is_field_set (add_item py_str result item).
Proof.
  intros Hr. unfold add_item. destruct item; try exact Hr.
  repeat (apply copy_field_field_set; [|field_key]). exact Hr.
Qed.

Lemma fold_add_item_field_set items result :
  is_field_set result ->
  is_field_set (fold_left (add_item py_str) items result).
Proof.
  revert result. induction items as [|item rest IH]; intros result Hr.
  - exact Hr.
  - simpl. apply IH. apply add_item_field_set. exact Hr.
Qed.

Lemma normalize_to_lists_field_set fields result :
  _normalize_to_lists py_str (JObj fields) = Some result ->
  is_field_set result.
Proof.
  unfold _normalize_to_lists. intros [= <-].
  unfold extend_to. apply insert_field_set; [|field_key].
  apply fold_add_item_field_set.
  repeat (apply copy_field_field_set; [|field_key]).
  exact empty_result_field_set.
Qed.
End WithStr.

(** C9.  For every input text, [extract_all] returns a mapping whose keys
    are exactly the eight field keys, each bound to a list; and
    [_normalize_to_lists] returns such a mapping for every parsed AI
    response that is an object (for any other parsed value it raises and
    returns nothing), so every field set entering the merge has all eight
    keys. *)
Theorem eight_keys_always_present (strptime_b_d_Y : string -> option string)
    (py_str : json -> string) (text : string) (data : json) :
  (is_field_set (extract_all strptime_b_d_Y text)
   /\ forall k, k ∈ FIELD_KEYS ->
        exists l, extract_all strptime_b_d_Y text !! k = Some l)
  /\ match _normalize_to_lists py_str data with
     | Some result =>
         is_field_set result
         /\ forall k, k ∈ FIELD_KEYS -> exists l, result !! k = Some l
     | None => forall fields, data <> JObj fields
     end.
Proof.
  assert (Hex : is_field_set (extract_all strptime_b_d_Y text)).
  { unfold extract_all, is_field_set.
    rewrite !dom_insert_L, dom_empty_L. vm_compute. reflexivity. }
  split.
  - split; [exact Hex|]. intros k Hk. apply field_set_lookup; assumption.
  - destruct data; simpl; try (intros fields; discriminate).
    assert (Hr := normalize_to_lists_field_set py_str fields _ eq_refl).
    split; [exact Hr|]. intros k Hk. apply field_set_lookup; assumption.
Qed.

End FieldSets.

(** ** Item lines *)

Section Items.
Import DataExtractor Claims.

Lemma stripped_lines_spec (text line : string) :
  line ∈ stripped_lines text
  <-> exists raw, raw ∈ split newline text /\ strip raw <> "" /\ line = strip raw.
Proof.
  unfold stripped_lines.
  change (map strip) with (fmap (M:=list) strip).
  rewrite list_elem_of_fmap. split.
  - intros (raw & -> & Hin). apply list_elem_of_filter in Hin as [Hne Hin].
    exists raw. split; [exact Hin|]. split; [|reflexivity].
    intros Heq. rewrite Heq in Hne. exact Hne.
  - intros (raw & Hin & Hne & ->). exists raw. split; [reflexivity|].
    apply list_elem_of_filter. split; [|exact Hin].
    destruct (String.eqb_spec (strip raw) ""); [contradiction | exact I].
Qed.

Lemma has_skip_keyword_false (clean : string) :
  has_skip_keyword clean = false
  <-> forall keyword, keyword ∈ skip_keywords ->
        contains keyword (lower clean) = false.
Proof.
  unfold has_skip_keyword. generalize skip_keywords as kws.
  induction kws as [|k kws IH]; simpl.
  - split; [intros _ keyword H; inversion H | reflexivity].
  - rewrite orb_false_iff, IH. split.
    + intros [Hk Hrest] keyword Hin.
      apply elem_of_cons in Hin as [->|Hin]; [exact Hk | exact (Hrest _ Hin)].
    + intros H. split; [apply H; left | intros keyword Hin; apply H; right];
        auto.
Qed.

Lemma item_candidates_spec (lines : list string) (item : string) :
  item ∈ item_candidates lines
  <-> exists line, line ∈ lines /\ item = clean_line line
        /\ is_item 15 skip_keywords item.
Proof.
  induction lines as [|line rest IH]; simpl.
  - split; [intros H; inversion H | intros (l & H & _); inversion H].
  - assert (Hrest : item ∈ item_candidates rest ->
              exists l, l ∈ line :: rest /\ item = clean_line l
                        /\ is_item 15 skip_keywords item).
    { intros H. apply IH in H as (l & Hl & Hrule). exists l.
      split; [right; exact Hl | exact Hrule]. }
    assert (Hback : forall l, l ∈ line :: rest -> item = clean_line l ->
              is_item 15 skip_keywords item ->
              (l = line /\ item = clean_line line)
              \/ item ∈ item_candidates rest).
    { intros l Hl Heq Hrule. apply elem_of_cons in Hl as [->|Hl].
      - left. split; [reflexivity | exact Heq].
      - right. apply IH. exists l. split; [exact Hl|]. split; assumption. }
    destruct (Nat.ltb (String.length (clean_line line)) 15) eqn:Hlen.
    { split; [exact Hrest|]. intros (l & Hl & Heq & Hrule).
      destruct (Hback l Hl Heq Hrule) as [[_ Hit]|H]; [|exact H].
      exfalso. destruct Hrule as [Hlen' _]. rewrite Hit in Hlen'.
      apply Nat.ltb_lt in Hlen. lia. }
    destruct (has_skip_keyword (clean_line line)) eqn:Hkw.
    { split; [exact Hrest|]. intros (l & Hl & Heq & Hrule).
      destruct (Hback l Hl Heq Hrule) as [[_ Hit]|H]; [|exact H].
      exfalso. destruct Hrule as (_ & _ & Hk). rewrite Hit in Hk.
      apply has_skip_keyword_false in Hk. congruence. }
    destruct (starts_upper (clean_line line)) eqn:Hup.
    + rewrite elem_of_cons. split.
      * intros [->|H]; [|exact (Hrest H)].
        exists line. split; [left|]. split; [reflexivity|].
        split; [apply Nat.ltb_ge; exact Hlen|]. split; [exact Hup|].
        apply has_skip_keyword_false. exact Hkw.
      * intros (l & Hl & Heq & Hrule).
        destruct (Hback l Hl Heq Hrule) as [[_ Hit]|H]; [left | right]; auto.
    + split; [exact Hrest|]. intros (l & Hl & Heq & Hrule).
      destruct (Hback l Hl Heq Hrule) as [[_ Hit]|H]; [|exact H].
      exfalso. destruct Hrule as (_ & Hu & _). rewrite Hit in Hu. congruence.
Qed.

Lemma unique_loop_first_seen (items : list string) (seen : gset string)
    (acc : list string) :
  (forall y, y ∈ seen <-> y ∈ acc) ->
  snd (fold_left unique_step items (seen, acc)) = first_seen acc items.
Proof.
  revert seen acc. induction items as [|item rest IH]; intros seen acc Hseen.
  - reflexivity.
  - simpl. rewrite (bool_decide_ext _ _ (Hseen item)).
    destruct (bool_decide (item ∈ acc)).
    + apply IH. exact Hseen.
    + apply IH. intros y.
      rewrite elem_of_union, elem_of_singleton, elem_of_app,
        list_elem_of_singleton, Hseen.
      tauto.
Qed.

Lemma first_seen_prefix (acc items : list string) :
  exists r, first_seen acc items = (acc ++ r)%list.
Proof.
  revert acc. induction items as [|item rest IH]; intros acc; simpl.
  - exists []. symmetry. apply app_nil_r.
  - destruct (bool_decide (item ∈ acc)); [apply IH|].
    destruct (IH (acc ++ [item])%list) as [r Hr].
    exists (item :: r). rewrite Hr, <- app_assoc. reflexivity.
Qed.

Lemma first_seen_elem (acc items : list string) (y : string) :
  y ∈ first_seen acc items <-> y ∈ acc \/ y ∈ items.
Proof.
  revert acc. induction items as [|item rest IH]; intros acc; simpl.
  - rewrite elem_of_nil. tauto.
  - rewrite elem_of_cons.
    destruct (bool_decide (item ∈ acc)) eqn:Hin.
    + apply bool_decide_eq_true in Hin. rewrite IH.
      split; [tauto|]. intros [H|[->|H]]; auto.
    + rewrite IH, elem_of_app, list_elem_of_singleton. tauto.
Qed.

Lemma first_seen_NoDup (acc items : list string) :
  NoDup acc -> NoDup (first_seen acc items).
Proof.
  revert acc. induction items as [|item rest IH]; intros acc Hacc; simpl.
  - exact Hacc.
  - destruct (bool_decide (item ∈ acc)) eqn:Hin; [apply IH; exact Hacc|].
    apply bool_decide_eq_false in Hin. apply IH.
    apply NoDup_app. split; [exact Hacc|]. split.
    + intros x Hx Hx'. apply list_elem_of_singleton in Hx'. subst. auto.
    + apply NoDup_singleton.
Qed.

Lemma split_after_prefix (acc r before after : list string) (x : string) :
  (acc ++ r)%list = (before ++ x :: after)%list -> x ∉ acc ->
  exists r1, before = (acc ++ r1)%list.
Proof.
  revert before. induction acc as [|a acc IH]; intros before Heq Hx.
  - exists before. reflexivity.
  - destruct before as [|b before]; simpl in Heq.
    + injection Heq as -> _. exfalso. apply Hx. left.
    + injection Heq as -> Heq.
      destruct (IH before Heq) as [r1 ->].
      * intros H. apply Hx. right. exact H.
      * exists r1. reflexivity.
Qed.

Lemma first_seen_order (acc items before after : list string) (x : string) :
  first_seen acc items = (before ++ x :: after)%list ->
  x ∈ acc
  \/ exists seen_before later,
       items = (seen_before ++ x :: later)%list
       /\ (x ∉ seen_before)
       /\ forall other, other ∈ seen_before -> other ∈ before.
Proof.
  revert acc. induction items as [|item rest IH]; intros acc Heq.
  - left. simpl in Heq. rewrite Heq. apply elem_of_app. right. left.
  - destruct (decide (x ∈ acc)) as [Hacc|Hacc]; [left; exact Hacc | right].
    destruct (decide (x = item)) as [->|Hne].
    { exists [], rest. split; [reflexivity|]. split; [apply not_elem_of_nil|].
      intros other H. inversion H. }
    simpl in Heq.
    assert (Hstep : forall acc',
              first_seen acc' rest = (before ++ x :: after)%list ->
              x ∉ acc' -> item ∈ acc' ->
              exists seen_before later,
                item :: rest = (seen_before ++ x :: later)%list
                /\ (x ∉ seen_before)
                /\ forall other, other ∈ seen_before -> other ∈ before).
    { intros acc' Heq' Hx Hitem.
      destruct (IH acc' Heq') as [Habs|(sb & later & -> & Hsb & Hall)];
        [contradiction|].
      exists (item :: sb), later. split; [reflexivity|]. split.
      - intros H. apply elem_of_cons in H as [H|H]; [congruence | auto].
      - intros other H. apply elem_of_cons in H as [->|H]; [|auto].
        destruct (first_seen_prefix acc' (sb ++ x :: later)) as [r Hr].
        rewrite Hr in Heq'.
        destruct (split_after_prefix _ _ _ _ _ Heq' Hx) as [r1 ->].
        apply elem_of_app. left. exact Hitem. }
    destruct (bool_decide (item ∈ acc)) eqn:Hin.
    + apply bool_decide_eq_true in Hin. apply (Hstep acc); assumption.
    + apply (Hstep (acc ++ [item])%list); [exact Heq | |].
      * rewrite elem_of_app, list_elem_of_singleton. tauto.
      * apply elem_of_app. right. left.
Qed.

(** C5 (amended).  For every text, [extract_items] returns exactly the
    cleaned forms (embedded prices and everything from an order-id-like
    substring on removed, then trimmed) of those non-blank lines whose
    cleaned length is AT LEAST 15 characters, that start with an
    uppercase character and contain none of the stop keywords total,
    shipping, tax, qty, QUANTITY, sold by, order, delivery, ARRIVES,
    return, refund, customer, ACCOUNT, payment, credit, gift; the result
    has no duplicates and keeps first-seen order. *)
Theorem extract_items_spec (text : string) :
  returns_exactly (is_item 15 skip_keywords) text
  /\ NoDup (extract_items text)
  /\ in_first_seen_order (item_candidates (stripped_lines text))
       (extract_items text).
Proof.
  assert (Hloop : extract_items text
                  = first_seen [] (item_candidates (stripped_lines text))).
  { unfold extract_items. apply unique_loop_first_seen.
    intros y. rewrite elem_of_empty, elem_of_nil. tauto. }
  split; [|split].
  - intros item. rewrite Hloop, first_seen_elem, item_candidates_spec.
    rewrite elem_of_nil. split.
    + intros [[]|(line & Hline & Heq & Hrule)].
      apply stripped_lines_spec in Hline as (raw & Hraw & Hne & ->).
      exists raw. auto.
    + intros (raw & Hraw & Hne & Heq & Hrule). right.
      exists (strip raw). split; [|auto].
      apply stripped_lines_spec. exists raw. auto.
  - rewrite Hloop. apply first_seen_NoDup. apply NoDup_nil_2.
  - intros before item after Heq. rewrite Hloop in Heq.
    destruct (first_seen_order _ _ _ _ _ Heq) as [Habs|H]; [|exact H].
    inversion Habs.
Qed.

(** A line of exactly 15 characters is returned, although its cleaned
    length does not exceed 15. *)
Lemma extract_items_keeps_length_15 : ~ items_as_stated "Blue Widget Pro".
Proof.
  unfold items_as_stated, returns_exactly. intros H.
  destruct (H "Blue Widget Pro") as [Hfwd _].
  destruct Hfwd as (raw & _ & _ & _ & Hlen & _).
  - vm_compute. left.
  - vm_compute in Hlen. lia.
Qed.

(** A line with the keyword [arrives], which the specification does not
    list, is dropped; first-seen order on a text with a repeated line. *)
Example extract_items_examples :
  extract_items "Package arrives tomorrow morning" = []
  /\ extract_items
       (String.concat (String newline "")
          ["Zebra Print Notebook $4.99"; "Apple Slicer Deluxe Pro";
           "Zebra Print Notebook"])
     = ["Zebra Print Notebook"; "Apple Slicer Deluxe Pro"].
Proof. split; vm_compute; reflexivity. Qed.

End Items.

(** ** Duplicate consolidation *)

Section Duplicates.
Import DuplicateDetector Claims.

Lemma idxmax_row_spec (best : Row) (rest : list Row) :
  idxmax_row best rest ∈ best :: rest
  /\ forall r, r ∈ best :: rest ->
       confidence_of r <= confidence_of (idxmax_row best rest).
Proof.
  revert best. induction rest as [|r rest IH]; intros best; simpl.
  - split; [left|]. intros r Hr. apply list_elem_of_singleton in Hr as ->.
    apply Qle_refl.
  - destruct (ImageProcessor.Qgtb (confidence_of r) (confidence_of best)) eqn:E.
    + apply Qgtb_true in E. destruct (IH r) as [Hin Hmax]. split.
      * right. exact Hin.
      * intros r' Hr'. apply elem_of_cons in Hr' as [->|Hr']; [|auto].
        eapply Qle_trans; [apply Qlt_le_weak; exact E | apply Hmax; left].
    + apply Qgtb_false in E. destruct (IH best) as [Hin Hmax]. split.
      * apply elem_of_cons in Hin as [->|Hin]; [left | right; right; exact Hin].
      * intros r' Hr'. apply elem_of_cons in Hr' as [->|Hr']; [apply Hmax; left|].
        apply elem_of_cons in Hr' as [->|Hr'].
        -- eapply Qle_trans; [exact E | apply Hmax; left].
        -- apply Hmax. right. exact Hr'.
Qed.

(** Within a group of more than one row the kept row is a member of
    greatest confidence, renamed to the joined file names and marked. *)
Lemma merge_group_representative (r1 r2 : Row) (rest : list Row) :
  exists best,
    merge_group (r1 :: r2 :: rest)
    = [mark_merged (join " + " (map file_name_of (r1 :: r2 :: rest))) best]
    /\ best ∈ r1 :: r2 :: rest
    /\ forall r, r ∈ r1 :: r2 :: rest -> confidence_of r <= confidence_of best.
Proof.
  exists (idxmax_row r1 (r2 :: rest)). split; [reflexivity|].
  apply idxmax_row_spec.
Qed.

(** C2 (failing input).  Two records without order id do not pass
    through as non-duplicate singletons: their empty ["Order IDs"] cells
    give both the group key [""], and [merge_duplicates] merges them into
    one row, marked as a duplicate. *)
Theorem merge_duplicates_merges_idless_records :
  merge_duplicates two_idless_rows
  = [FullRow "a.png + b.png" "" 90 (Some true)].
Proof. vm_compute. reflexivity. Qed.

(** The group key is the text before the first ['|'] of the cell, which
    keeps the blank of the [" | "] separator: two records whose first
    order id is the same are not grouped when one of them has a second
    id. *)
Example merge_duplicates_key_keeps_separator_blank :
  map first_order_id same_first_id_rows
  = [Some "111-1111111-1111111"; Some "111-1111111-1111111 "]
  /\ merge_duplicates same_first_id_rows = same_first_id_rows.
Proof. split; vm_compute; reflexivity. Qed.

(** The specification's example holds: the representative has confidence
    90 and all three file names; the single id-less record is alone in
    its group. *)
Example merge_duplicates_spec_example :
  merge_duplicates three_duplicates_and_one_idless
  = [FullRow "d.png" "" 80 None;
     FullRow "a.png + b.png + c.png" "111-1111111-1111111" 90 (Some true)].
Proof. vm_compute. reflexivity. Qed.

End Duplicates.

(** ** Recognition confidence *)

Section Recognition.
Import OCREngine ImageProcessor Claims.

(** C4 (failing input).  pytesseract hands the unknown-confidence
    sentinel over as the integer -1; [c != '-1'] compares it with a
    string and keeps it, so the mean of the tokens -1 and 90 is 44.5 and
    not 90. *)
Theorem ocr_mean_includes_integer_sentinel :
  _ocr_with_confidence conf_with_integer_sentinel text_order int_of_str_raises
    (blank 1 1)
  = ("Order", 89 # 2)
  /\ ~ (snd (_ocr_with_confidence conf_with_integer_sentinel text_order
              int_of_str_raises (blank 1 1)) == 90).
Proof.
  split; [vm_compute; reflexivity|]. vm_compute. discriminate.
Qed.

(** A sentinel that arrives as the string ['-1'] is excluded. *)
Example ocr_mean_excludes_string_sentinel :
  _ocr_with_confidence conf_with_string_sentinel text_order int_of_str_raises
    (blank 1 1)
  = ("Order", 90 # 1).
Proof. vm_compute. reflexivity. Qed.

(** [preprocess_image] returns one of the two variants, the inverted one
    only when its confidence is strictly higher. *)
Lemma preprocess_image_picks_higher
    (image_to_data_conf : Image -> option (list ConfValue))
    (image_to_string : Image -> option string)
    (int_of_str : string -> option Z)
    (adaptive_threshold : Q -> Image -> Image)
    (upscale_factor : Q) (image : Image) :
  let ocr := _ocr_with_confidence image_to_data_conf image_to_string int_of_str in
  let thresh := adaptive_threshold upscale_factor image in
  let result :=
    preprocess_image image_to_data_conf image_to_string int_of_str
      adaptive_threshold upscale_factor image in
  (snd (ocr (bitwise_not thresh)) <= snd (ocr thresh) ->
   result = (fst (ocr thresh), snd (ocr thresh), thresh))
  /\ (snd (ocr thresh) < snd (ocr (bitwise_not thresh)) ->
      result = (fst (ocr (bitwise_not thresh)), snd (ocr (bitwise_not thresh)),
                bitwise_not thresh)).
Proof.
  intros ocr thresh result. unfold result, preprocess_image.
  fold thresh. fold ocr.
  destruct (ocr thresh) as [text_normal conf_normal].
  destruct (ocr (bitwise_not thresh)) as [text_inv conf_inv]. simpl.
  split; intros H.
  - apply Qle_bool_iff in H. rewrite H. reflexivity.
  - destruct (Qle_bool conf_inv conf_normal) eqn:E; [|reflexivity].
    apply Qle_bool_iff in E. exfalso. exact (Qlt_not_le _ _ H E).
Qed.

End Recognition.

(** ** Matches do not depend on what follows them *)

Section RegexFacts.
Local Open Scope nat_scope.

Lemma append_nil_l (s : string) : "" ++ s = s.
Proof. reflexivity. Qed.

Lemma append_cons (c : ascii) (s t : string) :
  String c s ++ t = String c (s ++ t).
Proof. reflexivity. Qed.

Lemma append_nil_r (s : string) : s ++ "" = s.
Proof.
  induction s as [|c s IH]; [reflexivity|].
  rewrite append_cons, IH. reflexivity.
Qed.

Lemma append_assoc (a b c : string) : (a ++ b) ++ c = a ++ (b ++ c).
Proof.
  induction a as [|x a IH]; [reflexivity|].
  rewrite !append_cons, IH. reflexivity.
Qed.

Lemma length_append (a b : string) :
  String.length (a ++ b) = String.length a + String.length b.
Proof.
  induction a as [|x a IH]; [reflexivity|].
  rewrite append_cons. simpl. rewrite IH. reflexivity.
Qed.

Lemma consumed_app (x rest : string) : consumed (x ++ rest) rest = x.
Proof.
  unfold consumed. rewrite length_append.
  replace (String.length x + String.length rest - String.length rest)
    with (String.length x) by lia.
  induction x as [|c x IH].
  - rewrite append_nil_l. destruct rest; reflexivity.
  - rewrite append_cons. simpl. rewrite IH. reflexivity.
Qed.

Lemma rep_ends_keeps_subject (step : string -> list string) (fuel : nat)
    (hi : option nat) (greedy : bool) (s : string) :
  0 < fuel -> In s (rep_ends step fuel 0 hi greedy s).
Proof.
  intros Hfuel. destruct fuel as [|fuel]; [lia|]. simpl.
  destruct greedy; [apply in_or_app; right; left | left]; reflexivity.
Qed.

Lemma rep_ends_local (step step' : string -> list string) :
  (forall s rest, In rest (step s) ->
     exists x, s = x ++ rest /\ 0 < String.length x
               /\ forall t, In t (step' (x ++ t))) ->
  forall fuel lo hi greedy s rest,
    In rest (rep_ends step fuel lo hi greedy s) ->
    exists x, s = x ++ rest
      /\ forall t fuel', String.length (x ++ t) + lo < fuel' ->
           In t (rep_ends step' fuel' lo hi greedy (x ++ t)).
Proof.
  intros Hloc. induction fuel as [|fuel IH]; intros lo hi greedy s rest Hin.
  - simpl in Hin. destruct lo; [|contradiction]. destruct Hin as [<-|[]].
    exists "". split; [reflexivity|]. intros t fuel' Hf. simpl.
    apply rep_ends_keeps_subject. lia.
  - simpl in Hin.
    set (more := match hi with
                 | Some O => []
                 | _ => flat_map (rep_ends step fuel (Nat.pred lo)
                                    (Nat.pred <$> hi) greedy) (step s)
                 end) in Hin.
    assert (Hsame : rest = s -> lo = 0 ->
              exists x, s = x ++ rest
                /\ forall t fuel', String.length (x ++ t) + lo < fuel' ->
                     In t (rep_ends step' fuel' lo hi greedy (x ++ t))).
    { intros -> ->. exists "". split; [reflexivity|]. intros t fuel' Hf.
      apply rep_ends_keeps_subject. lia. }
    assert (Hmore : In rest more ->
              exists x, s = x ++ rest
                /\ forall t fuel', String.length (x ++ t) + lo < fuel' ->
                     In t (rep_ends step' fuel' lo hi greedy (x ++ t))).
    { unfold more. intros H.
      assert (Hhi : hi <> Some 0) by (intros ->; contradiction).
      assert (H' : In rest (flat_map (rep_ends step fuel (Nat.pred lo)
                                        (Nat.pred <$> hi) greedy) (step s))).
      { destruct hi as [[|h]|]; [congruence | exact H | exact H]. }
      clear H. apply in_flat_map in H' as (s1 & Hs1 & Hrest).
      destruct (Hloc _ _ Hs1) as (x1 & -> & Hx1 & Hstep').
      destruct (IH _ _ _ _ _ Hrest) as (x2 & -> & Hrep).
      exists (x1 ++ x2). split; [symmetry; apply append_assoc|].
      intros t fuel' Hf. rewrite append_assoc in Hf |- *.
      rewrite length_append in Hf.
      destruct fuel' as [|fuel']; [lia|]. simpl.
      assert (Hin' : In t (flat_map (rep_ends step' fuel' (Nat.pred lo)
                                       (Nat.pred <$> hi) greedy)
                             (step' (x1 ++ x2 ++ t)))).
      { apply in_flat_map. exists (x2 ++ t). split; [apply Hstep'|].
        apply Hrep. lia. }
      assert (Hin'' : In t match hi with
                           | Some O => []
                           | _ => flat_map (rep_ends step' fuel' (Nat.pred lo)
                                              (Nat.pred <$> hi) greedy)
                                    (step' (x1 ++ x2 ++ t))
                           end).
      { destruct hi as [[|h]|]; [congruence | exact Hin' | exact Hin']. }
      destruct lo; [|exact Hin''].
      destruct greedy; [apply in_or_app; left | right]; exact Hin''. }
    destruct lo as [|lo]; [|exact (Hmore Hin)].
    destruct greedy.
    + apply in_app_or in Hin as [H|[<-|[]]]; [exact (Hmore H) | auto].
    + destruct Hin as [<-|H]; [auto | exact (Hmore H)].
Qed.

(** A match of an anchor-free pattern is a match whatever follows it. *)
Lemma ends_local (ic : bool) (r : regex) :
  anchor_free r = true -> loops_consume r = true ->
  forall n s rest, In rest (ends ic n r s) ->
    exists x, s = x ++ rest /\ forall n' t, In t (ends ic n' r (x ++ t)).
Proof.
  induction r as [| c | p | | | | r1 IH1 r2 IH2 | r1 IH1 r2 IH2 | lo hi g r IH];
    intros Ha Hl n s rest Hin; simpl in Ha, Hl; try discriminate;
    [simpl in Hin .. |].
  - destruct Hin as [<-|[]]. exists "". split; [reflexivity|].
    intros n' t. rewrite append_nil_l. left. reflexivity.
  - destruct s as [|a s]; [contradiction|].
    destruct (lit_matches ic c a) eqn:E; [|contradiction].
    destruct Hin as [<-|[]]. exists (String a ""). split; [reflexivity|].
    intros n' t. rewrite append_cons, append_nil_l. simpl. rewrite E.
    left. reflexivity.
  - destruct s as [|a s]; [contradiction|].
    destruct (cls_matches ic p a) eqn:E; [|contradiction].
    destruct Hin as [<-|[]]. exists (String a ""). split; [reflexivity|].
    intros n' t. rewrite append_cons, append_nil_l. simpl. rewrite E.
    left. reflexivity.
  - destruct s as [|a s]; [contradiction|].
    destruct (Ascii.eqb a newline) eqn:E; [contradiction|].
    destruct Hin as [<-|[]]. exists (String a ""). split; [reflexivity|].
    intros n' t. rewrite append_cons, append_nil_l. simpl. rewrite E.
    left. reflexivity.
  - apply andb_true_iff in Ha as [Ha1 Ha2].
    apply andb_true_iff in Hl as [Hl1 Hl2].
    apply in_flat_map in Hin as (s1 & H1 & H2).
    destruct (IH1 Ha1 Hl1 _ _ _ H1) as (x1 & -> & Hx1).
    destruct (IH2 Ha2 Hl2 _ _ _ H2) as (x2 & -> & Hx2).
    exists (x1 ++ x2). split; [symmetry; apply append_assoc|].
    intros n' t. simpl. apply in_flat_map. exists (x2 ++ t).
    rewrite append_assoc. split; [apply Hx1 | apply Hx2].
  - apply andb_true_iff in Ha as [Ha1 Ha2].
    apply andb_true_iff in Hl as [Hl1 Hl2].
    apply in_app_or in Hin as [H|H].
    + destruct (IH1 Ha1 Hl1 _ _ _ H) as (x & -> & Hx).
      exists x. split; [reflexivity|]. intros n' t. simpl.
      apply in_or_app. left. apply Hx.
    + destruct (IH2 Ha2 Hl2 _ _ _ H) as (x & -> & Hx).
      exists x. split; [reflexivity|]. intros n' t. simpl.
      apply in_or_app. right. apply Hx.
  - apply andb_true_iff in Hl as [Hc Hl].
    change (In rest (rep_ends (ends ic n r) (S (String.length s + lo)) lo hi g s))
      in Hin.
    assert (Hrep : forall n',
              exists x, s = x ++ rest
                /\ forall t fuel', String.length (x ++ t) + lo < fuel' ->
                     In t (rep_ends (ends ic n' r) fuel' lo hi g (x ++ t))).
    { intros n'. apply (rep_ends_local (ends ic n r) (ends ic n' r))
        with (fuel := S (String.length s + lo)); [|exact Hin].
      intros s0 rest0 H0.
      destruct (IH Ha Hl _ _ _ H0) as (x & -> & Hx).
      exists x. split; [reflexivity|]. split; [|intros t; apply Hx].
      apply (ends_lt ic n r Hc) in H0. rewrite length_append in H0. lia. }
    destruct (Hrep n) as (x & Hx & _). exists x. split; [exact Hx|].
    intros n' t. destruct (Hrep n') as (x' & Hx' & Hall).
    assert (x' = x).
    { subst s. apply (f_equal (fun u => consumed u rest)) in Hx'.
      rewrite !consumed_app in Hx'. congruence. }
    subst x'.
    change (In t (rep_ends (ends ic n' r) (S (String.length (x ++ t) + lo))
                    lo hi g (x ++ t))).
    apply Hall. lia.
Qed.

End RegexFacts.

(** ** What the extractor finds passes the validator *)

Section ExtractedIsValid.
Import DataExtractor DataValidator.
Local Open Scope nat_scope.

Lemma head_In {A} (l : list A) (x : A) : head l = Some x -> In x l.
Proof. destruct l; simpl; [discriminate | intros [= ->]; left; reflexivity]. Qed.

Lemma In_head_is_Some {A} (l : list A) (x : A) : In x l -> is_Some (head l).
Proof. destruct l; simpl; [contradiction | eauto]. Qed.

Lemma flat_map_ends_eps (ic : bool) (n : nat) (l : list string) :
  flat_map (ends ic n Eps) l = l.
Proof.
  induction l as [|a l IH]; [reflexivity|].
  change (a :: flat_map (ends ic n Eps) l = a :: l). rewrite IH. reflexivity.
Qed.

(** What [findall] reports was matched somewhere. *)
Lemma findall_from_elem (p : pattern) (n : nat) (x : string) :
  forall fuel s, In x (findall_from fuel p n s) ->
    exists s' rest, match_here p n s' = Some (x, rest).
Proof.
  induction fuel as [|fuel IH]; intros s Hin; [contradiction|].
  simpl in Hin.
  assert (Hskip : In x match s with
                       | EmptyString => []
                       | String _ s' => findall_from fuel p n s'
                       end -> exists s' rest, match_here p n s' = Some (x, rest)).
  { destruct s as [|c s']; [contradiction | apply IH]. }
  destruct (match_here p n s) as [[y rest]|] eqn:Hm; [|exact (Hskip Hin)].
  destruct (Nat.ltb (String.length rest) (String.length s)).
  - destruct Hin as [<-|Hin]; [exists s, rest; exact Hm | exact (IH _ Hin)].
  - destruct Hin as [<-|Hin]; [exists s, rest; exact Hm | exact (Hskip Hin)].
Qed.

Lemma match_here_whole (r : regex) (n : nat) (s x rest : string) :
  match_here (whole r) n s = Some (x, rest) ->
  In rest (ends false n r s) /\ x = consumed s rest.
Proof.
  unfold match_here, whole. cbn [grp pre post ignorecase].
  change (ends false n (Seq r Eps) s)
    with (flat_map (ends false n Eps) (ends false n r s)).
  rewrite flat_map_ends_eps.
  destruct (head (ends false n r s)) as [rest'|] eqn:Hh; simpl; [|discriminate].
  intros [= <- <-]. split; [apply head_In; exact Hh | reflexivity].
Qed.

(** A text matched by an anchor-free pattern matches it from start to
    end. *)
Lemma matched_text_matches_anchored (r : regex) (n : nat) (s x rest : string) :
  anchor_free r = true -> loops_consume r = true -> consumes r = true ->
  match_here (whole r) n s = Some (x, rest) ->
  x <> "" /\ py_match (whole (seqs [Bol; r; Eol])) x = true.
Proof.
  intros Ha Hl Hc Hm. apply match_here_whole in Hm as [Hin ->].
  pose proof (ends_lt false n r Hc _ _ Hin) as Hlt.
  destruct (ends_local false r Ha Hl _ _ _ Hin) as (x & -> & Hx).
  rewrite consumed_app. rewrite length_append in Hlt.
  split; [intros ->; simpl in Hlt; lia|].
  unfold py_match. apply bool_decide_eq_true.
  unfold match_here, whole. cbn [grp pre post ignorecase].
  apply fmap_is_Some.
  apply In_head_is_Some with (x := "").
  specialize (Hx (String.length x) ""). rewrite append_nil_r in Hx.
  set (n' := String.length x) in *.
  change (In "" (flat_map (ends false n' Eps)
                   (flat_map
                      (fun s1 => flat_map
                         (fun s2 => flat_map (ends false n' Eps)
                                      (ends false n' Eol s2))
                         (ends false n' r s1))
                      (ends false n' Bol x)))).
  rewrite flat_map_ends_eps.
  apply in_flat_map. exists x. split.
  { simpl. unfold n'. rewrite Nat.eqb_refl. left. reflexivity. }
  apply in_flat_map. exists "". split; [exact Hx|].
  left. reflexivity.
Qed.

Lemma found_price_valid (text price : string) :
  price ∈ findall PRICE_PATTERN text -> validate_price price = true.
Proof.
  intros Hin. apply list_elem_of_In in Hin.
  apply findall_from_elem in Hin as (s' & rest & Hm).
  apply matched_text_matches_anchored in Hm as [Hne Hm];
    [| reflexivity | reflexivity | reflexivity].
  unfold validate_price.
  destruct (String.eqb_spec price ""); [contradiction | exact Hm].
Qed.

Lemma found_order_id_valid (text order_id : string) :
  order_id ∈ findall ORDER_ID_PATTERN text -> validate_order_id order_id = true.
Proof.
  intros Hin. apply list_elem_of_In in Hin.
  apply findall_from_elem in Hin as (s' & rest & Hm).
  apply matched_text_matches_anchored in Hm as [Hne Hm];
    [| reflexivity | reflexivity | reflexivity].
  unfold validate_order_id.
  destruct (String.eqb_spec order_id ""); [contradiction | exact Hm].
Qed.

(** X1.  Every price [extract_prices] returns passes [validate_price]. *)
Theorem extracted_prices_are_valid (text price : string) :
  price ∈ extract_prices text -> validate_price price = true.
Proof. apply found_price_valid. Qed.

Lemma extracted_prices_are_valid_witness :
  "$1,234.56" ∈ extract_prices "Subtotal: $1,234.56 for 2 items"
  /\ validate_price "$1,234.56" = true.
Proof.
  assert (H : "$1,234.56" ∈ extract_prices "Subtotal: $1,234.56 for 2 items").
  { vm_compute. left. }
  split; [exact H|].
  exact (extracted_prices_are_valid "Subtotal: $1,234.56 for 2 items"
           "$1,234.56" H).
Defined.

Lemma list_of_set_elem (l : list string) (x : string) :
  x ∈ list_of_set l <-> x ∈ l.
Proof.
  unfold list_of_set. rewrite elem_of_elements, elem_of_list_to_set.
  reflexivity.
Qed.

(** X2.  Every order id [extract_order_ids] returns passes
    [validate_order_id]. *)
Theorem extracted_order_ids_are_valid (text order_id : string) :
  order_id ∈ extract_order_ids text -> validate_order_id order_id = true.
Proof.
  intros Hin. unfold extract_order_ids in Hin.
  apply (proj1 (list_of_set_elem _ _)) in Hin.
  exact (found_order_id_valid text order_id Hin).
Qed.

Lemma extracted_order_ids_are_valid_witness :
  "123-4567890-1234567" ∈ extract_order_ids "Order # 123-4567890-1234567"
  /\ validate_order_id "123-4567890-1234567" = true.
Proof.
  assert (H : "123-4567890-1234567"
              ∈ extract_order_ids "Order # 123-4567890-1234567").
  { vm_compute. left. }
  split; [exact H|].
  exact (extracted_order_ids_are_valid "Order # 123-4567890-1234567"
           "123-4567890-1234567" H).
Defined.

End ExtractedIsValid.

(** ** Searching and finding agree *)

Section SearchAndFind.
Import DataExtractor DataValidator ImageProcessor.
Local Open Scope nat_scope.

Lemma search_from_spec (p : pattern) (n : nat) (s : string) :
  search_from p n s = true
  <-> exists s', In s' (suffixes s) /\ is_Some (match_here p n s').
Proof.
  induction s as [|c s IH]; simpl.
  - rewrite orb_false_r, bool_decide_eq_true. split.
    + intros H. exists "". split; [left; reflexivity | exact H].
    + intros (s' & [<-|[]] & H). exact H.
  - rewrite orb_true_iff, bool_decide_eq_true, IH. split.
    + intros [H|(s' & Hs' & H)].
      * exists (String c s). split; [left; reflexivity | exact H].
      * exists s'. split; [right; exact Hs' | exact H].
    + intros (s' & [<-|Hs'] & H); [left; exact H | right; eauto].
Qed.

Lemma findall_from_nil (p : pattern) (n : nat) :
  forall fuel s, String.length s < fuel ->
    (findall_from fuel p n s = []
     <-> forall s', In s' (suffixes s) -> match_here p n s' = None).
Proof.
  induction fuel as [|fuel IH]; intros s Hfuel; [lia|].
  simpl findall_from.
  destruct (match_here p n s) as [[x rest]|] eqn:Hm.
  - split.
    + destruct (Nat.ltb (String.length rest) (String.length s)); discriminate.
    + intros H. specialize (H s). rewrite Hm in H.
      assert (Habs : Some (x, rest) = None); [|discriminate].
      apply H. destruct s; left; reflexivity.
  - destruct s as [|c s'].
    + split; [|reflexivity]. intros _ s' [<-|[]]. exact Hm.
    + simpl in Hfuel. rewrite IH by lia. simpl suffixes. split.
      * intros H s0 [<-|H0]; [exact Hm | exact (H _ H0)].
      * intros H s0 H0. apply H. right. exact H0.
Qed.

Lemma list_of_set_nil (l : list string) : list_of_set l = [] <-> l = [].
Proof.
  split.
  - intros H. destruct l as [|x l]; [reflexivity|]. exfalso.
    assert (Hx : x ∈ list_of_set (x :: l)).
    { apply list_of_set_elem. left. }
    rewrite H in Hx. inversion Hx.
  - intros ->. reflexivity.
Qed.

(** X3.  The crop search sees an order id in a text exactly when the
    field extractor finds at least one order id in it. *)
Theorem has_order_id_iff_extracted (text : string) :
  _has_order_id text = true <-> extract_order_ids text <> [].
Proof.
  unfold _has_order_id, search, extract_order_ids, findall.
  rewrite list_of_set_nil, findall_from_nil by lia.
  rewrite search_from_spec. split.
  - intros (s' & Hs' & [y Hy]) Hall. rewrite (Hall _ Hs') in Hy. discriminate.
  - intros Hnot.
    destruct (search_from ORDER_ID_PATTERN (String.length text) text) eqn:E.
    + apply search_from_spec in E. exact E.
    + exfalso. apply Hnot. intros s' Hs'.
      destruct (match_here ORDER_ID_PATTERN (String.length text) s') eqn:Hm;
        [|reflexivity].
      assert (Habs : search_from ORDER_ID_PATTERN (String.length text) text
                     = true); [|congruence].
      apply search_from_spec. exists s'. split; [exact Hs' | eauto].
Qed.

End SearchAndFind.

(** ** Validation, confidence and escalation on extracted data *)

Section ValidationOnExtracted.
Import DataExtractor DataValidator MeowzonExtractor Config Claims.

Section WithDates.
Variable strptime_b_d_Y : string -> option string.

Lemma extract_all_order_ids (text : string) :
  extract_all strptime_b_d_Y text !! "order_ids" = Some (extract_order_ids text).
Proof. unfold extract_all. by simplify_map_eq. Qed.

Lemma extract_all_items (text : string) :
  extract_all strptime_b_d_Y text !! "items" = Some (extract_items text).
Proof. unfold extract_all. by simplify_map_eq. Qed.

Lemma extract_all_prices (text : string) :
  extract_all strptime_b_d_Y text !! "prices" = Some (extract_prices text).
Proof. unfold extract_all. by simplify_map_eq. Qed.

End WithDates.

Lemma filter_invalid_nil (prices : list string) :
  (forall p, p ∈ prices -> validate_price p = true) ->
  List.filter (fun p => negb (validate_price p)) prices = [].
Proof.
  induction prices as [|p prices IH]; intros H; [reflexivity|]. simpl.
  rewrite (H p) by left. simpl. apply IH. intros q Hq. apply H. right. exact Hq.
Qed.

(** The issue list, when the first order id and all prices are well
    formed. *)
Lemma validate_extraction_well_formed (d : gmap string (list string)) :
  (forall first rest, items_of d "order_ids" = first :: rest ->
     validate_order_id first = true) ->
  (forall p, p ∈ items_of d "prices" -> validate_price p = true) ->
  validate_extraction d
  = (truthy (items_of d "order_ids") && truthy (items_of d "items"),
     (if truthy (items_of d "order_ids") then [] else [NoOrderIdFound])
     ++ (if truthy (items_of d "items") then [] else [NoItemsFound]))%list.
Proof.
  intros Hid Hprices. unfold validate_extraction.
  rewrite !get_truthy_items_of.
  rewrite (filter_invalid_nil _ Hprices). simpl truthy at 4.
  destruct (items_of d "order_ids") as [|first rest] eqn:Hids; simpl.
  - destruct (truthy (items_of d "items")), (truthy (items_of d "prices"));
      reflexivity.
  - rewrite (Hid first rest eq_refl). simpl.
    destruct (truthy (items_of d "items")), (truthy (items_of d "prices"));
      reflexivity.
Qed.

Lemma local_extraction_validation
    (strptime_b_d_Y : string -> option string) (text : string) :
  validate_extraction (extract_all strptime_b_d_Y text)
  = (truthy (extract_order_ids text) && truthy (extract_items text),
     (if truthy (extract_order_ids text) then [] else [NoOrderIdFound])
     ++ (if truthy (extract_items text) then [] else [NoItemsFound]))%list.
Proof.
  set (d := extract_all strptime_b_d_Y text).
  assert (Hids : items_of d "order_ids" = extract_order_ids text).
  { unfold items_of, d. rewrite extract_all_order_ids. reflexivity. }
  assert (Hitems : items_of d "items" = extract_items text).
  { unfold items_of, d. rewrite extract_all_items. reflexivity. }
  assert (Hprices : items_of d "prices" = extract_prices text).
  { unfold items_of, d. rewrite extract_all_prices. reflexivity. }
  rewrite validate_extraction_well_formed.
  - rewrite Hids, Hitems. reflexivity.
  - intros first rest Heq. apply (found_order_id_valid text).
    apply list_of_set_elem. fold (extract_order_ids text).
    rewrite <- Hids, Heq. left.
  - intros p Hp. apply (found_price_valid text).
    fold (extract_prices text). rewrite <- Hprices. exact Hp.
Qed.

Lemma local_extraction_valid_iff
    (strptime_b_d_Y : string -> option string) (text : string) :
  fst (validate_extraction (extract_all strptime_b_d_Y text)) = true
  <-> extract_order_ids text <> [] /\ extract_items text <> [].
Proof.
  rewrite local_extraction_validation. simpl fst. rewrite andb_true_iff.
  destruct (extract_order_ids text), (extract_items text); simpl;
    split; intros [H1 H2]; split; congruence.
Qed.

(** X4.  Validation of a local extraction never reports a malformed
    order id or malformed prices: its only possible issues are "No order
    ID found" and "No items found", and it is valid exactly when an order
    id and an item were found. *)
Theorem local_extraction_validates_cleanly
    (strptime_b_d_Y : string -> option string) (text : string) :
  let d := extract_all strptime_b_d_Y text in
  (forall issue, issue ∈ snd (validate_extraction d) ->
     issue = NoOrderIdFound \/ issue = NoItemsFound)
  /\ (fst (validate_extraction d) = true
      <-> extract_order_ids text <> [] /\ extract_items text <> []).
Proof.
  intros d. split; [|apply local_extraction_valid_iff].
  unfold d. rewrite local_extraction_validation. simpl snd.
  intros issue Hin. apply elem_of_app in Hin as [Hin|Hin].
  - destruct (truthy (extract_order_ids text)); [inversion Hin|].
    apply list_elem_of_singleton in Hin. left. exact Hin.
  - destruct (truthy (extract_items text)); [inversion Hin|].
    apply list_elem_of_singleton in Hin. right. exact Hin.
Qed.

End ValidationOnExtracted.

Section ConfidenceOnPipelineData.
Import DataExtractor DataValidator MeowzonExtractor AIProvider Config Claims.

Lemma validate_extraction_valid (d : gmap string (list string)) :
  fst (validate_extraction d) = true ->
  first_id_valid d = true /\ truthy (items_of d "items") = true.
Proof.
  unfold validate_extraction, first_id_valid. rewrite !get_truthy_items_of.
  destruct (items_of d "order_ids") as [|first rest]; simpl;
    [| destruct (validate_order_id first); simpl];
    destruct (truthy (items_of d "items")); simpl;
    destruct (truthy (items_of d "prices")); simpl;
    try destruct (truthy (List.filter (fun p => negb (validate_price p))
                            (items_of d "prices"))); simpl;
    intros H; try discriminate; split; reflexivity.
Qed.

Lemma item_points_at_least_5 (items : list string) :
  truthy items = true -> 5 <= item_points items.
Proof.
  intros H. unfold item_points, bonus. rewrite H.
  change 5 with (inject_Z 5). rewrite <- Zle_Qle.
  destruct items as [|i rest]; [discriminate|]. simpl length. lia.
Qed.

Lemma raw_sum_with_id_and_items (d : gmap string (list string)) (c : Q) :
  truthy (items_of d "items") = true ->
  (4 # 10) * c + 30 <= raw_sum true d c.
Proof.
  intros Hitems. unfold raw_sum.
  pose proof (item_points_at_least_5 _ Hitems) as Hi.
  pose proof (bonus_bounds (truthy (items_of d "totals")) 10) as [H2 _];
    [discriminate|].
  pose proof (bonus_bounds (truthy (items_of d "dates")) 5) as [H3 _];
    [discriminate|].
  unfold bonus at 1. lra.
Qed.

(** X5.  An extraction that passes validation scores at least
    0.4 * ocrConfidence + 30, capped at 100. *)
Theorem valid_extraction_scores_at_least_30 (d : gmap string (list string))
    (c : Q) :
  fst (validate_extraction d) = true ->
  Qmin ((4 # 10) * c + 30) 100 <= calculate_confidence d c.
Proof.
  intros Hvalid. apply validate_extraction_valid in Hvalid as [Hid Hitems].
  rewrite calculate_confidence_unfold, Hid.
  apply Q.min_le_compat_r. apply raw_sum_with_id_and_items. exact Hitems.
Qed.

Lemma valid_extraction_scores_at_least_30_witness :
  fst (validate_extraction complete_order) = true
  /\ Qmin ((4 # 10) * 50 + 30) 100 <= calculate_confidence complete_order 50.
Proof.
  assert (H : fst (validate_extraction complete_order) = true).
  { vm_compute. reflexivity. }
  split; [exact H|].
  exact (valid_extraction_scores_at_least_30 complete_order 50 H).
Defined.

Lemma hybrid_not_escalated (config : ExtractorConfig)
    (d : gmap string (list string)) (ocr_conf : Q) :
  _should_use_ai (with_ai_mode "hybrid" config) d ocr_conf = false ->
  tesseract_confidence_threshold config <= ocr_conf
  /\ truthy (items_of d "order_ids") = true
  /\ truthy (items_of d "items") = true.
Proof.
  unfold _should_use_ai. simpl. rewrite !get_truthy_items_of.
  destruct (ImageProcessor.Qgtb (tesseract_confidence_threshold config) ocr_conf)
    eqn:Hthr; [discriminate|].
  apply Qgtb_false in Hthr.
  destruct (truthy (items_of d "order_ids")); [|discriminate].
  destruct (truthy (items_of d "items")); [|discriminate].
  intros _. repeat split. exact Hthr.
Qed.

(** X6.  In hybrid mode a local extraction that is not escalated to the
    AI has status Success, passes validation, and scores at least
    0.4 * threshold + 30 (capped at 100): 58 with the default threshold. *)
Theorem not_escalated_is_success (config : ExtractorConfig)
    (strptime_b_d_Y : string -> option string) (text : string) (ocr_conf : Q) :
  let d := extract_all strptime_b_d_Y text in
  _should_use_ai (with_ai_mode "hybrid" config) d ocr_conf = false ->
  status_of d = "Success"
  /\ fst (validate_extraction d) = true
  /\ Qmin ((4 # 10) * tesseract_confidence_threshold config + 30) 100
     <= calculate_confidence d ocr_conf.
Proof.
  intros d Hno. apply hybrid_not_escalated in Hno as (Hthr & Hids & Hitems).
  assert (Hvalid : fst (validate_extraction d) = true).
  { apply (local_extraction_valid_iff strptime_b_d_Y text).
    split.
    - unfold d, items_of in Hids. rewrite extract_all_order_ids in Hids.
      simpl in Hids. destruct (extract_order_ids text); [discriminate|congruence].
    - unfold d, items_of in Hitems. rewrite extract_all_items in Hitems.
      simpl in Hitems. destruct (extract_items text); [discriminate|congruence]. }
  split; [|split; [exact Hvalid|]].
  - unfold status_of. rewrite get_truthy_items_of, Hids. reflexivity.
  - apply validate_extraction_valid in Hvalid as [Hid _].
    rewrite calculate_confidence_unfold, Hid.
    apply Q.min_le_compat_r.
    eapply Qle_trans; [|apply raw_sum_with_id_and_items; exact Hitems].
    lra.
Qed.

Lemma not_escalated_is_success_witness :
  _should_use_ai (with_ai_mode "hybrid" default_config)
    (extract_all Samples.strptime_rejects Samples.order_with_item_text) 80
  = false
  /\ status_of (extract_all Samples.strptime_rejects
                  Samples.order_with_item_text) = "Success".
Proof.
  assert (H : _should_use_ai (with_ai_mode "hybrid" default_config)
                (extract_all Samples.strptime_rejects
                   Samples.order_with_item_text) 80 = false).
  { vm_compute. reflexivity. }
  split; [exact H|].
  exact (proj1 (not_escalated_is_success default_config
                  Samples.strptime_rejects Samples.order_with_item_text 80 H)).
Defined.

End ConfidenceOnPipelineData.

(** ** Merging *)

Section MergeFacts.
Import DataValidator MeowzonExtractor AIProvider Claims.

Lemma items_of_merge (local ai : gmap string (list string)) (key : string) :
  items_of (_merge_results local ai) key
  = match local !! key with
    | Some local_values => merged_as_stated local_values (items_of ai key)
    | None => []
    end.
Proof.
  unfold items_of at 1. rewrite merge_results_lookup.
  destruct (local !! key); reflexivity.
Qed.

Lemma merged_as_stated_nonempty (local_values ai_values : list string) :
  local_values <> [] -> merged_as_stated local_values ai_values <> [].
Proof.
  unfold merged_as_stated.
  destruct ai_values, local_values; congruence.
Qed.

(** X7.  Merging never turns a non-empty field into an empty one; in
    particular a record that had status Success keeps it after the
    merge. *)
Theorem merge_never_empties_a_field (local ai : gmap string (list string))
    (key : string) :
  items_of local key <> [] ->
  items_of (_merge_results local ai) key <> []
  /\ (key = "order_ids" -> status_of (_merge_results local ai) = "Success").
Proof.
  intros Hne.
  assert (H : items_of (_merge_results local ai) key <> []).
  { rewrite items_of_merge. unfold items_of in Hne.
    destruct (local !! key) as [local_values|]; [|contradiction].
    apply merged_as_stated_nonempty. exact Hne. }
  split; [exact H|]. intros ->.
  unfold status_of. rewrite get_truthy_items_of.
  destruct (items_of (_merge_results local ai) "order_ids");
    [contradiction | reflexivity].
Qed.

Lemma merge_never_empties_a_field_witness :
  items_of local_only_ids "order_ids" <> []
  /\ items_of (_merge_results local_only_ids ai_only_items) "order_ids" <> [].
Proof.
  assert (H : items_of local_only_ids "order_ids" <> []).
  { vm_compute. discriminate. }
  split; [exact H|].
  exact (proj1 (merge_never_empties_a_field local_only_ids ai_only_items
                  "order_ids" H)).
Defined.

(** X8.  Merging with an AI result that found nothing (every list
    empty, or no key at all) returns the local data unchanged; and
    merging the same AI result a second time changes nothing. *)
Theorem merge_with_nothing_and_twice (local ai : gmap string (list string)) :
  ((forall key, items_of ai key = []) -> _merge_results local ai = local)
  /\ _merge_results (_merge_results local ai) ai = _merge_results local ai.
Proof.
  split.
  - intros Hai. apply map_eq. intros key. rewrite merge_results_lookup.
    destruct (local !! key) as [local_values|]; [|reflexivity]. simpl.
    rewrite Hai. unfold merged_as_stated. destruct local_values; reflexivity.
  - apply map_eq. intros key. rewrite !merge_results_lookup.
    destruct (local !! key) as [local_values|]; [|reflexivity]. simpl.
    f_equal. unfold merged_as_stated.
    destruct (items_of ai key), local_values; reflexivity.
Qed.

End MergeFacts.

(** ** What the AI adapter hands to the merge *)

Section NormalizedAnswers.
Import DataExtractor DataValidator MeowzonExtractor AIProvider Config Claims.
Variable py_str : json -> string.

Lemma items_of_insert (d : gmap string (list string)) (key k : string)
    (l : list string) :
  items_of (<[key := l]> d) k = if decide (key = k) then l else items_of d k.
Proof.
  unfold items_of. rewrite lookup_insert. destruct (decide (key = k)); reflexivity.
Qed.

Lemma copy_field_items (data : list (string * json)) (field key k : string)
    (result : gmap string (list string)) :
  items_of (copy_field py_str data field key result) k
  = if decide (key = k)
    then (items_of result k
          ++ match get_if_truthy data field with
             | Some v => [py_str v]
             | None => []
             end)%list
    else items_of result k.
Proof.
  unfold copy_field.
  destruct (get_if_truthy data field) as [v|].
  - unfold append_to. rewrite items_of_insert.
    destruct (decide (key = k)) as [->|]; reflexivity.
  - destruct (decide (key = k)); [rewrite app_nil_r|]; reflexivity.
Qed.

Lemma add_item_other (result : gmap string (list string)) (item : json)
    (k : string) :
  k <> "items" -> k <> "quantities" -> k <> "prices" ->
  items_of (add_item py_str result item) k = items_of result k.
Proof.
  intros H1 H2 H3. unfold add_item. destruct item; try reflexivity.
  rewrite !copy_field_items.
  repeat (destruct (decide _); [congruence|]). reflexivity.
Qed.

Lemma fold_add_item_other (items : list json)
    (result : gmap string (list string)) (k : string) :
  k <> "items" -> k <> "quantities" -> k <> "prices" ->
  items_of (fold_left (add_item py_str) items result) k = items_of result k.
Proof.
  intros H1 H2 H3. revert result.
  induction items as [|item rest IH]; intros result; [reflexivity|].
  simpl. rewrite IH. apply add_item_other; assumption.
Qed.

Lemma empty_result_items (k : string) : items_of empty_result k = [].
Proof.
  unfold empty_result. rewrite !items_of_insert.
  repeat (destruct (decide _); [reflexivity|]).
  unfold items_of. rewrite lookup_empty. reflexivity.
Qed.

Lemma normalize_scalar_field (fields : list (string * json))
    (result : gmap string (list string)) (field key : string) :
  _normalize_to_lists py_str (JObj fields) = Some result ->
  (field, key) ∈ [("order_id", "order_ids"); ("order_date", "dates");
                  ("total", "totals"); ("seller", "sellers");
                  ("tracking_number", "tracking_numbers")] ->
  items_of result key
  = match get_if_truthy fields field with
    | Some v => [py_str v]
    | None => []
    end.
Proof.
  intros [= <-] Hin. unfold extend_to.
  repeat (apply elem_of_cons in Hin as [[= -> ->]|Hin]);
    [.. | inversion Hin];
    rewrite items_of_insert, decide_False by discriminate;
    rewrite fold_add_item_other by discriminate;
    rewrite !copy_field_items;
    repeat (rewrite decide_False by discriminate);
    rewrite decide_True by reflexivity;
    repeat (rewrite decide_False by discriminate);
    rewrite empty_result_items; reflexivity.
Qed.

(** X9.  In the field set [_normalize_to_lists] builds, the order ids,
    dates, totals, sellers and tracking numbers each hold at most one
    string: [str] of the answer's value when it is present and truthy,
    nothing when it is null, empty or missing. *)
Theorem normalized_scalars_are_singletons (fields : list (string * json))
    (result : gmap string (list string)) (field key : string) :
  _normalize_to_lists py_str (JObj fields) = Some result ->
  (field, key) ∈ [("order_id", "order_ids"); ("order_date", "dates");
                  ("total", "totals"); ("seller", "sellers");
                  ("tracking_number", "tracking_numbers")] ->
  items_of result key
  = match get_if_truthy fields field with
    | Some v => [py_str v]
    | None => []
    end.
Proof. apply normalize_scalar_field. Qed.

End NormalizedAnswers.

Section NormalizedAnswersExamples.
Import DataValidator AIProvider.

Lemma normalized_scalars_are_singletons_witness :
  items_of (default ∅ (_normalize_to_lists Samples.str_of_strings
                         Samples.ai_answer_with_id)) "order_ids"
  = ["999-7654321-7654321"].
Proof.
  assert (H : _normalize_to_lists Samples.str_of_strings
                Samples.ai_answer_with_id
              = Some (default ∅ (_normalize_to_lists Samples.str_of_strings
                                   Samples.ai_answer_with_id))).
  { reflexivity. }
  assert (Hin : ("order_id", "order_ids")
                ∈ [("order_id", "order_ids"); ("order_date", "dates");
                   ("total", "totals"); ("seller", "sellers");
                   ("tracking_number", "tracking_numbers")]).
  { left. }
  pose proof (normalized_scalars_are_singletons Samples.str_of_strings
                [("order_id", JStr "999-7654321-7654321"); ("items", JArr [])]
                _ "order_id" "order_ids" H Hin) as Hw.
  exact Hw.
Defined.

End NormalizedAnswersExamples.

(** ** The stated confidence formula on the data the pipeline produces *)

Section PipelineConfidence.
Import DataExtractor DataValidator MeowzonExtractor AIProvider Config Claims.

Lemma existsb_is_first (f : string -> bool) (l : list string) :
  (forall x, x ∈ l -> f x = true) \/ (length l <= 1)%nat ->
  existsb f l = match l with x :: _ => f x | [] => false end.
Proof.
  destruct l as [|x l]; [reflexivity|]. simpl. intros [Hall|Hlen].
  - rewrite (Hall x) by left. reflexivity.
  - destruct l; [apply orb_false_r | simpl in Hlen; lia].
Qed.

Lemma confidence_as_stated_when_first_decides
    (d : gmap string (list string)) (c : Q) :
  0 <= c -> some_id_valid d = first_id_valid d ->
  calculate_confidence d c == confidence_as_stated d c.
Proof.
  intros Hc Heq. unfold confidence_as_stated, clamp. rewrite Heq.
  rewrite calculate_confidence_unfold. symmetry. apply Q.max_r.
  apply Q.min_glb; [apply raw_sum_nonneg; exact Hc | discriminate].
Qed.

(** X10.  On every field set the pipeline can hand to the scorer, the
    local extraction of a text or its merge with a normalized AI answer,
    [calculate_confidence] agrees with the formula that awards the 25
    points when any of the order ids is valid: checking only the first
    id loses nothing there. *)
Theorem calculate_confidence_on_pipeline_data
    (strptime_b_d_Y : string -> option string) (py_str : json -> string)
    (text : string) (fields : list (string * json))
    (ai : gmap string (list string)) (c : Q) :
  0 <= c -> _normalize_to_lists py_str (JObj fields) = Some ai ->
  let local := extract_all strptime_b_d_Y text in
  calculate_confidence local c == confidence_as_stated local c
  /\ calculate_confidence (_merge_results local ai) c
     == confidence_as_stated (_merge_results local ai) c.
Proof.
  intros Hc Hai local.
  assert (Hlocal : items_of local "order_ids" = extract_order_ids text).
  { unfold items_of, local. rewrite extract_all_order_ids. reflexivity. }
  assert (Hvalid : forall x, x ∈ extract_order_ids text ->
                     validate_order_id x = true).
  { intros x Hx. apply (found_order_id_valid text).
    apply list_of_set_elem. exact Hx. }
  split; apply confidence_as_stated_when_first_decides; try exact Hc;
    unfold some_id_valid, first_id_valid; apply existsb_is_first.
  - left. rewrite Hlocal. exact Hvalid.
  - rewrite items_of_merge. unfold local. rewrite extract_all_order_ids.
    pose proof (normalize_scalar_field py_str fields ai "order_id" "order_ids"
                  Hai) as Hone.
    rewrite Hone by left. unfold merged_as_stated.
    destruct (get_if_truthy fields "order_id") as [v|].
    + right. simpl. lia.
    + left. destruct (extract_order_ids text);
        [intros x Hx; inversion Hx | exact Hvalid].
Qed.

End PipelineConfidence.

Section PipelineConfidenceExamples.
Import DataExtractor DataValidator MeowzonExtractor AIProvider Claims.

Lemma calculate_confidence_on_pipeline_data_witness :
  let local := extract_all Samples.strptime_rejects Samples.order_with_item_text in
  let ai := default ∅ (_normalize_to_lists Samples.str_of_strings
                         Samples.ai_answer_with_id) in
  calculate_confidence local 80 == confidence_as_stated local 80
  /\ calculate_confidence (_merge_results local ai) 80
     == confidence_as_stated (_merge_results local ai) 80.
Proof.
  apply (calculate_confidence_on_pipeline_data Samples.strptime_rejects
           Samples.str_of_strings Samples.order_with_item_text
           [("order_id", JStr "999-7654321-7654321"); ("items", JArr [])]);
    [unfold Qle; simpl; lia | reflexivity].
Defined.

End PipelineConfidenceExamples.

(** ** The per-file pipeline *)

Section PerFilePipeline.
Import DataExtractor DataValidator MeowzonExtractor ImageProcessor Config Claims.
Variable strptime_b_d_Y : string -> option string.
Variable extract_text : Image -> string * Q * Image.
Variable round1 : Q -> Q.

Lemma extract_all_is_field_set (text : string) :
  is_field_set (extract_all strptime_b_d_Y text).
Proof.
  unfold extract_all, is_field_set.
  rewrite !dom_insert_L, dom_empty_L. vm_compute. reflexivity.
Qed.

(** The fields and the AI flag of a result, in terms of the AI step. *)
Lemma process_loaded_image_fields
    (ai_processor : option (Image -> option (gmap string (list string)) * string))
    (config : ExtractorConfig) (image : Image) :
  let found := find_best_crop extract_text (crop_strategies config) image
                 (tesseract_confidence_threshold config) in
  let local := extract_all strptime_b_d_Y found.1.1.1.2 in
  let step := ai_step ai_processor
                (_should_use_ai config local found.1.1.2) found.1.1.1.1 local in
  let p := process_loaded_image strptime_b_d_Y extract_text round1 ai_processor
             config image in
  extracted_fields p = step.1.1 /\ ai_used p = step.1.2
  /\ ai_status p = step.2 /\ status p = status_of step.1.1
  /\ validation_issues p = snd (validate_extraction step.1.1).
Proof.
  unfold process_loaded_image.
  destruct (find_best_crop extract_text (crop_strategies config) image
              (tesseract_confidence_threshold config))
    as [[[[best_color ocr_text] ocr_conf] best_processed] crop_params].
  simpl.
  destruct (ai_step ai_processor
              (_should_use_ai config (extract_all strptime_b_d_Y ocr_text)
                 ocr_conf) best_color (extract_all strptime_b_d_Y ocr_text))
    as [[extracted used] st].
  destruct (validate_extraction extracted) as [is_valid issues].
  simpl. repeat split.
Qed.

Lemma ai_step_cases
    (ai_processor : option (Image -> option (gmap string (list string)) * string))
    (use_ai : bool) (best_color : Image) (local : gmap string (list string)) :
  let step := ai_step ai_processor use_ai best_color local in
  (step.1.2 = false /\ step.1.1 = local)
  \/ (step.1.2 = true /\ use_ai = true
      /\ exists extract ai_data,
           ai_processor = Some extract
           /\ (extract best_color).1 = Some ai_data
           /\ step.2 = (extract best_color).2
           /\ step.1.1 = _merge_results local ai_data).
Proof.
  unfold ai_step.
  destruct use_ai; [|left; split; reflexivity].
  destruct ai_processor as [extract|]; [|left; split; reflexivity].
  destruct (extract best_color) as [[ai_data|] st] eqn:E;
    [|left; split; reflexivity].
  destruct (bool_decide (ai_data = ∅)); simpl; [left; split; reflexivity|].
  right. split; [reflexivity|]. split; [reflexivity|].
  exists extract, ai_data. rewrite E. repeat split.
Qed.

(** X11.  Whatever the recognizer and the AI adapter return, the fields
    of a processed image are a field set: exactly the eight keys. *)
Theorem processed_fields_are_a_field_set
    (ai_processor : option (Image -> option (gmap string (list string)) * string))
    (config : ExtractorConfig) (image : Image) :
  is_field_set (extracted_fields
                  (process_loaded_image strptime_b_d_Y extract_text round1
                     ai_processor config image)).
Proof.
  destruct (process_loaded_image_fields ai_processor config image)
    as (Hfields & _).
  rewrite Hfields.
  match goal with
  | |- is_field_set (ai_step ?a ?u ?b ?l).1.1 =>
      destruct (ai_step_cases a u b l) as [[_ ->]|(_ & _ & ex & ai & _ & _ & _ & ->)]
  end.
  - apply extract_all_is_field_set.
  - unfold is_field_set. rewrite merge_results_dom.
    apply extract_all_is_field_set.
Qed.

(** X12.  When no AI data was used (mode never, no adapter, no
    escalation, or a failed AI call), the fields of the result are the
    local extraction of the best crop's text, and validation reports at
    most missing order ids and missing items. *)
Theorem without_ai_the_fields_are_local
    (ai_processor : option (Image -> option (gmap string (list string)) * string))
    (config : ExtractorConfig) (image : Image) :
  let p := process_loaded_image strptime_b_d_Y extract_text round1 ai_processor
             config image in
  let found := find_best_crop extract_text (crop_strategies config) image
                 (tesseract_confidence_threshold config) in
  ai_used p = false ->
  extracted_fields p = extract_all strptime_b_d_Y found.1.1.1.2
  /\ forall issue, issue ∈ validation_issues p ->
       issue = NoOrderIdFound \/ issue = NoItemsFound.
Proof.
  intros p found Hused.
  destruct (process_loaded_image_fields ai_processor config image)
    as (Hfields & Hflag & _ & _ & Hissues).
  fold p found in Hfields, Hflag, Hissues.
  rewrite Hflag in Hused.
  match type of Hused with
  | (ai_step ?a ?u ?b ?l).1.2 = false =>
      destruct (ai_step_cases a u b l) as [[_ Hl]|(Habs & _)];
        [|rewrite Habs in Hused; discriminate]
  end.
  rewrite Hfields, Hissues, Hl. split; [reflexivity|].
  rewrite local_extraction_validation. simpl snd.
  intros issue Hin. apply elem_of_app in Hin as [Hin|Hin].
  - destruct (truthy (extract_order_ids _)); [inversion Hin|].
    apply list_elem_of_singleton in Hin. left. exact Hin.
  - destruct (truthy (extract_items _)); [inversion Hin|].
    apply list_elem_of_singleton in Hin. right. exact Hin.
Qed.

(** X13.  In mode never, and whenever no AI adapter was initialised, no
    AI data is used and the AI status stays empty; when AI data is used,
    a local status Success is kept. *)
Theorem ai_is_used_only_when_asked_for
    (ai_processor : option (Image -> option (gmap string (list string)) * string))
    (config : ExtractorConfig) (image : Image) :
  let never := process_loaded_image strptime_b_d_Y extract_text round1
                 ai_processor (with_ai_mode "never" config) image in
  let no_adapter := process_loaded_image strptime_b_d_Y extract_text round1
                      None config image in
  let p := process_loaded_image strptime_b_d_Y extract_text round1 ai_processor
             config image in
  let found := find_best_crop extract_text (crop_strategies config) image
                 (tesseract_confidence_threshold config) in
  (ai_used never = false /\ ai_status never = "")
  /\ (ai_used no_adapter = false /\ ai_status no_adapter = "")
  /\ (status_of (extract_all strptime_b_d_Y found.1.1.1.2) = "Success" ->
      status p = "Success").
Proof.
  intros never no_adapter p found. split; [|split].
  - destruct (process_loaded_image_fields ai_processor
                (with_ai_mode "never" config) image) as (_ & Hflag & Hst & _).
    fold never in Hflag, Hst. rewrite Hflag, Hst.
    unfold ai_step, _should_use_ai. simpl. split; reflexivity.
  - destruct (process_loaded_image_fields None config image)
      as (_ & Hflag & Hst & _).
    fold no_adapter in Hflag, Hst. rewrite Hflag, Hst. unfold ai_step.
    destruct (_should_use_ai config _ _); split; reflexivity.
  - intros Hlocal.
    destruct (process_loaded_image_fields ai_processor config image)
      as (Hfields & _ & _ & Hstatus & _).
    fold p found in Hfields, Hstatus. rewrite Hstatus.
    match goal with
    | |- status_of (ai_step ?a ?u ?b ?l).1.1 = _ =>
        destruct (ai_step_cases a u b l)
          as [[_ ->]|(_ & _ & ex & ai & _ & _ & _ & ->)]
    end; [exact Hlocal|].
    unfold status_of in *. rewrite get_truthy_items_of in *.
    rewrite items_of_merge.
    unfold items_of in Hlocal.
    destruct (extract_all strptime_b_d_Y found.1.1.1.2 !! "order_ids")
      as [[|o os]|]; simpl in Hlocal.
    + destruct (get_truthy _ "items"); discriminate.
    + unfold merged_as_stated. destruct (items_of ai "order_ids"); reflexivity.
    + destruct (get_truthy _ "items"); discriminate.
Qed.

End PerFilePipeline.

(** ** Crops *)

Section Crops.
Import ImageProcessor OCREngine Config Claims Samples.
Local Open Scope Z_scope.

Lemma int_of_nonneg (h : Z) (m : Q) :
  0 <= h -> (0 <= m)%Q -> 0 <= int_of (inject_Z h * m).
Proof.
  intros Hh Hm. unfold int_of. apply Z.quot_pos; [|apply Pos2Z.is_pos].
  unfold Qle in Hm. simpl in Hm |- *. nia.
Qed.

Lemma py_slice_length {A} (l : list A) (a b : Z) :
  0 <= a -> a <= b -> b <= Z.of_nat (length l) ->
  Z.of_nat (length (py_slice l a b)) = b - a.
Proof.
  intros Ha Hab Hb. unfold py_slice, clip.
  rewrite (proj2 (Z.ltb_ge a 0)) by lia.
  rewrite (proj2 (Z.ltb_ge b 0)) by lia.
  rewrite !Z.min_l by lia.
  rewrite length_take, length_drop. lia.
Qed.

Lemma py_slice_elem {A} (l : list A) (a b : Z) (x : A) :
  x ∈ py_slice l a b -> x ∈ l.
Proof.
  unfold py_slice. intros H.
  apply subseteq_take in H. apply subseteq_drop in H. exact H.
Qed.

(** X14.  A crop that [apply_crop] accepts, for margins that are not
    negative and a rectangular image, is rectangular, at least 50 by 50
    pixels and no larger than the image. *)
Theorem accepted_crop_dimensions (image cropped : Image)
    (crop_params : CropStrategy) :
  rectangular image -> margins_nonneg crop_params ->
  apply_crop image crop_params = Some cropped ->
  rectangular cropped
  /\ 50 <= fst (shape cropped) <= fst (shape image)
  /\ 50 <= snd (shape cropped) <= snd (shape image).
Proof.
  intros Hrect (Ht & Hb & Hl & Hr). unfold apply_crop, shape.
  set (height := Z.of_nat (length image)).
  set (width := Z.of_nat (length (hd [] image))).
  set (start_y := int_of (inject_Z height * top crop_params)).
  set (dy := int_of (inject_Z height * bottom crop_params)).
  set (start_x := int_of (inject_Z width * left crop_params)).
  set (dx := int_of (inject_Z width * right crop_params)).
  assert (0 <= start_y) by (apply int_of_nonneg; [lia | exact Ht]).
  assert (0 <= dy) by (apply int_of_nonneg; [lia | exact Hb]).
  assert (0 <= start_x) by (apply int_of_nonneg; [lia | exact Hl]).
  assert (0 <= dx) by (apply int_of_nonneg; [lia | exact Hr]).
  destruct ((height - dy <=? start_y) || (width - dx <=? start_x)) eqn:E1;
    [discriminate|].
  destruct ((height - dy - start_y <? 50) || (width - dx - start_x <? 50))
    eqn:E2; [discriminate|].
  apply orb_false_iff in E1 as [E1y E1x]. apply orb_false_iff in E2 as [E2y E2x].
  apply Z.leb_gt in E1y, E1x. apply Z.ltb_ge in E2y, E2x.
  intros [= <-]. unfold crop_rect.
  assert (Hrows : Z.of_nat (length (py_slice image start_y (height - dy)))
                  = height - dy - start_y).
  { apply py_slice_length; lia. }
  assert (Hrow : forall row, row ∈ py_slice image start_y (height - dy) ->
            Z.of_nat (length (py_slice row start_x (width - dx)))
            = width - dx - start_x).
  { intros row Hin. apply py_slice_elem in Hin.
    apply py_slice_length; try lia.
    unfold rectangular in Hrect. rewrite Forall_forall in Hrect.
    rewrite (Hrect row Hin). unfold width. lia. }
  destruct (py_slice image start_y (height - dy)) as [|row0 rows] eqn:Hs.
  { simpl in Hrows. lia. }
  simpl length. simpl hd.
  pose proof (Hrow row0 ltac:(left)) as Hfirst.
  split; [|split].
  - unfold rectangular. simpl hd. apply Forall_forall. intros r Hr0.
    change (r ∈ (fun row => py_slice row start_x (width - dx)) <$> row0 :: rows)
      in Hr0.
    apply list_elem_of_fmap in Hr0 as (row & -> & Hin).
    apply Nat2Z.inj. rewrite (Hrow row Hin). lia.
  - rewrite length_map. simpl length in Hrows. simpl fst. lia.
  - simpl snd. lia.
Qed.

End Crops.

Section DefaultCrops.
Import ImageProcessor OCREngine Config Claims Samples.
Local Open Scope Z_scope.

Lemma validate_image_bounds (image : Image) :
  fst (validate_image (Some image)) = true ->
  100 <= fst (shape image) <= 10000 /\ 100 <= snd (shape image) <= 10000.
Proof.
  unfold validate_image. destruct (shape image) as [height width]. simpl.
  destruct ((height <? 100) || (width <? 100)) eqn:E1; [discriminate|].
  destruct ((height >? 10000) || (width >? 10000)) eqn:E2; [discriminate|].
  intros _. apply orb_false_iff in E1 as [? ?]. apply orb_false_iff in E2 as [? ?].
  lia.
Qed.

Lemma int_of_fraction (h num : Z) (den : positive) :
  0 <= h -> 0 <= num ->
  int_of (inject_Z h * (num # den)) = (h * num) / Zpos den.
Proof.
  intros Hh Hn. unfold int_of. simpl.
  rewrite Z.quot_div_nonneg; [reflexivity | nia | lia].
Qed.

(** X15.  Every strategy of the default catalog yields a usable crop on
    every image that [validate_image] accepts. *)
Theorem default_crops_fit_validated_images (image : Image)
    (crop_params : CropStrategy) :
  fst (validate_image (Some image)) = true ->
  crop_params ∈ default_crop_strategies ->
  is_Some (apply_crop image crop_params).
Proof.
  intros Hvalid Hin. apply validate_image_bounds in Hvalid as [Hh Hw].
  unfold apply_crop. destruct (shape image) as [height width].
  simpl in Hh, Hw.
  unfold default_crop_strategies in Hin.
  repeat (apply elem_of_cons in Hin as [->|Hin]); [.. | inversion Hin];
    cbn [top bottom left right];
    change 0%Q with (0 # 1)%Q;
    rewrite !int_of_fraction by lia;
    match goal with
    | |- is_Some (if ?c1 then _ else if ?c2 then _ else _) =>
        replace c1 with false
          by (symmetry; apply orb_false_iff; split; apply Z.leb_gt;
              Z.div_mod_to_equations; lia);
        replace c2 with false
          by (symmetry; apply orb_false_iff; split; apply Z.ltb_ge;
              Z.div_mod_to_equations; lia)
    end; eauto.
Qed.

Lemma default_crops_fit_validated_images_witness :
  is_Some (apply_crop (blank 100 100)
             {| name := "Center 80%"; top := 1 # 10; bottom := 1 # 10;
                left := 1 # 10; right := 1 # 10 |}).
Proof.
  apply default_crops_fit_validated_images.
  - vm_compute. reflexivity.
  - unfold default_crop_strategies. do 3 right. left.
Defined.

Lemma blank_rectangular (h w : nat) : rectangular (blank h w).
Proof.
  unfold rectangular, blank. destruct h as [|h]; [constructor|].
  apply Forall_forall. intros row Hin.
  apply list_elem_of_In, repeat_spec in Hin. subst row. reflexivity.
Qed.

Lemma accepted_crop_dimensions_witness :
  exists cropped,
    apply_crop (blank 100 100)
      {| name := "No Top 20%"; top := 2 # 10; bottom := 0; left := 0;
         right := 0 |} = Some cropped
    /\ 50 <= fst (shape cropped) <= fst (shape (blank 100 100)).
Proof.
  eexists. split; [vm_compute; reflexivity|].
  refine (proj1 (proj2 (accepted_crop_dimensions (blank 100 100) _
            {| name := "No Top 20%"; top := 2 # 10; bottom := 0; left := 0;
               right := 0 |} (blank_rectangular 100 100) _ _))).
  - repeat split; unfold Qle; simpl; lia.
  - vm_compute. reflexivity.
Defined.

End DefaultCrops.

(** ** What the crop search returns and how often it recognizes *)

Section SearchResult.
Import ImageProcessor Config Claims Samples.
Variable ocr_function : Image -> string * Q * Image.

Lemma try_crop_genuine (catalog : list CropStrategy) (image : Image)
    (threshold : Q) (st : SearchState) (crop_dict : CropStrategy) :
  genuine_candidate ocr_function catalog image st -> crop_dict ∈ catalog ->
  genuine_candidate ocr_function catalog image
    (fst (try_crop ocr_function image threshold st crop_dict)).
Proof.
  intros (Hocr & Hcall & Hparams) Hin. unfold try_crop.
  destruct (apply_crop image crop_dict) as [cropped|] eqn:Hcrop;
    [|repeat split; assumption].
  destruct (ocr_function cropped) as [[text conf] processed] eqn:Hread.
  destruct (Qgtb (score_of text conf) (score st)); simpl.
  - split; [exact Hread|]. split; [|split; assumption].
    simpl. apply elem_of_app. right. left.
  - split; [exact Hocr|]. split; [|exact Hparams].
    simpl. apply elem_of_app. left. exact Hcall.
Qed.

Lemma crop_loop_genuine (catalog : list CropStrategy) (image : Image)
    (threshold : Q) (crop_strategies : list CropStrategy) (st : SearchState) :
  genuine_candidate ocr_function catalog image st ->
  crop_strategies ⊆ catalog ->
  genuine_candidate ocr_function catalog image
    (crop_loop ocr_function image threshold crop_strategies st).
Proof.
  revert st. induction crop_strategies as [|crop_dict rest IH];
    intros st Hst Hsub; [exact Hst|].
  simpl.
  pose proof (try_crop_genuine catalog image threshold st crop_dict Hst) as H.
  destruct (try_crop ocr_function image threshold st crop_dict) as [st' brk].
  simpl in H.
  assert (Hst' : genuine_candidate ocr_function catalog image st').
  { apply H. apply Hsub. left. }
  destruct brk; [exact Hst'|]. apply IH; [exact Hst'|].
  intros x Hx. apply Hsub. right. exact Hx.
Qed.

Lemma try_crop_calls (image : Image) (threshold : Q) (st : SearchState)
    (crop_dict : CropStrategy) :
  exists more,
    ocr_calls (fst (try_crop ocr_function image threshold st crop_dict))
    = (ocr_calls st ++ more)%list
    /\ (length more <= 1)%nat.
Proof.
  unfold try_crop.
  destruct (apply_crop image crop_dict) as [cropped|].
  - destruct (ocr_function cropped) as [[text conf] processed].
    exists [cropped].
    destruct (Qgtb (score_of text conf) (score st)); simpl; split;
      solve [reflexivity | lia].
  - exists []. simpl. rewrite app_nil_r. split; [reflexivity | lia].
Qed.

Lemma crop_loop_calls (image : Image) (threshold : Q)
    (crop_strategies : list CropStrategy) (st : SearchState) :
  exists more,
    ocr_calls (crop_loop ocr_function image threshold crop_strategies st)
    = (ocr_calls st ++ more)%list
    /\ (length more <= length crop_strategies)%nat.
Proof.
  revert st. induction crop_strategies as [|crop_dict rest IH]; intros st.
  - exists []. simpl. rewrite app_nil_r. split; [reflexivity | lia].
  - simpl.
    destruct (try_crop_calls image threshold st crop_dict) as (m1 & H1 & L1).
    destruct (try_crop ocr_function image threshold st crop_dict) as [st' brk].
    simpl in H1. destruct brk.
    + exists m1. split; [exact H1 | lia].
    + destruct (IH st') as (m2 & H2 & L2).
      exists (m1 ++ m2)%list. rewrite H2, H1, <- app_assoc.
      split; [reflexivity|]. rewrite length_app. lia.
Qed.

Lemma full_image_state_genuine (catalog : list CropStrategy) (image : Image) :
  genuine_candidate ocr_function catalog image
    (full_image_state ocr_function image).
Proof.
  unfold genuine_candidate, full_image_state.
  destruct (ocr_function image) as [[text conf] processed] eqn:E. simpl.
  split; [exact E|]. split; [left | reflexivity].
Qed.

(** X16.  What [find_best_crop] returns is a genuine candidate: the
    text, confidence and processed image are those the recognizer gives
    for the returned image, which is the full image when no strategy is
    returned and otherwise the crop of the returned strategy, a member of
    the catalog. *)
Theorem find_best_crop_returns_a_recognized_candidate
    (crop_strategies : list CropStrategy) (image : Image) (threshold : Q) :
  let '(color, text, conf, processed, params) :=
    find_best_crop ocr_function crop_strategies image threshold in
  ocr_function color = (text, conf, processed)
  /\ match params with
     | None => color = image
     | Some crop_dict =>
         crop_dict ∈ crop_strategies /\ apply_crop image crop_dict = Some color
     end.
Proof.
  unfold find_best_crop, find_best_crop_state.
  pose proof (full_image_state_genuine crop_strategies image) as Hfull.
  destruct (very_confident threshold
              (best_text (full_image_state ocr_function image))
              (best_conf (full_image_state ocr_function image))).
  - destruct Hfull as (H1 & _ & H3). split; assumption.
  - destruct (crop_loop_genuine crop_strategies image threshold crop_strategies
                _ Hfull) as (H1 & _ & H3); [reflexivity|].
    split; assumption.
Qed.

(** X17.  [find_best_crop] hands the full image to the recognizer first
    and then at most one crop per strategy: between 1 and
    1 + len(crop_strategies) calls in all. *)
Theorem find_best_crop_recognizes_at_most_once_per_strategy
    (crop_strategies : list CropStrategy) (image : Image) (threshold : Q) :
  let calls := ocr_calls (find_best_crop_state ocr_function crop_strategies
                            image threshold) in
  head calls = Some image
  /\ (1 <= length calls <= 1 + length crop_strategies)%nat.
Proof.
  unfold find_best_crop_state.
  destruct (full_image_state_kept ocr_function image) as (_ & _ & Hcalls & _).
  destruct (very_confident threshold
              (best_text (full_image_state ocr_function image))
              (best_conf (full_image_state ocr_function image))).
  - simpl. rewrite Hcalls. simpl. split; [reflexivity | lia].
  - destruct (crop_loop_calls image threshold crop_strategies
                (full_image_state ocr_function image)) as (more & Heq & Hlen).
    simpl. rewrite Heq, Hcalls. simpl. split; [reflexivity | lia].
Qed.

End SearchResult.

(** ** The range of the recognition confidence *)

Section ConfidenceRange.
Import OCREngine ImageProcessor Claims Samples.

Lemma sum_bounds (lo hi : Z) (l : list Z) :
  Forall (fun n => (lo <= n <= hi)%Z) l ->
  (lo * Z.of_nat (length l) <= fold_right Z.add 0 l
   <= hi * Z.of_nat (length l))%Z.
Proof.
  induction 1 as [|n l Hn _ IH]; simpl fold_right; simpl length; lia.
Qed.

Lemma mean_bounds (lo hi : Z) (l : list Z) :
  l <> [] -> Forall (fun n => (lo <= n <= hi)%Z) l ->
  inject_Z lo <= mean l /\ mean l <= inject_Z hi.
Proof.
  intros Hne Hall. pose proof (sum_bounds lo hi l Hall) as [H1 H2].
  unfold mean.
  assert (Hpos : 0 < inject_Z (Z.of_nat (length l))).
  { change 0 with (inject_Z 0). rewrite <- Zlt_Qlt.
    destruct l; [contradiction | simpl; lia]. }
  split.
  - apply Qle_shift_div_l; [exact Hpos|].
    rewrite <- inject_Z_mult, <- Zle_Qle. exact H1.
  - apply Qle_shift_div_r; [exact Hpos|].
    rewrite <- inject_Z_mult, <- Zle_Qle. exact H2.
Qed.

Section WithEngine.
Variable image_to_data_conf : Image -> option (list ConfValue).
Variable image_to_string : Image -> option string.
Variable int_of_str : string -> option Z.
Variable adaptive_threshold : Q -> Image -> Image.

Lemma kept_confidences_in_range (lo : Z) (conf : list ConfValue) :
  Forall (conf_cell_in_range lo) conf ->
  exists l, kept_confidences int_of_str conf = Some l
            /\ Forall (fun n => (lo <= n <= 100)%Z) l.
Proof.
  unfold kept_confidences.
  induction 1 as [|c conf Hc _ (l & Hl & Hall)].
  - exists []. split; [reflexivity | constructor].
  - destruct c as [n|s]; simpl in Hc.
    + rewrite filter_cons_True by exact I.
      exists (n :: l). simpl. simpl in Hl. rewrite Hl. simpl.
      split; [reflexivity | constructor; assumption].
    + subst s. rewrite filter_cons_False by (simpl; intros []).
      exists l. split; assumption.
Qed.

Lemma ocr_with_confidence_in_range (lo : Z) (image : Image) :
  (lo <= 0)%Z ->
  (forall conf, image_to_data_conf image = Some conf ->
     Forall (conf_cell_in_range lo) conf) ->
  inject_Z lo
  <= snd (_ocr_with_confidence image_to_data_conf image_to_string int_of_str
            image)
  <= 100.
Proof.
  intros Hlo Hcells. unfold _ocr_with_confidence, ocr_try.
  assert (Hzero : inject_Z lo <= 0 <= 100).
  { split; [change 0 with (inject_Z 0); rewrite <- Zle_Qle; exact Hlo
           | discriminate]. }
  destruct (image_to_data_conf image) as [conf|]; simpl; [|exact Hzero].
  destruct (kept_confidences_in_range lo conf (Hcells conf eq_refl))
    as (l & -> & Hall). simpl.
  destruct (image_to_string image) as [text|]; simpl; [|exact Hzero].
  destruct l as [|n l]; simpl PyStr.truthy; cbv iota; [exact Hzero|].
  apply (mean_bounds lo 100); [discriminate | exact Hall].
Qed.

(** X18.  If every confidence cell the engine reports is the string
    ['-1'] or an integer between [lo] and 100, for some [lo <= 0], the
    confidence [preprocess_image] returns lies between [lo] and 100: in
    [0,100] when no cell is negative, and down to -1 when the sentinel
    arrives as the integer -1. *)
Theorem preprocess_image_confidence_range (lo : Z) (upscale_factor : Q)
    (image : Image) :
  (lo <= 0)%Z ->
  (forall variant conf, image_to_data_conf variant = Some conf ->
     Forall (conf_cell_in_range lo) conf) ->
  inject_Z lo
  <= (preprocess_image image_to_data_conf image_to_string int_of_str
        adaptive_threshold upscale_factor image).1.2
  <= 100.
Proof.
  intros Hlo Hcells. unfold preprocess_image.
  pose proof (ocr_with_confidence_in_range lo
                (adaptive_threshold upscale_factor image) Hlo
                (Hcells _)) as Hn.
  pose proof (ocr_with_confidence_in_range lo
                (bitwise_not (adaptive_threshold upscale_factor image)) Hlo
                (Hcells _)) as Hi.
  destruct (_ocr_with_confidence image_to_data_conf image_to_string int_of_str
              (adaptive_threshold upscale_factor image)) as [tn cn].
  destruct (_ocr_with_confidence image_to_data_conf image_to_string int_of_str
              (bitwise_not (adaptive_threshold upscale_factor image)))
    as [ti ci].
  simpl in Hn, Hi. destruct (Qle_bool ci cn); simpl; assumption.
Qed.

End WithEngine.

Lemma preprocess_image_confidence_range_witness :
  inject_Z (-1)
  <= (preprocess_image conf_with_integer_sentinel text_order int_of_str_raises
        (fun _ image => image) 2 (blank 1 1)).1.2
  <= 100.
Proof.
  apply (preprocess_image_confidence_range conf_with_integer_sentinel
           text_order int_of_str_raises (fun _ image => image) (-1) 2
           (blank 1 1)).
  - lia.
  - intros variant conf [= <-]. repeat constructor; simpl; lia.
Defined.

End ConfidenceRange.

(** ** Duplicate groups *)

Section DuplicateGroups.
Import DuplicateDetector MeowzonExtractor Claims Samples.
Local Open Scope nat_scope.

(** The file names of the rows filed under [key], in batch order. *)
Lemma fold_add_to_group (df : list Row) (duplicates : gmap string (list string))
    (key : string) :
  fold_left add_to_group df duplicates !! key
  = match file_name_of <$> filter (fun r => group_key r = Some key) df with
    | [] => duplicates !! key
    | names => Some (default [] (duplicates !! key) ++ names)%list
    end.
Proof.
  revert duplicates. induction df as [|r df IH]; intros duplicates.
  - reflexivity.
  - simpl fold_left. rewrite IH. unfold add_to_group.
    destruct (group_key r) as [k|] eqn:Hk.
    + destruct (decide (k = key)) as [->|Hne].
      * rewrite filter_cons_True by exact Hk.
        rewrite lookup_insert_eq. simpl default.
        rewrite fmap_cons.
        destruct (file_name_of <$> filter (fun r0 => group_key r0 = Some key) df);
          [reflexivity|].
        rewrite <- app_assoc. reflexivity.
      * rewrite filter_cons_False by congruence.
        rewrite lookup_insert_ne by exact Hne. reflexivity.
    + rewrite filter_cons_False by congruence. reflexivity.
Qed.

(** X19.  [get_duplicate_groups] maps a key to exactly the file names,
    in batch order, of the rows whose first order id (stripped) is that
    key, provided there are at least two of them; rows whose Order IDs
    cell is empty or NaN are filed under no key. *)
Theorem duplicate_groups_hold_two_or_more (df : list Row) (key : string)
    (files : list string) :
  (get_duplicate_groups df !! key = Some files
   <-> files = file_name_of <$> filter (fun r => group_key r = Some key) df
       /\ 2 <= length files)
  /\ (forall f c d, group_key (FullRow f "" c d) = None)
  /\ (forall f d, group_key (ShortRow f d) = None).
Proof.
  split; [|split; reflexivity].
  unfold get_duplicate_groups.
  destruct (has_order_ids_column df) eqn:Hcol; simpl.
  - rewrite map_lookup_filter_Some, fold_add_to_group, lookup_empty. simpl.
    destruct (file_name_of <$> filter (fun r => group_key r = Some key) df)
      as [|n ns]; split.
    + intros [H _]. discriminate.
    + intros [-> H]. simpl in H. lia.
    + intros [[= <-] H]. split; [reflexivity | exact H].
    + intros [-> H]. split; [reflexivity | exact H].
  - rewrite lookup_empty. split; [discriminate|].
    intros [-> Hlen]. exfalso.
    assert (Hnone : forall r, r ∈ df -> group_key r = None).
    { intros r Hr. destruct r as [f ids c d|f d]; [|reflexivity].
      exfalso.
      assert (Habs : existsb (fun r => match r with
                                       | FullRow _ _ _ _ => true
                                       | ShortRow _ _ => false
                                       end) df = true).
      { apply existsb_exists. exists (FullRow f ids c d).
        split; [apply list_elem_of_In; exact Hr | reflexivity]. }
      unfold has_order_ids_column in Hcol. congruence. }
    assert (Hempty : filter (fun r => group_key r = Some key) df = []).
    { clear Hlen Hcol. induction df as [|r df IH]; [reflexivity|].
      rewrite filter_cons_False.
      - apply IH. intros r0 Hr0. apply Hnone. right. exact Hr0.
      - rewrite (Hnone r) by left. discriminate. }
    rewrite Hempty in Hlen. simpl in Hlen. lia.
Qed.

End DuplicateGroups.

Section PerFilePipelineExamples.
Import DataExtractor DataValidator MeowzonExtractor ImageProcessor Config Claims.

Lemma without_ai_the_fields_are_local_witness :
  ai_used (process_loaded_image Samples.strptime_rejects
             Samples.reads_sample_text (fun x => x) None default_config
             (blank 100 100)) = false
  /\ extracted_fields
       (process_loaded_image Samples.strptime_rejects Samples.reads_sample_text
          (fun x => x) None default_config (blank 100 100))
     = extract_all Samples.strptime_rejects
         (find_best_crop Samples.reads_sample_text
            (crop_strategies default_config) (blank 100 100)
            (tesseract_confidence_threshold default_config)).1.1.1.2.
Proof.
  assert (H : ai_used (process_loaded_image Samples.strptime_rejects
                         Samples.reads_sample_text (fun x => x) None
                         default_config (blank 100 100)) = false).
  { vm_compute. reflexivity. }
  split; [exact H|].
  exact (proj1 (without_ai_the_fields_are_local Samples.strptime_rejects
                  Samples.reads_sample_text (fun x => x) None default_config
                  (blank 100 100) H)).
Defined.

End PerFilePipelineExamples.

(** ** The rows [merge_duplicates] returns *)

Section MergedRows.
Import DuplicateDetector MeowzonExtractor Claims Samples.

(** The row kept for a group is the first one of greatest confidence. *)
Lemma idxmax_row_first (best : Row) (rest : list Row) :
  exists before after,
    best :: rest = (before ++ idxmax_row best rest :: after)%list
    /\ Forall (fun r => confidence_of r < confidence_of (idxmax_row best rest))
              before
    /\ Forall (fun r => confidence_of r <= confidence_of (idxmax_row best rest))
              after.
Proof.
  revert best. induction rest as [|r rest IH]; intros best.
  - exists [], []. simpl. repeat split; constructor.
  - simpl idxmax_row.
    destruct (ImageProcessor.Qgtb (confidence_of r) (confidence_of best)) eqn:E.
    + apply Qgtb_true in E.
      destruct (IH r) as (before & after & Heq & Hb & Ha).
      exists (best :: before), after. rewrite Heq. split; [reflexivity|].
      split; [|exact Ha]. constructor; [|exact Hb].
      eapply Qlt_le_trans; [exact E|].
      apply (proj2 (idxmax_row_spec r rest)). left.
    + apply Qgtb_false in E.
      destruct (IH best) as (before & after & Heq & Hb & Ha).
      destruct before as [|b before]; simpl in Heq.
      * injection Heq as Hbest Hrest. subst after.
        exists [], (r :: rest).
        split; [simpl; rewrite <- Hbest; reflexivity|].
        split; [constructor|].
        constructor; [rewrite <- Hbest; exact E | exact Ha].
      * injection Heq as <- Hrest.
        exists (best :: r :: before), after.
        split; [simpl; do 2 f_equal; exact Hrest|]. split; [|exact Ha].
        inversion Hb as [|? ? Hbest Hb']; subst.
        constructor; [exact Hbest|]. constructor; [|exact Hb'].
        eapply Qle_lt_trans; [exact E | exact Hbest].
Qed.

(** X20.  For a group of two or more rows, [merge_duplicates] keeps one
    row: the first row of greatest confidence, with its file name
    replaced by the group's file names joined with " + " in batch order
    and marked as a duplicate; its order ids and confidence are kept. *)
Theorem merged_group_keeps_first_best (r1 r2 : Row) (rest : list Row) :
  exists before best after,
    r1 :: r2 :: rest = (before ++ best :: after)%list
    /\ Forall (fun r => confidence_of r < confidence_of best) before
    /\ Forall (fun r => confidence_of r <= confidence_of best) after
    /\ merge_group (r1 :: r2 :: rest)
       = [mark_merged (join " + " (map file_name_of (r1 :: r2 :: rest))) best]
    /\ confidence_of (mark_merged (join " + " (map file_name_of
                                     (r1 :: r2 :: rest))) best)
       = confidence_of best
    /\ first_order_id (mark_merged (join " + " (map file_name_of
                                      (r1 :: r2 :: rest))) best)
       = first_order_id best
    /\ is_duplicate_of (mark_merged (join " + " (map file_name_of
                                       (r1 :: r2 :: rest))) best)
       = Some true.
Proof.
  destruct (idxmax_row_first r1 (r2 :: rest)) as (before & after & Heq & Hb & Ha).
  exists before, (idxmax_row r1 (r2 :: rest)), after.
  split; [exact Heq|]. split; [exact Hb|]. split; [exact Ha|].
  split; [reflexivity|].
  destruct (idxmax_row r1 (r2 :: rest)); repeat split.
Qed.

Lemma insert_sorted_elem (k x : string) (l : list string) :
  x ∈ insert_sorted k l <-> x = k \/ x ∈ l.
Proof.
  induction l as [|k' l IH]; simpl.
  - rewrite list_elem_of_singleton, elem_of_nil. tauto.
  - destruct (String.eqb_spec k k') as [->|Hne].
    + rewrite elem_of_cons. tauto.
    + destruct (String.ltb k k').
      * rewrite !elem_of_cons. tauto.
      * rewrite !elem_of_cons, IH. tauto.
Qed.

Lemma insert_sorted_length (k : string) (l : list string) :
  (length (insert_sorted k l) <= S (length l))%nat.
Proof.
  induction l as [|k' l IH]; simpl; [lia|].
  destruct (String.eqb k k'); [simpl; lia|].
  destruct (String.ltb k k'); simpl; lia.
Qed.

Lemma group_keys_length (df : list Row) :
  (length (group_keys df) <= length df)%nat.
Proof.
  unfold group_keys.
  assert (H : forall l : list string,
            (length (fold_right insert_sorted [] l) <= length l)%nat).
  { induction l as [|k l IH]; simpl; [lia|].
    pose proof (insert_sorted_length k (fold_right insert_sorted [] l)). lia. }
  etransitivity; [apply H|].
  induction df as [|r df IH]; [reflexivity|].
  change (omap first_order_id (r :: df))
    with (match first_order_id r with
          | Some y => y :: omap first_order_id df
          | None => omap first_order_id df
          end).
  destruct (first_order_id r); simpl length; lia.
Qed.

Lemma split_nonempty (c : ascii) (s : string) : split c s <> [].
Proof.
  destruct s as [|a s]; simpl; [discriminate|].
  destruct (Ascii.eqb a c); [discriminate|].
  destruct (split c s); discriminate.
Qed.

Lemma merge_group_rows (group : list Row) :
  (length (merge_group group) <= 1)%nat
  /\ forall r, r ∈ merge_group group ->
       first_order_id r <> None \/ exists r', r' ∈ group /\ first_order_id r' = None.
Proof.
  destruct group as [|r1 [|r2 rest]].
  - split; [simpl; lia|]. intros r H. inversion H.
  - split; [simpl; lia|]. intros r H. simpl in H.
    apply list_elem_of_singleton in H as ->.
    destruct (first_order_id r1) eqn:E; [left; discriminate|].
    right. exists r1. split; [left | exact E].
  - split; [simpl; lia|]. intros r H.
    change (merge_group (r1 :: r2 :: rest))
      with [mark_merged (join " + " (map file_name_of (r1 :: r2 :: rest)))
              (idxmax_row r1 (r2 :: rest))] in H.
    apply list_elem_of_singleton in H as ->.
    pose proof (proj1 (idxmax_row_spec r1 (r2 :: rest))) as Hin.
    destruct (idxmax_row r1 (r2 :: rest)) as [f ids c d|f d] eqn:E.
    + left. unfold mark_merged, first_order_id.
      destruct (split "|" ids) eqn:Es;
        [exfalso; exact (split_nonempty _ _ Es) | simpl; discriminate].
    + right. exists (ShortRow f d). split; [exact Hin | reflexivity].
Qed.

(** X21.  When some record has the Order IDs cell, [merge_duplicates]
    returns at most as many rows as it was given and none of the records
    of files that failed (whose cell is NaN): [groupby] drops them.  When
    no record has the cell the batch is returned unchanged. *)
Theorem merge_duplicates_drops_failed_files (df : list Row) :
  (has_order_ids_column df = false -> merge_duplicates df = df)
  /\ (has_order_ids_column df = true ->
      (length (merge_duplicates df) <= length df)%nat
      /\ forall f d, ShortRow f d ∉ merge_duplicates df).
Proof.
  unfold merge_duplicates. split; intros Hcol; rewrite Hcol; simpl;
    [reflexivity|].
  split.
  - etransitivity; [|apply group_keys_length].
    induction (group_keys df) as [|k ks IH]; simpl; [lia|].
    rewrite length_app.
    pose proof (proj1 (merge_group_rows (group_of df k))). lia.
  - intros f d Hin. apply list_elem_of_In, in_flat_map in Hin as (k & _ & Hin).
    apply list_elem_of_In in Hin.
    destruct (proj2 (merge_group_rows (group_of df k)) _ Hin)
      as [Habs|(r' & Hr' & Hnone)].
    + apply Habs. reflexivity.
    + unfold group_of in Hr'. apply list_elem_of_filter in Hr' as [Hkey _].
      apply bool_decide_unpack in Hkey. congruence.
Qed.

End MergedRows.

(** ** Splitting and joining *)

Section SplitJoin.
Import DuplicateDetector MeowzonExtractor AIProvider Claims Samples.
Local Open Scope nat_scope.

Lemma contains_char (c x : ascii) (s : string) :
  contains (String c "") (String x s)
  = Ascii.eqb x c || contains (String c "") s.
Proof.
  simpl. rewrite (Ascii.eqb_sym c x).
  destruct s; simpl; rewrite andb_true_r; reflexivity.
Qed.

Lemma contains_char_nil (c : ascii) : contains (String c "") "" = false.
Proof. reflexivity. Qed.

Lemma split_cons (c x : ascii) (s : string) :
  split c (String x s)
  = if Ascii.eqb x c then "" :: split c s
    else match split c s with
         | [] => [String x ""]
         | w :: ws => String x w :: ws
         end.
Proof. reflexivity. Qed.

(** A text without the separator is one piece. *)
Lemma split_free (c : ascii) (a : string) :
  contains (String c "") a = false -> split c a = [a].
Proof.
  induction a as [|x a IH]; intros H; [reflexivity|].
  rewrite contains_char in H. apply orb_false_iff in H as [Hx Ha].
  rewrite split_cons, Hx, (IH Ha). reflexivity.
Qed.

Lemma split_app (c : ascii) (a b : string) :
  split c (a ++ String c b) = (split c a ++ split c b)%list.
Proof.
  induction a as [|x a IH].
  - rewrite append_nil_l, split_cons, Ascii.eqb_refl. reflexivity.
  - rewrite append_cons, !split_cons. destruct (Ascii.eqb x c).
    + rewrite IH. reflexivity.
    + rewrite IH. destruct (split c a) as [|w ws] eqn:E;
        [exfalso; exact (split_nonempty _ _ E) | reflexivity].
Qed.

(** Joining the pieces with the separator gives the text back. *)
Lemma join_split (c : ascii) (s : string) :
  join (String c "") (split c s) = s.
Proof.
  induction s as [|x s IH]; [reflexivity|].
  rewrite split_cons. destruct (Ascii.eqb_spec x c) as [->|Hne].
  - destruct (split c s) as [|w ws] eqn:E;
      [exfalso; exact (split_nonempty _ _ E)|].
    change (join (String c "") ("" :: w :: ws))
      with ("" ++ String c "" ++ join (String c "") (w :: ws)).
    rewrite IH. reflexivity.
  - destruct (split c s) as [|w ws] eqn:E;
      [exfalso; exact (split_nonempty _ _ E)|].
    destruct ws as [|w' ws].
    + simpl in IH. subst w. reflexivity.
    + change (join (String c "") (String x w :: w' :: ws))
        with (String x w ++ String c "" ++ join (String c "") (w' :: ws)).
      change (join (String c "") (w :: w' :: ws))
        with (w ++ String c "" ++ join (String c "") (w' :: ws)) in IH.
      rewrite append_cons, IH. reflexivity.
Qed.

Lemma contains_char_app (c : ascii) (a b : string) :
  contains (String c "") (a ++ b)
  = contains (String c "") a || contains (String c "") b.
Proof.
  induction a as [|x a IH].
  - rewrite append_nil_l. reflexivity.
  - rewrite append_cons, !contains_char, IH, orb_assoc. reflexivity.
Qed.

(** X22.  The group key of [merge_duplicates] for a record whose order
    ids contain no ['|']: the empty string when there are none, the
    first id when there is exactly one, and the first id followed by a
    blank (left over from the [" | "] separator) when there are more. *)
Theorem first_order_id_of_joined_ids (f : string) (conf : Q)
    (d : option bool) (first : string) (rest : list string) :
  contains "|" first = false ->
  first_order_id (FullRow f (order_ids_cell {["order_ids" := []]}) conf d)
    = Some ""
  /\ first_order_id
       (FullRow f (order_ids_cell {["order_ids" := first :: rest]}) conf d)
     = Some (match rest with [] => first | _ :: _ => first ++ " " end).
Proof.
  intros Hfree. split; [reflexivity|].
  unfold order_ids_cell. rewrite lookup_singleton_eq. simpl default.
  unfold first_order_id. destruct rest as [|second rest].
  - simpl join. rewrite (split_free _ _ Hfree). reflexivity.
  - change (join " | " (first :: second :: rest))
      with (first ++ " | " ++ join " | " (second :: rest)).
    replace (first ++ " | " ++ join " | " (second :: rest))
      with ((first ++ " ") ++ String "|" (" " ++ join " | " (second :: rest)))
      by (rewrite append_assoc; reflexivity).
    rewrite split_app, split_free; [reflexivity|].
    rewrite contains_char_app, Hfree. reflexivity.
Qed.

Lemma first_order_id_of_joined_ids_witness :
  first_order_id
    (FullRow "a.png"
       (order_ids_cell
          {["order_ids" := ["111-1111111-1111111"; "222-2222222-2222222"]]})
       60 None)
  = Some "111-1111111-1111111 ".
Proof.
  refine (proj2 (first_order_id_of_joined_ids "a.png" 60 None
                   "111-1111111-1111111" ["222-2222222-2222222"] _)).
  vm_compute. reflexivity.
Defined.

End SplitJoin.

(** ** Code fences around a model's answer *)

Section CodeFences.
Import AIProvider.
Local Open Scope nat_scope.

Lemma rstrip_app (a b : string) :
  rstrip b <> "" -> rstrip (a ++ b) = a ++ rstrip b.
Proof.
  intros Hb. induction a as [|x a IH]; [rewrite !append_nil_l; reflexivity|].
  rewrite !append_cons. simpl. rewrite IH.
  destruct (a ++ rstrip b) eqn:E; [|reflexivity].
  exfalso. destruct a; [rewrite append_nil_l in E; auto | discriminate E].
Qed.



Lemma strip_fenced (middle : string) :
  strip ("```" ++ middle ++ "```") = "```" ++ middle ++ "```".
Proof.
  unfold strip.
  change (lstrip ("```" ++ middle ++ "```")) with ("```" ++ middle ++ "```").
  rewrite <- append_assoc.
  rewrite rstrip_app; [reflexivity | discriminate].
Qed.

(** X23.  A fenced answer is unwrapped exactly: for an opening fence
    line without a newline in its language tag, the text between the
    opening line and the closing fence is what [_parse_json_response]
    hands to the JSON reader, whatever the text is. *)
Theorem fenced_answer_is_unwrapped (json_loads : string -> option json)
    (lang body : string) :
  contains (String Re.newline "") lang = false ->
  _parse_json_response json_loads
    ("```" ++ lang ++ String Re.newline (body ++ String Re.newline "```"))
  = Some (loads_or_search json_loads body).
Proof.
  intros Hlang. unfold _parse_json_response, strip_code_fence. cbv zeta.
  assert (Hstrip :
    strip ("```" ++ lang ++ String Re.newline (body ++ String Re.newline "```"))
    = "```" ++ lang ++ String Re.newline (body ++ String Re.newline "```")).
  { pose proof (strip_fenced
                  (lang ++ String Re.newline (body ++ String Re.newline "")))
      as H.
    rewrite <- !append_assoc in H. rewrite <- !append_assoc.
    replace (String Re.newline (body ++ String Re.newline "```"))
      with ((String Re.newline (body ++ String Re.newline "")) ++ "```").
    - rewrite <- !append_assoc. exact H.
    - rewrite append_cons, append_assoc. reflexivity. }
  rewrite Hstrip.
  change (starts_with "```" ("```" ++ lang ++ _)) with true. cbv iota.
  assert (Hlines :
    split Re.newline
      ("```" ++ lang ++ String Re.newline (body ++ String Re.newline "```"))
    = (("```" ++ lang)%string :: split Re.newline body ++ ["```"])%list).
  { rewrite <- append_assoc, split_app, split_app.
    rewrite split_free.
    - reflexivity.
    - rewrite contains_char_app, Hlang. reflexivity. }
  rewrite Hlines. simpl hd. simpl tl.
  change (starts_with "```" ("```" ++ lang)) with true. cbv iota.
  rewrite last_snoc.
  change (String.eqb (strip "```") "```") with true. cbv iota.
  rewrite removelast_last, join_split. reflexivity.
Qed.

Lemma fenced_answer_is_unwrapped_witness :
  _parse_json_response Samples.reads_empty_object
    ("```" ++ "json" ++ String Re.newline ("{}" ++ String Re.newline "```"))
  = Some (Some (JObj [])).
Proof.
  refine (eq_trans
            (fenced_answer_is_unwrapped Samples.reads_empty_object "json"
               "{}" _) _);
    vm_compute; reflexivity.
Defined.


End CodeFences.

(** ** The retry loop of the Ollama provider *)

Section OllamaRetries.
Import AIProvider.
Local Open Scope Z_scope.
Variable py_str : json -> string.
Variable json_loads : string -> option json.
Variable post : nat -> Reply.
Variable max_retries : Z.

Lemma attempt_once_returned (reply : Reply)
    (data : option (gmap string (list string))) (status : string) :
  attempt_once py_str json_loads reply = Returned data status ->
  (exists content parsed normalized,
      reply = Content content
      /\ _parse_json_response json_loads content = Some (Some parsed)
      /\ json_truthy parsed = true
      /\ _normalize_to_lists py_str parsed = Some normalized
      /\ data = Some normalized /\ status = "Ollama Success")
  \/ (data = None
      /\ (status = "Ollama JSON Parse Failed"
          \/ status = "Ollama Not Running (start with 'ollama serve')")).
Proof.
  unfold attempt_once. destruct reply as [content| | |text]; try discriminate.
  - destruct (_parse_json_response json_loads content) as [[parsed|]|] eqn:Hp;
      try discriminate.
    + destruct (json_truthy parsed) eqn:Ht.
      * destruct (_normalize_to_lists py_str parsed) as [normalized|] eqn:Hn;
          try discriminate.
        intros [= <- <-]. left. exists content, parsed, normalized.
        repeat split; assumption.
      * intros [= <- <-]. right. split; [reflexivity | left; reflexivity].
    + intros [= <- <-]. right. split; [reflexivity | left; reflexivity].
  - intros [= <- <-]. right. split; [reflexivity | right; reflexivity].
Qed.

Lemma error_status_differs (text other : string) :
  In other ["Ollama Success"; "Ollama Failed After Retries"] ->
  "Ollama Error: " ++ substring 0 50 text <> other.
Proof.
  intros [<-|[<-|[]]] H; cbv -[substring] in H; discriminate H.
Qed.

(** What [extract_from] returns, whatever the round it starts in. *)
Lemma extract_from_result (remaining attempt : nat) (slept : list Z)
    (data : option (gmap string (list string))) (status : string)
    (sleeps : list Z) :
  extract_from py_str json_loads post max_retries attempt remaining slept
  = (data, status, sleeps) ->
  (exists k content parsed normalized,
      post k = Content content
      /\ _parse_json_response json_loads content = Some (Some parsed)
      /\ json_truthy parsed = true
      /\ _normalize_to_lists py_str parsed = Some normalized
      /\ data = Some normalized /\ status = "Ollama Success")
  \/ (data = None /\ status <> "Ollama Success").
Proof.
  revert attempt slept.
  induction remaining as [|remaining IH]; intros attempt slept; simpl.
  - intros [= <- <- <-]. right. split; [reflexivity | discriminate].
  - destruct (attempt_once py_str json_loads (post attempt))
      as [d st| |text] eqn:Ha.
    + intros [= <- <- <-].
      destruct (attempt_once_returned _ _ _ Ha)
        as [(content & parsed & normalized & Hp & H)|[-> [->| ->]]].
      * left. exists attempt, content, parsed, normalized.
        split; [exact Hp | exact H].
      * right. split; [reflexivity | discriminate].
      * right. split; [reflexivity | discriminate].
    + destruct (Z.of_nat attempt <? max_retries - 1); [apply IH|].
      intros [= <- <- <-]. right. split; [reflexivity | discriminate].
    + destruct (Z.of_nat attempt <? max_retries - 1); [apply IH|].
      intros [= <- <- <-]. right. split; [reflexivity|].
      apply error_status_differs. left. reflexivity.
Qed.

(** X25.  [OllamaProvider.extract] returns data exactly with the status
    "Ollama Success", and the data is then the normalization of a
    truthy value parsed from the reply to one of its requests; with
    every other status the data is [None]. *)
Theorem ollama_data_iff_success :
  let '(data, status, _) := extract py_str json_loads post max_retries in
  (data <> None <-> status = "Ollama Success")
  /\ forall normalized, data = Some normalized ->
       exists k content parsed,
         post k = Content content
         /\ _parse_json_response json_loads content = Some (Some parsed)
         /\ json_truthy parsed = true
         /\ _normalize_to_lists py_str parsed = Some normalized.
Proof.
  destruct (extract py_str json_loads post max_retries)
    as [[data status] sleeps] eqn:E.
  unfold extract in E. apply extract_from_result in E.
  destruct E as [(k & content & parsed & normalized & Hk & Hp & Ht & Hn
                    & -> & ->)|[-> Hst]].
  - split; [split; [reflexivity | discriminate]|].
    intros normalized' [= <-]. exists k, content, parsed.
    repeat split; assumption.
  - split; [split; [intros H; exfalso; apply H; reflexivity
                   | intros H; exfalso; exact (Hst H)]|].
    intros normalized H. discriminate H.
Qed.

Lemma extract_from_never_falls_through (remaining attempt : nat)
    (slept : list Z) :
  Z.of_nat (attempt + S remaining) = max_retries ->
  snd (fst (extract_from py_str json_loads post max_retries attempt
              (S remaining) slept))
  <> "Ollama Failed After Retries".
Proof.
  revert attempt slept.
  induction remaining as [|remaining IH]; intros attempt slept Hn.
  - simpl.
    assert (Hlast : (Z.of_nat attempt <? max_retries - 1) = false)
      by (apply Z.ltb_ge; lia).
    rewrite Hlast.
    destruct (attempt_once py_str json_loads (post attempt))
      as [d st| |text] eqn:Ha; simpl.
    + destruct (attempt_once_returned _ _ _ Ha)
        as [(_ & _ & _ & _ & _ & _ & _ & _ & ->)|[_ [->| ->]]];
        discriminate.
    + discriminate.
    + apply error_status_differs. right. left. reflexivity.
  - change (extract_from py_str json_loads post max_retries attempt
              (S (S remaining)) slept)
      with (match attempt_once py_str json_loads (post attempt) with
            | Returned data status => (data, status, slept)
            | TimedOut =>
                if Z.of_nat attempt <? max_retries - 1
                then extract_from py_str json_loads post max_retries
                       (S attempt) (S remaining)
                       (slept ++ [2 ^ Z.of_nat attempt])
                else (None, "Ollama Timeout", slept)
            | Failed text =>
                if Z.of_nat attempt <? max_retries - 1
                then extract_from py_str json_loads post max_retries
                       (S attempt) (S remaining)
                       (slept ++ [2 ^ Z.of_nat attempt])
                else (None, "Ollama Error: " ++ substring 0 50 text, slept)
            end).
    destruct (attempt_once py_str json_loads (post attempt))
      as [d st| |text] eqn:Ha.
    + simpl.
      destruct (attempt_once_returned _ _ _ Ha)
        as [(_ & _ & _ & _ & _ & _ & _ & _ & ->)|[_ [->| ->]]];
        discriminate.
    + destruct (Z.of_nat attempt <? max_retries - 1);
        [apply IH; lia | simpl; discriminate].
    + destruct (Z.of_nat attempt <? max_retries - 1);
        [apply IH; lia | simpl].
      apply error_status_differs. right. left. reflexivity.
Qed.

(** X26.  The final [return None, "Ollama Failed After Retries"] of
    [OllamaProvider.extract] is reached exactly when [max_retries] is
    zero or negative, that is when no request is made: with one or more
    attempts the last failure is reported as a timeout or an error
    instead. *)
Theorem ollama_failed_after_retries_iff_no_attempt :
  snd (fst (extract py_str json_loads post max_retries))
    = "Ollama Failed After Retries"
  <-> max_retries <= 0.
Proof.
  unfold extract. destruct (Z.to_nat max_retries) as [|n] eqn:En.
  - simpl. split; [intros _; lia | reflexivity].
  - split; [|intros H; lia].
    intros H. exfalso. revert H.
    apply extract_from_never_falls_through. simpl. lia.
Qed.

Lemma seq_snoc_map (k : nat) :
  (map (fun i => 2 ^ Z.of_nat i) (seq 0 k) ++ [2 ^ Z.of_nat k])%list
  = map (fun i => 2 ^ Z.of_nat i) (seq 0 (S k)).
Proof. rewrite seq_S, map_app. reflexivity. Qed.

Lemma backoff_total (k : nat) :
  fold_right Z.add 0 (map (fun i => 2 ^ Z.of_nat i) (seq 0 k))
  = 2 ^ Z.of_nat k - 1.
Proof.
  induction k as [|k IH]; [reflexivity|].
  rewrite <- seq_snoc_map, fold_right_app. simpl fold_right.
  assert (Hshift : forall (l : list Z) (a : Z),
             fold_right Z.add a l = fold_right Z.add 0 l + a).
  { induction l as [|x l IHl]; intros a; simpl; [lia|].
    rewrite IHl. lia. }
  rewrite Hshift, IH, Nat2Z.inj_succ, Z.pow_succ_r by lia. lia.
Qed.

Lemma extract_from_sleeps (remaining attempt : nat) :
  (attempt = 0%nat \/ Z.of_nat attempt <= max_retries - 1) ->
  exists k : nat,
    (k = 0%nat \/ Z.of_nat k <= max_retries - 1)
    /\ snd (extract_from py_str json_loads post max_retries attempt remaining
              (map (fun i => 2 ^ Z.of_nat i) (seq 0 attempt)))
       = map (fun i => 2 ^ Z.of_nat i) (seq 0 k).
Proof.
  revert attempt.
  induction remaining as [|remaining IH]; intros attempt Hinv.
  - exists attempt. split; [exact Hinv | reflexivity].
  - simpl.
    destruct (attempt_once py_str json_loads (post attempt)) as [d st| |text].
    + exists attempt. split; [exact Hinv | reflexivity].
    + destruct (Z.of_nat attempt <? max_retries - 1) eqn:Hlt.
      * rewrite seq_snoc_map. apply IH. right. apply Z.ltb_lt in Hlt. lia.
      * exists attempt. split; [exact Hinv | reflexivity].
    + destruct (Z.of_nat attempt <? max_retries - 1) eqn:Hlt.
      * rewrite seq_snoc_map. apply IH. right. apply Z.ltb_lt in Hlt. lia.
      * exists attempt. split; [exact Hinv | reflexivity].
Qed.

(** X27.  The waits of [OllamaProvider.extract] back off exponentially
    and are bounded: it sleeps 1, 2, 4, ... seconds, once after each
    attempt it retries and never after the last one, so fewer than
    [max_retries] times and for less than [2 ^ (max_retries - 1)]
    seconds in all. *)
Theorem ollama_backoff_is_bounded :
  exists k : nat,
    snd (extract py_str json_loads post max_retries)
      = map (fun i => 2 ^ Z.of_nat i) (seq 0 k)
    /\ Z.of_nat k <= Z.max 0 (max_retries - 1)
    /\ fold_right Z.add 0 (snd (extract py_str json_loads post max_retries))
       < 2 ^ Z.max 0 (max_retries - 1).
Proof.
  destruct (extract_from_sleeps (Z.to_nat max_retries) 0 (or_introl eq_refl))
    as (k & Hk & Hs).
  exists k. unfold extract. change (@nil Z)
    with (map (fun i => 2 ^ Z.of_nat i) (seq 0 0)).
  assert (Hle : Z.of_nat k <= Z.max 0 (max_retries - 1)) by lia.
  rewrite Hs. repeat split; [exact Hle|].
  rewrite backoff_total.
  assert (2 ^ Z.of_nat k <= 2 ^ Z.max 0 (max_retries - 1))
    by (apply Z.pow_le_mono_r; lia).
  lia.
Qed.

End OllamaRetries.

(** ** Flagged duplicates and duplicate groups *)

Section FlaggedDuplicates.
Import DuplicateDetector.
Local Open Scope nat_scope.

Lemma duplicated_true (keys seen : list (option string)) (i : nat) :
  duplicated seen keys !! i = Some true ->
  exists k, keys !! i = Some k
            /\ (k ∈ seen \/ exists j, j < i /\ keys !! j = Some k).
Proof.
  revert seen i. induction keys as [|k keys IH]; intros seen i H.
  - destruct i; discriminate H.
  - destruct i as [|i]; simpl in H.
    + injection H as H. apply bool_decide_eq_true in H.
      exists k. split; [reflexivity | left; exact H].
    + destruct (IH _ _ H) as (k' & Hk' & Hseen).
      exists k'. split; [exact Hk'|].
      destruct Hseen as [Hin|(j & Hj & Hkj)].
      * apply elem_of_cons in Hin as [->|Hin]; [|left; exact Hin].
        right. exists 0. split; [lia | reflexivity].
      * right. exists (S j). split; [lia | exact Hkj].
Qed.

Lemma length_duplicated (keys seen : list (option string)) :
  length (duplicated seen keys) = length keys.
Proof.
  revert seen. induction keys as [|k keys IH]; intros seen; [reflexivity|].
  simpl. rewrite IH. reflexivity.
Qed.

Lemma group_key_by_first (r1 r0 : Row) (key : string) :
  first_order_id r1 = first_order_id r0 ->
  group_key r0 = Some key -> group_key r1 = Some key.
Proof.
  destruct r0 as [f0 o0 c0 d0|f0 d0]; [|discriminate].
  destruct r1 as [f1 o1 c1 d1|f1 d1].
  - unfold first_order_id, group_key, order_ids_text.
    destruct (split "|" o1) as [|a1 l1] eqn:E1;
      [exfalso; exact (split_nonempty _ _ E1)|].
    destruct (split "|" o0) as [|a0 l0] eqn:E0;
      [exfalso; exact (split_nonempty _ _ E0)|].
    simpl. intros [= ->]. exact id.
  - unfold first_order_id at 1. unfold first_order_id.
    destruct (split "|" o0) as [|a0 l0] eqn:E0;
      [exfalso; exact (split_nonempty _ _ E0) | discriminate].
Qed.

Lemma two_in_filter {A : Type} (P : A -> Prop) `{forall x, Decision (P x)}
    (l : list A) (j i : nat) (a b : A) :
  j < i -> l !! j = Some a -> l !! i = Some b -> P a -> P b ->
  2 <= length (filter P l).
Proof.
  intros Hji Hj Hi Pa Pb.
  rewrite <- (take_drop_middle l i b Hi).
  assert (Hj' : take i l !! j = Some a)
    by (rewrite lookup_take_lt by exact Hji; exact Hj).
  rewrite <- (take_drop_middle (take i l) j a Hj').
  rewrite !filter_app, !filter_cons_True by assumption.
  rewrite !length_app. simpl. rewrite ?length_app. simpl. lia.
Qed.

Lemma has_order_ids_column_flags (flags : list bool) (df : list Row) :
  length flags = length df ->
  has_order_ids_column (zip_with set_is_duplicate flags df)
  = has_order_ids_column df.
Proof.
  unfold has_order_ids_column. revert flags.
  induction df as [|r df IH]; intros [|b flags] Hlen; try discriminate Hlen;
    [reflexivity|].
  simpl. rewrite IH by (simpl in Hlen; lia). destruct r; reflexivity.
Qed.

Lemma fold_add_to_group_flags (flags : list bool) (df : list Row)
    (duplicates : gmap string (list string)) :
  length flags = length df ->
  fold_left add_to_group (zip_with set_is_duplicate flags df) duplicates
  = fold_left add_to_group df duplicates.
Proof.
  revert flags duplicates.
  induction df as [|r df IH]; intros [|b flags] duplicates Hlen;
    try discriminate Hlen; [reflexivity|].
  simpl. rewrite IH by (simpl in Hlen; lia). destruct r; reflexivity.
Qed.

(** The groups do not depend on the flags that [find_duplicates] sets. *)
Lemma groups_ignore_flags (df : list Row) :
  get_duplicate_groups (find_duplicates df) = get_duplicate_groups df.
Proof.
  unfold find_duplicates.
  destruct (has_order_ids_column df) eqn:Hcol; simpl negb; cbv iota.
  - unfold get_duplicate_groups.
    rewrite has_order_ids_column_flags, fold_add_to_group_flags, Hcol;
      try reflexivity;
      rewrite length_duplicated, length_map; reflexivity.
  - assert (Hmap : has_order_ids_column (map (set_is_duplicate false) df)
                   = has_order_ids_column df).
    { unfold has_order_ids_column. clear Hcol.
      induction df as [|r df IH]; [reflexivity|].
      simpl. rewrite IH. destruct r; reflexivity. }
    unfold get_duplicate_groups. rewrite Hmap, Hcol. reflexivity.
Qed.

(** X28.  [find_duplicates] and [get_duplicate_groups], which the batch
    run calls one after the other, agree in one direction: a file that
    [find_duplicates] flags and that has a usable first order id is
    listed in the duplicate group of that id.  [find_duplicates] keeps
    the rows and their order, and flags nothing when the frame has no
    Order IDs column. *)
Theorem flagged_duplicates_are_grouped (df : list Row) :
  map file_name_of (find_duplicates df) = map file_name_of df
  /\ (has_order_ids_column df = false ->
      forall r, r ∈ find_duplicates df -> is_duplicate_of r = Some false)
  /\ forall (i : nat) (r : Row) (key : string),
       find_duplicates df !! i = Some r ->
       is_duplicate_of r = Some true ->
       group_key r = Some key ->
       exists files,
         get_duplicate_groups (find_duplicates df) !! key = Some files
         /\ file_name_of r ∈ files.
Proof.
  rewrite groups_ignore_flags.
  unfold find_duplicates, get_duplicate_groups.
  destruct (has_order_ids_column df) eqn:Hcol; simpl negb; cbv iota.
  - split; [|split; [discriminate|]].
    + clear Hcol. generalize (@nil (option string)).
      induction df as [|r df IH]; intros seen; [reflexivity|].
      simpl. rewrite IH. destruct r; reflexivity.
    + intros i r key Hi Hflag Hkey.
      apply lookup_zip_with_Some in Hi as (b & r0 & -> & Hb & Hr0).
      assert (b = true) as -> by (destruct r0; simpl in Hflag; congruence).
      assert (Hkey0 : group_key r0 = Some key) by (destruct r0; exact Hkey).
      apply duplicated_true in Hb as (k & Hk & [Hin|(j & Hji & Hkj)]);
        [inversion Hin|].
      rewrite list_lookup_fmap in Hk, Hkj.
      rewrite Hr0 in Hk. injection Hk as <-.
      destruct (df !! j) as [r1|] eqn:Hr1; [|discriminate Hkj].
      injection Hkj as Hkj.
      pose proof (group_key_by_first _ _ _ Hkj Hkey0) as Hkey1.
      exists (file_name_of <$> filter (fun r => group_key r = Some key) df).
      split.
      * rewrite map_lookup_filter_Some, fold_add_to_group, lookup_empty.
        pose proof (two_in_filter (fun r => group_key r = Some key) df j i
                      r1 r0 Hji Hr1 Hr0 Hkey1 Hkey0) as Hlen.
        rewrite <- (length_fmap file_name_of) in Hlen.
        destruct (file_name_of <$> filter (fun r => group_key r = Some key) df)
          as [|n ns]; [simpl in Hlen; lia|].
        split; [reflexivity | simpl; simpl in Hlen; lia].
      * replace (file_name_of (set_is_duplicate true r0))
          with (file_name_of r0) by (destruct r0; reflexivity).
        apply list_elem_of_fmap. exists r0. split; [reflexivity|].
        apply list_elem_of_filter. split; [exact Hkey0|].
        apply (list_elem_of_lookup_2 _ i). exact Hr0.
  - split; [|split].
    + rewrite map_map. apply map_ext. intros []; reflexivity.
    + intros _ r Hr. apply list_elem_of_In, in_map_iff in Hr as (r0 & <- & _).
      destruct r0; reflexivity.
    + intros i r key Hi Hflag Hkey. exfalso.
      apply list_elem_of_lookup_2, list_elem_of_In, in_map_iff in Hi
        as (r0 & <- & _).
      destruct r0; discriminate Hflag.
Qed.

Lemma flagged_duplicates_are_grouped_witness :
  exists files,
    get_duplicate_groups
      (find_duplicates Claims.three_duplicates_and_one_idless)
      !! "111-1111111-1111111" = Some files
    /\ "b.png" ∈ files.
Proof.
  refine (proj2 (proj2 (flagged_duplicates_are_grouped
                          Claims.three_duplicates_and_one_idless))
            1 (FullRow "b.png" "111-1111111-1111111" 90 (Some true))
            "111-1111111-1111111" _ _ _);
    vm_compute; reflexivity.
Defined.

End FlaggedDuplicates.

(** ** The shape of a valid order id *)

Section OrderIdShape.
Import DataExtractor DataValidator.
Local Open Scope nat_scope.

Lemma in_ends_seq (ic : bool) (w : nat) (r1 r2 : regex) (s x : string) :
  In x (ends ic w (Seq r1 r2) s)
  <-> exists m, In m (ends ic w r1 s) /\ In x (ends ic w r2 m).
Proof. apply in_flat_map. Qed.

Lemma in_ends_eps (ic : bool) (w : nat) (s x : string) :
  In x (ends ic w Eps s) <-> x = s.
Proof. simpl. split; [intros [H|[]]; auto | intros ->; left; reflexivity]. Qed.

Lemma in_ends_lit (w : nat) (c : ascii) (s x : string) :
  In x (ends false w (Lit c) s) <-> s = String c x.
Proof.
  destruct s as [|a s]; simpl; [split; [intros [] | discriminate]|].
  unfold lit_matches. destruct (Ascii.eqb_spec c a) as [->|Hne]; simpl.
  - split; [intros [->|[]]; reflexivity | intros [= ->]; left; reflexivity].
  - split; [intros [] | intros [= -> ->]; congruence].
Qed.

Lemma in_ends_digit (w : nat) (s x : string) :
  In x (ends false w digit s) <-> exists a, s = String a x /\ is_digit a = true.
Proof.
  destruct s as [|a s]; simpl.
  - split; [intros [] | intros (a & H & _); discriminate H].
  - unfold cls_matches. rewrite andb_false_l, orb_false_r.
    destruct (is_digit a) eqn:Ha; simpl.
    + split; [intros [->|[]]; exists a; auto
             | intros (a' & [= -> ->] & _); left; reflexivity].
    + split; [intros [] | intros (a' & [= -> ->] & H); congruence].
Qed.

Lemma in_ends_bol (ic : bool) (w : nat) (s x : string) :
  In x (ends ic w Bol s) <-> x = s /\ String.length s = w.
Proof.
  simpl. destruct (Nat.eqb_spec (String.length s) w) as [E|E]; simpl.
  - split; [intros [->|[]]; auto | intros [-> _]; left; reflexivity].
  - split; [intros [] | intros [_ H]; contradiction].
Qed.

Lemma in_ends_eol (ic : bool) (w : nat) (s x : string) :
  In x (ends ic w Eol s)
  <-> x = s /\ (s = "" \/ s = String newline "").
Proof.
  destruct s as [|a [|b s]]; simpl.
  - split; [intros [->|[]]; auto | intros [-> _]; left; reflexivity].
  - destruct (Ascii.eqb_spec a newline) as [->|Hne]; simpl.
    + split; [intros [->|[]]; auto | intros [-> _]; left; reflexivity].
    + split; [intros [] | intros [_ [H|[= H]]]; [discriminate H | contradiction]].
  - split; [intros [] | intros [_ [H|H]]; discriminate H].
Qed.

(** A run of exactly [n] digits. *)
Lemma in_rep_digits (w n fuel : nat) (s x : string) :
  n < fuel ->
  In x (rep_ends (ends false w digit) fuel n (Some n) true s)
  <-> exists a, s = a ++ x /\ String.length a = n
                /\ forallb is_digit (list_ascii_of_string a) = true.
Proof.
  revert fuel s. induction n as [|n IH]; intros fuel s Hfuel;
    (destruct fuel as [|fuel]; [lia|]).
  - simpl. split.
    + intros [->|[]]. exists "". repeat split.
    + intros (a & -> & Hlen & _). destruct a; [left; reflexivity | discriminate].
  - change (rep_ends (ends false w digit) (S fuel) (S n) (Some (S n)) true s)
      with (flat_map (rep_ends (ends false w digit) fuel n (Some n) true)
              (ends false w digit s)).
    rewrite in_flat_map. split.
    + intros (m & Hm & Hx).
      apply in_ends_digit in Hm as (a & -> & Ha).
      apply IH in Hx as (rest & -> & Hlen & Hd); [|lia].
      exists (String a rest). simpl. rewrite Ha, Hlen, Hd. repeat split.
    + intros (a & -> & Hlen & Hd).
      destruct a as [|c a]; [discriminate Hlen|].
      simpl in Hlen, Hd. apply andb_true_iff in Hd as [Hc Hd].
      exists (a ++ x). split.
      * apply in_ends_digit. exists c. split; [reflexivity | exact Hc].
      * apply IH; [lia|]. exists a. repeat split; [lia | exact Hd].
Qed.

Lemma in_ends_times_digit (w n : nat) (s x : string) :
  In x (ends false w (times n digit) s)
  <-> exists a, s = a ++ x /\ String.length a = n
                /\ forallb is_digit (list_ascii_of_string a) = true.
Proof.
  change (ends false w (times n digit) s)
    with (rep_ends (ends false w digit) (S (String.length s + n)) n (Some n)
            true s).
  apply in_rep_digits. lia.
Qed.

(** X29.  [validate_order_id] accepts exactly the texts made of three
    digits, a dash, seven digits, a dash and seven digits, and the same
    followed by one newline (which [$] lets through); in particular an
    accepted id has 19 or 20 characters. *)
Theorem validate_order_id_shape (order_id : string) :
  validate_order_id order_id = true
  <-> exists a b c tail,
        order_id = a ++ "-" ++ b ++ "-" ++ c ++ tail
        /\ String.length a = 3 /\ String.length b = 7 /\ String.length c = 7
        /\ forallb is_digit (list_ascii_of_string (a ++ b ++ c)) = true
        /\ (tail = "" \/ tail = String newline "").
Proof.
  assert (Hdigits : forall a b c,
    forallb is_digit (list_ascii_of_string (a ++ b ++ c)) = true
    <-> forallb is_digit (list_ascii_of_string a) = true
        /\ forallb is_digit (list_ascii_of_string b) = true
        /\ forallb is_digit (list_ascii_of_string c) = true).
  { assert (Happ : forall a b,
      forallb is_digit (list_ascii_of_string (a ++ b))
      = forallb is_digit (list_ascii_of_string a)
        && forallb is_digit (list_ascii_of_string b)).
    { induction a as [|x a IHa]; intros b; [reflexivity|].
      rewrite append_cons. simpl. rewrite IHa, andb_assoc. reflexivity. }
    intros a b c. rewrite !Happ, !andb_true_iff. reflexivity. }
  assert (Hmatch :
    validate_order_id order_id = true
    <-> order_id <> ""
        /\ exists x, In x (ends false (String.length order_id)
                             (Seq (seqs [Bol; ORDER_ID; Eol]) Eps) order_id)).
  { unfold validate_order_id.
    destruct (String.eqb_spec order_id "") as [->|Hne].
    - split; [discriminate | intros [H _]; congruence].
    - unfold py_match, match_here. cbn [grp pre post ignorecase whole].
      rewrite bool_decide_eq_true.
      destruct (ends false (String.length order_id)
                  (Seq (seqs [Bol; ORDER_ID; Eol]) Eps) order_id) as [|x l].
      + simpl. split; [intros [y H]; discriminate H | intros [_ [x []]]].
      + simpl. split; [intros _; split; [exact Hne | exists x; left; reflexivity]
                      | intros _; eexists; reflexivity]. }
  rewrite Hmatch. clear Hmatch.
  unfold ORDER_ID, seqs. cbn [fold_right].
  split.
  - intros [_ (x & Hx)].
    apply in_ends_seq in Hx as (x0 & Hx & _).
    apply in_ends_seq in Hx as (s0 & Hbol & Hx).
    apply in_ends_bol in Hbol as [-> _].
    apply in_ends_seq in Hx as (s6 & Hx & Hend).
    apply in_ends_seq in Hend as (s7 & Heol & _).
    apply in_ends_eol in Heol as [-> Htail].
    apply in_ends_seq in Hx as (s1 & H1 & Hx).
    apply in_ends_seq in Hx as (s2 & H2 & Hx).
    apply in_ends_seq in Hx as (s3 & H3 & Hx).
    apply in_ends_seq in Hx as (s4 & H4 & Hx).
    apply in_ends_seq in Hx as (s5 & H5 & H6).
    apply in_ends_eps in H6 as ->.
    apply in_ends_times_digit in H1 as (a & -> & Hla & Hda).
    apply in_ends_lit in H2 as ->.
    apply in_ends_times_digit in H3 as (b & -> & Hlb & Hdb).
    apply in_ends_lit in H4 as ->.
    apply in_ends_times_digit in H5 as (c & -> & Hlc & Hdc).
    exists a, b, c, s5. repeat split; try assumption.
    apply Hdigits. auto.
  - intros (a & b & c & tail & -> & Hla & Hlb & Hlc & Hd & Htail).
    apply Hdigits in Hd as (Hda & Hdb & Hdc).
    split; [destruct a; [discriminate Hla | discriminate]|].
    exists tail.
    apply in_ends_seq. exists tail. split; [|apply in_ends_eps; reflexivity].
    apply in_ends_seq. eexists. split; [apply in_ends_bol; split; reflexivity|].
    apply in_ends_seq. exists tail. split.
    + apply in_ends_seq. eexists. split.
      { apply in_ends_times_digit. exists a. repeat split; eassumption. }
      apply in_ends_seq. eexists. split.
      { apply in_ends_lit. reflexivity. }
      apply in_ends_seq. eexists. split.
      { apply in_ends_times_digit. exists b. repeat split; eassumption. }
      apply in_ends_seq. eexists. split.
      { apply in_ends_lit. reflexivity. }
      apply in_ends_seq. eexists. split.
      { apply in_ends_times_digit. exists c. repeat split; eassumption. }
      apply in_ends_eps. reflexivity.
    + apply in_ends_seq. exists tail. split.
      * apply in_ends_eol. split; [reflexivity | exact Htail].
      * apply in_ends_eps. reflexivity.
Qed.

End OrderIdShape.
